(** * doc-analysis-agentic-system: task polling and OCR text extraction

    A shallow embedding of the two pieces of the front end that carry
    behaviour:

    - [pollTaskUntilComplete], once in [advanced_api.ts] (bounded by
      [maxAttempts]) and once as a private copy inside the chat assistant
      component ([while (true)], no bound);
    - [parseOCRData] of [DataVisualizationUpdated.tsx], the line oriented
      extractor that builds the three chart datasets.

    JavaScript strings are sequences of UTF-16 code units, and every string
    primitive the source uses ([split], [trim], [includes], [replace],
    [match], [parseFloat]) is defined on code units, so that is what a
    string is here.  *)

From Stdlib Require Import String Ascii DecimalString.
From Stdlib Require Import List NArith ZArith QArith Qpower Bool Lia Arith.
Import ListNotations.
Local Open Scope N_scope.

(* ===================================================================== *)
(** ** JavaScript strings *)
(* ===================================================================== *)

Module JS.

(** A UTF-16 code unit. *)
Definition char := N.

(** A JavaScript string value. *)
Definition str := list char.

(** *** Writing literals

    Source literals such as ['销售额'] are written in this file as UTF-8
    string literals and turned into code units by [lit]. *)

Fixpoint bytes (s : string) : list N :=
  match s with
  | EmptyString => []
  | String a r => N_of_ascii a :: bytes r
  end.

Definition cont (b : N) : N := N.land b 63.

(** UTF-8 decoding to code points (well-formed input is all we feed it;
    a truncated sequence is dropped). *)
Fixpoint utf8_decode (l : list N) : list N :=
  match l with
  | [] => []
  | b0 :: r0 =>
    if b0 <? 128 then b0 :: utf8_decode r0
    else if b0 <? 224 then
      match r0 with
      | b1 :: r1 => (N.land b0 31 * 64 + cont b1) :: utf8_decode r1
      | [] => []
      end
    else if b0 <? 240 then
      match r0 with
      | b1 :: b2 :: r2 =>
        (N.land b0 15 * 4096 + cont b1 * 64 + cont b2) :: utf8_decode r2
      | _ => []
      end
    else
      match r0 with
      | b1 :: b2 :: b3 :: r3 =>
        (N.land b0 7 * 262144 + cont b1 * 4096 + cont b2 * 64 + cont b3)
          :: utf8_decode r3
      | _ => []
      end
  end.

(** UTF-16 encoding of one code point. *)
Definition utf16_encode (cp : N) : list char :=
  if cp <? 65536 then [cp]
  else let v := cp - 65536 in [55296 + v / 1024; 56320 + v mod 1024].

Definition lit (s : string) : str :=
  flat_map utf16_encode (utf8_decode (bytes s)).

(** *** Character classes *)

(** [\d] : the ten ASCII digits. *)
Definition isDigit (c : char) : bool := (48 <=? c) && (c <=? 57).

(** [\s], and the characters [trim] removes: WhiteSpace and
    LineTerminator of ECMA-262. *)
Definition isSpace (c : char) : bool :=
  ((9 <=? c) && (c <=? 13))
  || (c =? 32) || (c =? 160) || (c =? 5760)
  || ((8192 <=? c) && (c <=? 8202))
  || (c =? 8232) || (c =? 8233) || (c =? 8239) || (c =? 8287)
  || (c =? 12288) || (c =? 65279).

Definition isChar (x : char) (c : char) : bool := c =? x.

Definition oneOf (xs : list char) (c : char) : bool :=
  existsb (N.eqb c) xs.

(** *** String primitives *)

Fixpoint dropWhile (p : char -> bool) (s : str) : str :=
  match s with
  | [] => []
  | c :: r => if p c then dropWhile p r else s
  end.

Fixpoint takeWhile (p : char -> bool) (s : str) : str :=
  match s with
  | [] => []
  | c :: r => if p c then c :: takeWhile p r else []
  end.

Definition trimStart (s : str) : str := dropWhile isSpace s.

Definition trimEnd (s : str) : str := rev (dropWhile isSpace (rev s)).

(** [s.trim()] *)
Definition trim (s : str) : str := trimEnd (trimStart s).

(** [s.split(c)] for a separator of one code unit (['\n'] and ['|'] in the
    source).  The empty string splits into one empty piece. *)
Fixpoint split (c : char) (s : str) : list str :=
  match s with
  | [] => [[]]
  | x :: r =>
    if x =? c then [] :: split c r
    else match split c r with
         | h :: t => (x :: h) :: t
         | [] => [[x]]
         end
  end.

Fixpoint startsWith (p s : str) : bool :=
  match p, s with
  | [], _ => true
  | _ :: _, [] => false
  | a :: p', b :: s' => (a =? b) && startsWith p' s'
  end.

(** [s.includes(p)] *)
Fixpoint includes (p s : str) : bool :=
  startsWith p s
  || match s with
     | [] => false
     | _ :: r => includes p r
     end.

(** [s.replace(/[cls]/g, '')] : every code unit of the class is removed. *)
Definition removeAll (cls : char -> bool) (s : str) : str :=
  filter (fun c => negb (cls c)) s.

(** Truthiness of a string: non-empty. *)
Definition truthy (s : str) : bool :=
  match s with [] => false | _ => true end.

End JS.

Module Num.
Import JS.

(** A JavaScript number, as far as the extractor can tell numbers apart.
    [Finite q] carries the exact value of the decimal literal that was
    read, in lowest terms; the run time rounds it to the nearest double,
    which changes neither whether a value is [NaN] nor any integer below
    2^53, and reads a literal beyond the range of doubles as
    [Infinity].  What is said below of the value of a number read is
    said of whole numbers below 2^53. *)
Inductive number :=
| NaN
| Infinity (negative : bool)
| Finite (q : Q).

Definition isNaN (n : number) : bool :=
  match n with NaN => true | _ => false end.

Definition ofZ (z : Z) : number := Finite (Qred (inject_Z z)).

Fixpoint digitsValue (acc : N) (ds : str) : N :=
  match ds with
  | [] => acc
  | d :: r => digitsValue (acc * 10 + (d - 48)) r
  end.

(** An optional leading sign: ['-'] is 45, ['+'] is 43. *)
Definition parseSign (s : str) : bool * str :=
  match s with
  | c :: r => if c =? 45 then (true, r) else if c =? 43 then (false, r)
              else (false, s)
  | [] => (false, s)
  end.

(** ExponentPart at the head of [s], if there is one: [e] or [E], an
    optional sign and at least one digit. *)
Definition parseExponent (s : str) : Z :=
  match s with
  | e :: r =>
    if (e =? 101) || (e =? 69) then
      let '(neg, r') := parseSign r in
      match takeWhile isDigit r' with
      | [] => 0%Z
      | ds => let v := Z.of_N (digitsValue 0 ds) in
              if neg then (- v)%Z else v
      end
    else 0%Z
  | [] => 0%Z
  end.

Definition decimal (neg : bool) (ip fp : str) (e : Z) : number :=
  let mant := Z.of_N (digitsValue 0 (ip ++ fp)) in
  let q := (inject_Z mant * Qpower (10 # 1) (e - Z.of_nat (length fp)))%Q in
  Finite (Qred (if neg then Qopp q else q)).

(** [parseFloat(s)]: leading white space is skipped, then the longest
    prefix that is a StrDecimalLiteral is read; [NaN] if there is none. *)
Definition parseFloat (s : str) : number :=
  let '(neg, s1) := parseSign (trimStart s) in
  if startsWith (lit "Infinity") s1 then Infinity neg
  else
    let ip := takeWhile isDigit s1 in
    let r1 := dropWhile isDigit s1 in
    match r1 with
    | c :: r2 =>
      if c =? 46 then
        let fp := takeWhile isDigit r2 in
        match ip, fp with
        | [], [] => NaN
        | _, _ => decimal neg ip fp (parseExponent (dropWhile isDigit r2))
        end
      else
        match ip with
        | [] => NaN
        | _ => decimal neg ip [] (parseExponent r1)
        end
    | [] =>
      match ip with
      | [] => NaN
      | _ => decimal neg ip [] 0
      end
    end.

End Num.

(* ===================================================================== *)
(** ** Regular expressions *)
(* ===================================================================== *)

(** A backtracking matcher for the fragment of ECMAScript patterns the
    source uses, in continuation passing style as in the language
    definition: greedy quantifiers, ordered alternatives, capture groups,
    and a search that tries every start position from the left. *)
Module Regex.
Import JS.

Inductive re :=
| Eps
| Class (p : char -> bool)
| Seq (a b : re)
| Alt (a b : re)
| Opt (a : re)
| Star (a : re)
| Group (i : nat) (a : re).

Definition Plus (a : re) : re := Seq a (Star a).

Fixpoint Lit (l : str) : re :=
  match l with
  | [] => Eps
  | c :: r => Seq (Class (isChar c)) (Lit r)
  end.

(** Captures: group number to captured text, [None] for [undefined]. *)
Definition caps := nat -> option str.

Definition noCaps : caps := fun _ => None.

Definition setCap (i : nat) (v : str) (c : caps) : caps :=
  fun j => if Nat.eqb j i then Some v else c j.

Definition cont := str -> caps -> option caps.

(** A quantified atom has to consume input for its iteration to count. *)
Definition progress (s : str) (k : cont) : cont :=
  fun s' c' => if (length s' <? length s)%nat then k s' c' else None.

Definition orElse (a b : option caps) : option caps :=
  match a with Some x => Some x | None => b end.

(** Greedy repetition of an atom whose matcher is [ma]: one more
    iteration is tried before the continuation.  Every iteration consumes
    input, so [length s] turns are as many as can ever be taken. *)
Fixpoint loopStar (ma : cont -> cont) (k : cont) (fuel : nat) (s : str)
  (c : caps) {struct fuel} : option caps :=
  match fuel with
  | O => k s c
  | S f => orElse (ma (progress s (loopStar ma k f)) s c) (k s c)
  end.

Fixpoint matcher (r : re) (k : cont) (s : str) (c : caps) {struct r}
  : option caps :=
  match r with
  | Eps => k s c
  | Class p =>
    match s with
    | x :: s' => if p x then k s' c else None
    | [] => None
    end
  | Seq a b => matcher a (matcher b k) s c
  | Alt a b => orElse (matcher a k s c) (matcher b k s c)
  | Opt a => orElse (matcher a (progress s k) s c) (k s c)
  | Star a => loopStar (matcher a) k (length s) s c
  | Group i a =>
    matcher a
      (fun s' c' => k s' (setCap i (firstn (length s - length s') s) c'))
      s c
  end.

(** One attempt at the start of [s]; group 0 is the whole match. *)
Definition matchHere (r : re) (s : str) : option caps :=
  matcher (Group 0 r) (fun _ c => Some c) s noCaps.

(** [s.match(r)] for a pattern without the [g] flag: the first start
    position, from the left, at which the pattern matches. *)
Fixpoint exec (r : re) (s : str) : option caps :=
  match matchHere r s with
  | Some c => Some c
  | None =>
    match s with
    | [] => None
    | _ :: s' => exec r s'
    end
  end.

End Regex.

(* ===================================================================== *)
(** ** parseOCRData (DataVisualizationUpdated.tsx) *)
(* ===================================================================== *)

Module Extract.
Import JS Num Regex.

(** The body of [parseOCRData] runs inside [try]; the one way a step of it
    could throw is a method call on [undefined] (an array index or a
    capture group that is not there). *)
Inductive res (A : Type) :=
| Ok (a : A)
| Throw.
Arguments Ok {A} a.
Arguments Throw {A}.

Definition bind {A B : Type} (x : res A) (f : A -> res B) : res B :=
  match x with
  | Ok a => f a
  | Throw => Throw
  end.

Notation "x <- e ;; k" := (bind e (fun x => k))
  (at level 61, e at next level, right associativity).

(** [xs[i]] when a method is called on the element right away. *)
Definition at_ {A : Type} (xs : list A) (i : nat) : res A :=
  match nth_error xs i with
  | Some x => Ok x
  | None => Throw
  end.

(** [m[i]] for a match result, same convention. *)
Definition group (m : caps) (i : nat) : res str :=
  match m i with
  | Some x => Ok x
  | None => Throw
  end.

Module Sales.
Record point := { month : str; value : number }.
End Sales.

Module Growth.
Record point := { month : str; rate : number }.
End Growth.

Module Category.
Record point := { name : str; value : number }.
End Category.

(** [currentSection]: [''], ['sales'], ['growth'] or ['categories']. *)
Inductive Section_ :=
| NoSection
| SalesSection
| GrowthSection
| CategoriesSection.

(** Truthiness of [currentSection]. *)
Definition isSet (c : Section_) : bool :=
  match c with NoSection => false | _ => true end.

(** The variables the [forEach] callback closes over. *)
Record locals := {
  sales : list Sales.point;
  growth : list Growth.point;
  categories : list Category.point;
  currentSection : Section_
}.

(** What [parseOCRData] returns: [{ sales, growth, categories }]. *)
Module Parsed.
Record t := {
  sales : list Sales.point;
  growth : list Growth.point;
  categories : list Category.point
}.
Definition empty : t := {| sales := []; growth := []; categories := [] |}.
End Parsed.

Definition bar : char := 124.
Definition newline : char := 10.
Definition comma : char := 44.
Definition dot : char := 46.
Definition colon : char := 58.
Definition wideColon : char := 65306.
Definition yue : str := lit "月".

(** Lines 72-78: the section keywords, first hit wins, otherwise the
    section stays as it was. *)
Definition detectSection (trimmedLine : str) (cur : Section_) : Section_ :=
  if includes (lit "销售额") trimmedLine || includes (lit "收入") trimmedLine
  then SalesSection
  else if includes (lit "增长率") trimmedLine
          || includes (lit "增长") trimmedLine
  then GrowthSection
  else if includes (lit "产品") trimmedLine || includes (lit "分类") trimmedLine
  then CategoriesSection
  else cur.

(** [/[^\d.]/] *)
Definition notDigitOrDot (c : char) : bool := negb (isDigit c || (c =? dot)).

(** [/[,.]/] *)
Definition commaOrDot (c : char) : bool := oneOf [comma; dot] c.

(** [trimmedLine.split('|').map(p => p.trim()).filter(p => p)] *)
Definition splitRow (trimmedLine : str) : list str :=
  filter truthy (map trim (split bar trimmedLine)).

(** [for (let i = 1; i < parts.length; i++) body(i)] *)
Fixpoint forFrom {A : Type} (body : nat -> A -> res A) (i n : nat) (a : A)
  : res A :=
  match n with
  | O => Ok a
  | S n' => a' <- body i a ;; forFrom body (S i) n' a'
  end.

Definition forParts {A : Type} (parts : list str)
  (body : nat -> A -> res A) (a : A) : res A :=
  forFrom body 1 (length parts - 1) a.

(** Lines 86-92. *)
Definition salesCell (parts : list str) (month : str) (i : nat)
  (acc : list Sales.point) : res (list Sales.point) :=
  cell <- at_ parts i ;;
  let value := parseFloat (removeAll notDigitOrDot cell) in
  if negb (isNaN value)
  then Ok (acc ++ [{| Sales.month := month; Sales.value := value |}])
  else Ok acc.

(** Lines 95-101. *)
Definition growthCell (parts : list str) (month : str) (i : nat)
  (acc : list Growth.point) : res (list Growth.point) :=
  cell <- at_ parts i ;;
  let rate := parseFloat (removeAll notDigitOrDot cell) in
  if negb (isNaN rate)
  then Ok (acc ++ [{| Growth.month := month; Growth.rate := rate |}])
  else Ok acc.

Definition withSection (v : locals) (c : Section_) : locals :=
  {| sales := sales v; growth := growth v; categories := categories v;
     currentSection := c |}.

Definition withSales (v : locals) (l : list Sales.point) : locals :=
  {| sales := l; growth := growth v; categories := categories v;
     currentSection := currentSection v |}.

Definition withGrowth (v : locals) (l : list Growth.point) : locals :=
  {| sales := sales v; growth := l; categories := categories v;
     currentSection := currentSection v |}.

Definition withCategories (v : locals) (l : list Category.point) : locals :=
  {| sales := sales v; growth := growth v; categories := l;
     currentSection := currentSection v |}.

(** Lines 81-111: the table row branch. *)
Definition tableRow (trimmedLine : str) (v : locals) : res locals :=
  if includes [bar] trimmedLine && isSet (currentSection v) then
    let parts := splitRow trimmedLine in
    if (3 <=? length parts)%nat then
      match currentSection v with
      | SalesSection =>
        p0 <- at_ parts 0 ;;
        if includes yue p0
        then l <- forParts parts (salesCell parts p0) (sales v) ;;
             Ok (withSales v l)
        else Ok v
      | GrowthSection =>
        p0 <- at_ parts 0 ;;
        if includes yue p0
        then l <- forParts parts (growthCell parts p0) (growth v) ;;
             Ok (withGrowth v l)
        else Ok v
      | CategoriesSection =>
        if (2 <=? length parts)%nat then
          name <- at_ parts 0 ;;
          cell <- at_ parts 1 ;;
          let value := parseFloat (removeAll notDigitOrDot cell) in
          if negb (isNaN value)
          then Ok (withCategories v
                     (categories v
                        ++ [{| Category.name := name;
                               Category.value := value |}]))
          else Ok v
        else Ok v
      | NoSection => Ok v
      end
    else Ok v
  else Ok v.

(** [/(\d+[月]?)[:：]\s*([\d,.]+)\s*(万元|元|万)/] *)
Definition salesPattern : re :=
  Seq (Group 1 (Seq (Plus (Class isDigit)) (Opt (Class (oneOf yue)))))
 (Seq (Class (oneOf [colon; wideColon]))
 (Seq (Star (Class isSpace))
 (Seq (Group 2 (Plus (Class (fun c => isDigit c || oneOf [comma; dot] c))))
 (Seq (Star (Class isSpace))
      (Group 3 (Alt (Lit (lit "万元")) (Alt (Lit (lit "元")) (Lit (lit "万"))))))))).

(** Lines 113-121: the [label: number unit] branch. *)
Definition salesLine (trimmedLine : str) (v : locals) : res locals :=
  match exec salesPattern trimmedLine with
  | Some salesMatch =>
    month <- group salesMatch 1 ;;
    digits <- group salesMatch 2 ;;
    let value := parseFloat (removeAll commaOrDot digits) in
    if negb (isNaN value)
    then Ok (withSales v
               (sales v ++ [{| Sales.month := month; Sales.value := value |}]))
    else Ok v
  | None => Ok v
  end.

(** The [forEach] callback, lines 68-122. *)
Definition eachLine (v : locals) (line : str) : res locals :=
  let trimmedLine := trim line in
  let v1 := withSection v (detectSection trimmedLine (currentSection v)) in
  v2 <- tableRow trimmedLine v1 ;;
  salesLine trimmedLine v2.

Fixpoint forEach (lines : list str) (v : locals) : res locals :=
  match lines with
  | [] => Ok v
  | line :: rest => v' <- eachLine v line ;; forEach rest v'
  end.

Definition initial : locals :=
  {| sales := []; growth := []; categories := []; currentSection := NoSection |}.

(** The [try] block, lines 61-124. *)
Definition parseOCRData_try (markdown : str) : res Parsed.t :=
  let lines := split newline markdown in
  v <- forEach lines initial ;;
  Ok {| Parsed.sales := sales v; Parsed.growth := growth v;
        Parsed.categories := categories v |}.

(** [parseOCRData]: the [catch] clause returns three empty arrays. *)
Definition parseOCRData (markdown : str) : Parsed.t :=
  match parseOCRData_try markdown with
  | Ok r => r
  | Throw => Parsed.empty
  end.

End Extract.

(* ===================================================================== *)
(** ** Task polling *)
(* ===================================================================== *)

Module Task.
Import JS.

(** The [status] field of [TaskStatus]. *)
Inductive Status :=
| pending
| ocr_processing
| analyzing
| visualizing
| completed
| error.

(** [interface TaskStatus] of advanced_api.ts. *)
Record TaskStatus := {
  task_id : str;
  status : Status;
  current_step : str;
  progress : Z;
  message : str;
  created_at : str;
  updated_at : str;
  has_results : bool
}.

Definition terminal (s : Status) : bool :=
  match s with
  | completed | error => true
  | _ => false
  end.

(** A thrown [new Error(message)]. *)
Inductive exn := Error (message : str).

(** How an [async] call ends. *)
Inductive outcome (A : Type) :=
| Returned (a : A)
| Thrown (e : exn).
Arguments Returned {A} a.
Arguments Thrown {A} e.

(** What a run does that can be seen from outside, in order. *)
Inductive event :=
| GetStatus (taskId : str)
| OnProgress (st : TaskStatus)
| GetResults (taskId : str)
| Sleep (ms : Z).

(** The network side: the answer to the k-th status request (counting
    from 0) and the answer to the results request.  [inl] is the error
    the transport function throws. *)
Record server (ProcessingResults : Type) := {
  statusReply : nat -> exn + TaskStatus;
  resultsReply : exn + ProcessingResults
}.
Arguments statusReply {ProcessingResults} s k.
Arguments resultsReply {ProcessingResults} s.

Record world := {
  requests : nat;
  log : list event
}.

Definition start : world := {| requests := 0; log := [] |}.

Definition emit (e : event) (w : world) : world :=
  {| requests := requests w; log := log w ++ [e] |}.

Definition liftReply {A : Type} (r : exn + A) : outcome A :=
  match r with
  | inl e => Thrown e
  | inr a => Returned a
  end.

Section Transport.
Context {ProcessingResults : Type} (srv : server ProcessingResults).

(** [getTaskStatus]: one request; a failure is logged to the console and
    thrown again. *)
Definition getTaskStatus (taskId : str) (w : world)
  : outcome TaskStatus * world :=
  (liftReply (statusReply srv (requests w)),
   {| requests := S (requests w); log := log w ++ [GetStatus taskId] |}).

(** [getProcessingResults] *)
Definition getProcessingResults (taskId : str) (w : world)
  : outcome ProcessingResults * world :=
  (liftReply (resultsReply srv), emit (GetResults taskId) w).

End Transport.

(** The snapshots handed to the observer, oldest first. *)
Fixpoint observed (l : list event) : list TaskStatus :=
  match l with
  | [] => []
  | OnProgress st :: r => st :: observed r
  | _ :: r => observed r
  end.

(** The status requests issued. *)
Fixpoint polls (l : list event) : nat :=
  match l with
  | [] => 0
  | GetStatus _ :: r => S (polls r)
  | _ :: r => polls r
  end.

End Task.

(** *** advanced_api.ts *)
Module AdvancedApi.
Import JS Task.

Definition TimeoutError : exn := Error (lit "处理超时").

Section Poll.
Context {ProcessingResults : Type} (srv : server ProcessingResults).

(** Lines 180-198, one turn of the [while] per unit of [remaining], which
    stands for [maxAttempts - attempts]; line 200 when it reaches 0.
    [onProgress] is [true] when the caller passed a callback. *)
Fixpoint pollLoop (taskId : str) (onProgress : bool) (pollInterval : Z)
  (remaining : nat) (w : world) : outcome ProcessingResults * world :=
  match remaining with
  | O => (Thrown TimeoutError, w)
  | S remaining' =>
    match getTaskStatus srv taskId w with
    | (Thrown e, w1) => (Thrown e, w1)
    | (Returned st, w1) =>
      let w2 := if onProgress then emit (OnProgress st) w1 else w1 in
      match status st with
      | completed => getProcessingResults srv taskId w2
      | error => (Thrown (Error (message st)), w2)
      | _ => pollLoop taskId onProgress pollInterval remaining'
               (emit (Sleep pollInterval) w2)
      end
    end
  end.

(** [pollTaskUntilComplete(taskId, onProgress?, pollInterval = 2000,
    maxAttempts = 150)] *)
Definition pollTaskUntilComplete (taskId : str) (onProgress : bool)
  (pollInterval : option Z) (maxAttempts : option nat) (w : world)
  : outcome ProcessingResults * world :=
  pollLoop taskId onProgress
    (match pollInterval with Some ms => ms | None => 2000%Z end)
    (match maxAttempts with Some n => n | None => 150%nat end)
    w.

End Poll.

End AdvancedApi.

(** *** The upload panel (its [handleFileUpload] passes
    [onProgress: (status) => { setTaskStatus(status); }]) *)
Module UploadPanel.
Import Task.

(** The [taskStatus] state variable, [null] before the first callback. *)
Definition onProgress (st : TaskStatus) (taskStatus : option TaskStatus)
  : option TaskStatus := Some st.

(** The values [taskStatus] takes during a run, one per callback. *)
Fixpoint history (sts : list TaskStatus) (taskStatus : option TaskStatus)
  : list (option TaskStatus) :=
  match sts with
  | [] => []
  | st :: r => let t := onProgress st taskStatus in t :: history r t
  end.

(** The progress figure on screen after each callback. *)
Definition shownProgress (l : list event) : list Z :=
  flat_map (fun t => match t with Some st => [progress st] | None => [] end)
           (history (observed l) None).

End UploadPanel.

(** *** The chat assistant's private copy *)
Module ChatAssistant.
Import JS Task.

Inductive loop (A : Type) :=
| Running (w : world)
| Done (o : outcome A) (w : world).
Arguments Running {A} w.
Arguments Done {A} o w.

Section Poll.
Context {ProcessingResults : Type} (srv : server ProcessingResults).

(** One turn of [while (true)]; [onUpdate] is not optional here. *)
Definition turn (taskId : str) (w : world) : loop TaskStatus :=
  match getTaskStatus srv taskId w with
  | (Thrown e, w1) => Done (Thrown e) w1
  | (Returned st, w1) =>
    let w2 := emit (OnProgress st) w1 in
    match status st with
    | completed => Done (Returned st) w2
    | error => Done (Thrown (Error (message st))) w2
    | _ => Running (emit (Sleep 2000) w2)
    end
  end.

(** The state of [pollTaskUntilComplete(taskId, onUpdate)] after at most
    [n] turns of its loop. *)
Fixpoint pollTaskUntilComplete (taskId : str) (n : nat) (w : world)
  : loop TaskStatus :=
  match n with
  | O => Running w
  | S n' =>
    match turn taskId w with
    | Running w' => pollTaskUntilComplete taskId n' w'
    | Done o w' => Done o w'
    end
  end.

End Poll.

End ChatAssistant.

(* ===================================================================== *)
(** ** Sample inputs *)
(* ===================================================================== *)

Module Samples.
Import JS Task.

Definition snapshot (s : Status) (p : Z) (msg : string) : TaskStatus :=
  {| task_id := lit "t-1"; status := s; current_step := lit "step";
     progress := p; message := lit msg; created_at := lit "10:00";
     updated_at := lit "10:01"; has_results := terminal s |}.

(** The answers of a server given as a list; once the list is used up
    every further request gets [rest]. *)
Definition replies (l : list TaskStatus) (rest : TaskStatus)
  : server nat :=
  {| statusReply := fun k => inr (nth k l rest); resultsReply := inr 7%nat |}.

(** A job that never leaves [analyzing]. *)
Definition stuck : server nat := replies [] (snapshot analyzing 40 "working").

(** Progress falls back from 50 to 30 while the status stays the same. *)
Definition dipping : server nat :=
  replies [snapshot analyzing 50 "chunk 5"; snapshot analyzing 30 "chunk 3"]
          (snapshot completed 100 "done").

(** The same snapshot twice in a row. *)
Definition repeating : server nat :=
  replies [snapshot analyzing 50 "chunk 5"; snapshot analyzing 50 "chunk 5"]
          (snapshot completed 100 "done").

(** The third answer is [completed], the fourth a stale [analyzing]. *)
Definition stale : server nat :=
  replies [snapshot pending 0 "queued"; snapshot ocr_processing 20 "ocr";
           snapshot completed 100 "done"]
          (snapshot analyzing 60 "late").

(** The second answer reports a failed job. *)
Definition failing : server nat :=
  replies [snapshot ocr_processing 20 "ocr"] (snapshot error 20 "boom").

End Samples.

(* ===================================================================== *)
(** ** Reading a run *)
(* ===================================================================== *)

Module Trace.
Import JS Task.

(** The successful answers among a list of answers. *)
Fixpoint successes {A : Type} (l : list (exn + A)) : list A :=
  match l with
  | [] => []
  | inr a :: r => a :: successes r
  | inl _ :: r => successes r
  end.

(** The answers to the first [n] status requests. *)
Definition answers {R : Type} (srv : server R) (n : nat)
  : list (exn + TaskStatus) :=
  map (statusReply srv) (seq 0 n).
Arguments answers : simpl never.

Definition nonterminal (st : TaskStatus) : Prop :=
  terminal (status st) = false.

(** The [k] answers from request number [from] on are snapshots of a job
    still under way. *)
Definition quiet {R : Type} (srv : server R) (from k : nat) : Prop :=
  forall i, (i < k)%nat ->
    exists st, statusReply srv (from + i) = inr st /\ nonterminal st.

(** The events of [k] turns of the loop during which the job is still
    under way, starting with request number [from]. *)
Fixpoint quietLog {R : Type} (srv : server R) (taskId : str)
  (onProgress : bool) (pollInterval : Z) (from k : nat) : list event :=
  match k with
  | O => []
  | S k' =>
    GetStatus taskId
      :: match statusReply srv from with
         | inr st => if onProgress then [OnProgress st] else []
         | inl _ => []
         end
      ++ Sleep pollInterval :: quietLog srv taskId onProgress pollInterval
                                 (S from) k'
  end.

(** The events of the turn that meets a terminal snapshot. *)
Definition lastTurn (taskId : str) (st : TaskStatus) : list event :=
  [GetStatus taskId; OnProgress st].

Definition tid : str := lit "t-1".

(** The default run of advanced_api.ts with an observer attached. *)
Definition watch {R : Type} (srv : server R) : outcome R * world :=
  AdvancedApi.pollTaskUntilComplete srv tid true None None start.

End Trace.

(* ===================================================================== *)
(** ** The status machine as the specification words it *)
(* ===================================================================== *)

(** These follow the specification text, not the source: they are what
    the observer would see if snapshots went through the described
    TaskStatusMachine.  They are compared with the code below. *)
Module Spec.
Import JS Task.

Definition status_eqb (a b : Status) : bool :=
  match a, b with
  | pending, pending | ocr_processing, ocr_processing
  | analyzing, analyzing | visualizing, visualizing
  | completed, completed | error, error => true
  | _, _ => false
  end.

Fixpoint str_eqb (a b : str) : bool :=
  match a, b with
  | [], [] => true
  | x :: a', y :: b' => (x =? y) && str_eqb a' b'
  | _, _ => false
  end.

(** "identical in status+progress+message" *)
Definition sameReport (a b : TaskStatus) : bool :=
  status_eqb (status a) (status b)
  && (progress a =? progress b)%Z
  && str_eqb (message a) (message b).

(** "a snapshot identical ... to the previous one is not re-emitted" *)
Fixpoint dedupe (l : list TaskStatus) : list TaskStatus :=
  match l with
  | [] => []
  | a :: r =>
    match r with
    | b :: _ => if sameReport a b then dedupe r else a :: dedupe r
    | [] => [a]
    end
  end.

(** "observed progress is non-decreasing" *)
Fixpoint nondecreasing (l : list Z) : bool :=
  match l with
  | [] => true
  | a :: r =>
    match r with
    | b :: _ => (a <=? b)%Z && nondecreasing r
    | [] => true
    end
  end.

End Spec.

(* ===================================================================== *)
(** ** Rows of a table, field by field *)
(* ===================================================================== *)

Module Row.
Import JS Num Regex Extract.

(** The number read from one field of a row. *)
Definition cellValue (cell : str) : number :=
  parseFloat (removeAll notDigitOrDot cell).

Definition salesOf (month cell : str) : list Sales.point :=
  if negb (isNaN (cellValue cell))
  then [{| Sales.month := month; Sales.value := cellValue cell |}]
  else [].

Definition growthOf (month cell : str) : list Growth.point :=
  if negb (isNaN (cellValue cell))
  then [{| Growth.month := month; Growth.rate := cellValue cell |}]
  else [].

Definition categoryOf (name cell : str) : list Category.point :=
  if negb (isNaN (cellValue cell))
  then [{| Category.name := name; Category.value := cellValue cell |}]
  else [].

(** What a row adds to each dataset, given the section it stands in. *)
Definition addsSales (sec : Section_) (parts : list str)
  : list Sales.point :=
  match sec, parts with
  | SalesSection, p0 :: rest =>
    if includes yue p0 then flat_map (salesOf p0) rest else []
  | _, _ => []
  end.

Definition addsGrowth (sec : Section_) (parts : list str)
  : list Growth.point :=
  match sec, parts with
  | GrowthSection, p0 :: rest =>
    if includes yue p0 then flat_map (growthOf p0) rest else []
  | _, _ => []
  end.

Definition addsCategories (sec : Section_) (parts : list str)
  : list Category.point :=
  match sec, parts with
  | CategoriesSection, p0 :: p1 :: _ => categoryOf p0 p1
  | _, _ => []
  end.

(** The row as the specification words it: "field 0 is the category key,
    remaining fields are candidate numeric values ...; a field that fails
    to parse as a float is skipped". *)
Definition positional (parts : list str) : list (str * number) :=
  match parts with
  | [] => []
  | key :: rest =>
    flat_map (fun cell => if isNaN (cellValue cell) then []
                          else [(key, cellValue cell)]) rest
  end.

Definition salesPairs (v : locals) : list (str * number) :=
  map (fun p => (Sales.month p, Sales.value p)) (sales v).

Definition categoryPairs (v : locals) : list (str * number) :=
  map (fun p => (Category.name p, Category.value p)) (categories v).

(** None of the six section keywords occurs in the line. *)
Definition noKeyword (t : str) : bool :=
  negb (includes (lit "销售额") t || includes (lit "收入") t
        || includes (lit "增长率") t || includes (lit "增长") t
        || includes (lit "产品") t || includes (lit "分类") t).

(** The line is a delimiter-separated row of three or more fields. *)
Definition isRow (t : str) : bool :=
  includes [bar] t && (3 <=? length (splitRow t))%nat.

(** The line has the shape [label: number unit]. *)
Definition isLabelled (t : str) : bool :=
  match exec salesPattern t with Some _ => true | None => false end.

(** A line with nothing the extractor recognises. *)
Definition plain (line : str) : bool :=
  let t := trim line in
  noKeyword t && negb (isRow t) && negb (isLabelled t).

(** Group [i] holds a string. *)
Definition defined (c : caps) (i : nat) : Prop := c i <> None.

(** Every capture group the pattern is sure to set when it matches. *)
Fixpoint sets (r : re) (i : nat) : bool :=
  match r with
  | Group j a => Nat.eqb i j || sets a i
  | Seq a b => sets a i || sets b i
  | Alt a b => sets a i && sets b i
  | _ => false
  end.

End Row.

(* ===================================================================== *)
(** ** Sample texts *)
(* ===================================================================== *)

Module Texts.
Import JS Num Extract.

Definition sale (month : string) (v : Z) : Sales.point :=
  {| Sales.month := lit month; Sales.value := ofZ v |}.

Definition onlySales (l : list Sales.point) : Parsed.t :=
  {| Parsed.sales := l; Parsed.growth := []; Parsed.categories := [] |}.

(** ["1月: 4200万元\n2月: 5800万元"] *)
Definition twoMonths : str := lit "1月: 4200万元
2月: 5800万元".

(** The table row of the specification's example. *)
Definition januaryRow : str := lit "| 1月 | 4200 | 4300 |".

(** That row under a heading. *)
Definition salesTable : str := lit "## 销售额" ++ newline :: januaryRow.

(** Nothing the extractor recognises: no keyword, a bar but only two
    fields, a colon and digits but no unit. *)
Definition prose : str := lit "Quarterly report

left | right
meeting at 12:30".

(** A sales table keyed by quarter, and a category table with two
    numeric columns. *)
Definition quarterTable : str := lit "销售额
| Q1 | 100 | 200 |".

Definition categoryTable : str := lit "产品
| A | 10 | 20 |".

(** A row with a field that is not a number. *)
Definition gappyRow : str := lit "| 1月 | 4200 | n/a | 4300 |".

(** The same figure written after a colon and inside a table. *)
Definition fractionLine : str := lit "1月: 42.5万元".

Definition fractionTable : str := lit "销售额
| 1月 | 42.5万元 | 1,200.5 |".

Definition thousandsLine : str := lit "1月: 4,200万元".

Definition noDigitsLine : str := lit "1月: ,万元".

End Texts.

(* ===================================================================== *)
(** ** Words of a pattern, and datasets that grow *)
(* ===================================================================== *)

Module Lang.
Import JS Num Regex Extract.

(** The strings a pattern can consume. *)
Inductive lang : re -> str -> Prop :=
| lang_eps : lang Eps []
| lang_class (p : char -> bool) (x : char) :
    p x = true -> lang (Class p) [x]
| lang_seq (a b : re) (u w : str) :
    lang a u -> lang b w -> lang (Seq a b) (u ++ w)
| lang_alt_l (a b : re) (u : str) : lang a u -> lang (Alt a b) u
| lang_alt_r (a b : re) (u : str) : lang b u -> lang (Alt a b) u
| lang_opt_none (a : re) : lang (Opt a) []
| lang_opt_some (a : re) (u : str) : lang a u -> lang (Opt a) u
| lang_star_nil (a : re) : lang (Star a) []
| lang_star_cons (a : re) (u w : str) :
    lang a u -> lang (Star a) w -> lang (Star a) (u ++ w)
| lang_group (i : nat) (a : re) (u : str) :
    lang a u -> lang (Group i a) u.

(** The capture groups of a pattern with what they enclose. *)
Fixpoint groups (r : re) : list (nat * re) :=
  match r with
  | Group i a => (i, a) :: groups a
  | Seq a b | Alt a b => groups a ++ groups b
  | Opt a | Star a => groups a
  | Eps | Class _ => []
  end.

(** [v] was captured by group [i] of a pattern with groups [gs]. *)
Definition fromGroup (gs : list (nat * re)) (i : nat) (v : option str)
  : Prop :=
  exists a w, In (i, a) gs /\ lang a w /\ v = Some w.

(** [/[\d.]/], what is left of a field after stripping. *)
Definition digitOrDot (c : char) : bool := isDigit c || (c =? dot).

(** [/[\d,.]/], the class of the second capture group. *)
Definition digitCommaDot (c : char) : bool :=
  isDigit c || oneOf [comma; dot] c.

(** A number that is neither [NaN] nor negative. *)
Definition unsigned (n : number) : Prop :=
  match n with
  | Finite q => (0 <= q)%Q
  | Infinity negative => negative = false
  | NaN => False
  end.

(** One dataset extends another at the end. *)
Definition extends {A : Type} (old new : list A) : Prop :=
  exists more, new = old ++ more.

Definition grows (v v' : locals) : Prop :=
  extends (sales v) (sales v') /\ extends (growth v) (growth v')
  /\ extends (categories v) (categories v').

(** Every value of every dataset is neither [NaN] nor negative. *)
Definition salesUnsigned (p : Sales.point) : Prop :=
  unsigned (Sales.value p).
Definition growthUnsigned (p : Growth.point) : Prop :=
  unsigned (Growth.rate p).
Definition categoryUnsigned (p : Category.point) : Prop :=
  unsigned (Category.value p).

Definition allUnsigned (v : locals) : Prop :=
  Forall salesUnsigned (sales v) /\ Forall growthUnsigned (growth v)
  /\ Forall categoryUnsigned (categories v).

(** A pattern consumes [u] and turns the captures [c] into [c']. *)
Inductive parses : re -> str -> caps -> caps -> Prop :=
| parses_eps (c : caps) : parses Eps [] c c
| parses_class (p : char -> bool) (x : char) (c : caps) :
    p x = true -> parses (Class p) [x] c c
| parses_seq (a b : re) (u w : str) (c c1 c2 : caps) :
    parses a u c c1 -> parses b w c1 c2 -> parses (Seq a b) (u ++ w) c c2
| parses_alt_l (a b : re) (u : str) (c c' : caps) :
    parses a u c c' -> parses (Alt a b) u c c'
| parses_alt_r (a b : re) (u : str) (c c' : caps) :
    parses b u c c' -> parses (Alt a b) u c c'
| parses_opt_none (a : re) (c : caps) : parses (Opt a) [] c c
| parses_opt_some (a : re) (u : str) (c c' : caps) :
    parses a u c c' -> parses (Opt a) u c c'
| parses_star_nil (a : re) (c : caps) : parses (Star a) [] c c
| parses_star_cons (a : re) (u w : str) (c c1 c2 : caps) :
    parses a u c c1 -> parses (Star a) w c1 c2 ->
    parses (Star a) (u ++ w) c c2
| parses_group (i : nat) (a : re) (u : str) (c c' : caps) :
    parses a u c c' -> parses (Group i a) u c (setCap i u c').

(** A labelled figure in its line, cut into the pieces the sales pattern
    tells apart: the digits of the label, the 月 that may follow them,
    the colon, white space, the figure, white space, the unit, and what
    stands before and after all that. *)
Record figure := {
  before : str;
  label : str;
  suffix : str;
  separator : char;
  gap : str;
  amount : str;
  gap' : str;
  unitText : str;
  after : str
}.

Definition matched (f : figure) : str :=
  label f ++ suffix f ++ separator f :: gap f ++ amount f ++ gap' f
  ++ unitText f.

Definition lineOf (f : figure) : str := before f ++ matched f ++ after f.

Definition shaped (f : figure) : Prop :=
  label f <> [] /\ Forall (fun x => isDigit x = true) (label f)
  /\ (suffix f = [] \/ suffix f = yue)
  /\ (separator f = colon \/ separator f = wideColon)
  /\ Forall (fun x => isSpace x = true) (gap f)
  /\ amount f <> [] /\ Forall (fun x => digitCommaDot x = true) (amount f)
  /\ Forall (fun x => isSpace x = true) (gap' f)
  /\ (unitText f = lit "万元" \/ unitText f = lit "元"
      \/ unitText f = lit "万").

Definition hasDigit (s : str) : bool := existsb isDigit s.

(** The whole number spelled by the digits of the figure. *)
Definition reading (f : figure) : N :=
  digitsValue 0 (removeAll commaOrDot (amount f)).

Definition point (f : figure) : Sales.point :=
  {| Sales.month := label f ++ suffix f;
     Sales.value := ofZ (Z.of_N (reading f)) |}.

End Lang.

(* ===================================================================== *)
(** ** The charts of DataVisualizationUpdated.tsx *)
(* ===================================================================== *)

Module Charts.
Import JS Num Extract.

(** Lines 16-39: the placeholder data. *)
Definition mockSalesData : list Sales.point :=
  [ {| Sales.month := lit "1月"; Sales.value := ofZ 4200 |};
    {| Sales.month := lit "2月"; Sales.value := ofZ 5800 |};
    {| Sales.month := lit "3月"; Sales.value := ofZ 7200 |};
    {| Sales.month := lit "4月"; Sales.value := ofZ 6800 |};
    {| Sales.month := lit "5月"; Sales.value := ofZ 8900 |};
    {| Sales.month := lit "6月"; Sales.value := ofZ 9500 |} ].

Definition mockGrowthData : list Growth.point :=
  [ {| Growth.month := lit "1月"; Growth.rate := ofZ 12 |};
    {| Growth.month := lit "2月"; Growth.rate := ofZ 19 |};
    {| Growth.month := lit "3月"; Growth.rate := ofZ 25 |};
    {| Growth.month := lit "4月"; Growth.rate := ofZ 22 |};
    {| Growth.month := lit "5月"; Growth.rate := ofZ 31 |};
    {| Growth.month := lit "6月"; Growth.rate := ofZ 35 |} ].

Definition mockCategoryData : list Category.point :=
  [ {| Category.name := lit "产品A"; Category.value := ofZ 35 |};
    {| Category.name := lit "产品B"; Category.value := ofZ 28 |};
    {| Category.name := lit "产品C"; Category.value := ofZ 22 |};
    {| Category.name := lit "产品D"; Category.value := ofZ 15 |} ].

(** The fields of [OCRResult] (api.ts) that are not optional. *)
Record OCRResult := {
  markdown : str;
  page_count : Z;
  status : str
}.

(** The state variables the effect writes. *)
Record view := {
  salesData : list Sales.point;
  growthData : list Growth.point;
  categoryData : list Category.point;
  isLoading : bool
}.

(** Lines 44-48. *)
Definition initialView : view :=
  {| salesData := mockSalesData; growthData := mockGrowthData;
     categoryData := mockCategoryData; isLoading := false |}.

(** [xs.length > 0 ? xs : fallback] *)
Definition orMock {A : Type} (xs fallback : list A) : list A :=
  if (0 <? length xs)%nat then xs else fallback.

(** Lines 132-144: the effect that runs when [ocrResult] or [useOCRData]
    changes (the timer that clears [isLoading] half a second later is
    not part of it). *)
Definition onOCRChange (ocrResult : option OCRResult) (useOCRData : bool)
  (s : view) : view :=
  match ocrResult with
  | Some r =>
    if truthy (markdown r) && useOCRData then
      let parsedData := parseOCRData (markdown r) in
      {| salesData := orMock (Parsed.sales parsedData) mockSalesData;
         growthData := orMock (Parsed.growth parsedData) mockGrowthData;
         categoryData :=
           orMock (Parsed.categories parsedData) mockCategoryData;
         isLoading := true |}
    else s
  | None => s
  end.

(** The view after a series of changes of [ocrResult] and [useOCRData]. *)
Definition afterChanges (changes : list (option OCRResult * bool))
  : view :=
  fold_left (fun s ch => onOCRChange (fst ch) (snd ch) s) changes
            initialView.

Definition nothingEmpty (s : view) : Prop :=
  salesData s <> [] /\ growthData s <> [] /\ categoryData s <> [].

End Charts.

(* ===================================================================== *)
(** ** More sample texts *)
(* ===================================================================== *)

Module MoreTexts.
Import JS Num Extract.

(** A table and a labelled figure, but no section keyword anywhere. *)
Definition orphanTable : str := lit "| 1月 | 4200 | 4300 |
3月: 5万".

End MoreTexts.

(* ===================================================================== *)
(** ** More ways to read a run *)
(* ===================================================================== *)

Module TraceMore.
Import JS Task Trace.

(** The time spent waiting, in milliseconds. *)
Fixpoint slept (l : list event) : Z :=
  match l with
  | [] => 0
  | Sleep ms :: r => ms + slept r
  | _ :: r => slept r
  end.


(** The log without the calls of the observer. *)
Fixpoint unobserved (l : list event) : list event :=
  match l with
  | [] => []
  | OnProgress _ :: r => unobserved r
  | e :: r => e :: unobserved r
  end.

(** The first answer of all that is not a snapshot of a job under way is
    the [k]-th, and it is a failure of the request. *)
Definition failsAt {R : Type} (srv : server R) (k : nat) (e : exn) : Prop :=
  quiet srv 0 k /\ statusReply srv k = inl e.

(** ... and it is the snapshot [st] with status [completed]. *)
Definition completesAt {R : Type} (srv : server R) (k : nat)
  (st : TaskStatus) : Prop :=
  quiet srv 0 k /\ statusReply srv k = inr st /\ status st = completed.

End TraceMore.

(* ===================================================================== *)
(** ** processDocument (advanced_api.ts) *)
(* ===================================================================== *)

Module Upload.
Import JS.

(** [interface UploadResponse]; of [file_info] the name and the size in
    bytes are kept, the size in megabytes is a fraction nothing reads. *)
Record response := {
  task_id : str;
  status : str;
  message : str;
  filename : str;
  size_bytes : N
}.

End Upload.

Module Pipeline.
Import JS Task.

(** What the code reads of a [File]. *)
Record File := {
  name : str;
  type : str;
  size : N
}.

(** The [options] argument of [processDocument]; a field that is left
    out is [None], and [onProgress] says whether a callback was given. *)
Record options := {
  enableDescription : option bool;
  userQuery : option str;
  onProgress : bool
}.

(** Lines 68-69: the two text fields of the form. *)
Definition enable_description (o : options) : str :=
  match enableDescription o with
  | Some true => lit "true"
  | Some false => lit "false"
  | None => lit "false"
  end.

Definition defaultQuery : str := lit "分析此文档并生成可视化报告".

Definition user_query (o : options) : str :=
  match userQuery o with
  | Some q => if truthy q then q else defaultQuery
  | None => defaultQuery
  end.

(** The network side of a whole document run. *)
Record backend (ProcessingResults : Type) := {
  uploadReply : exn + Upload.response;
  tasks : server ProcessingResults;
  reportReply : exn + str
}.
Arguments uploadReply {ProcessingResults} b.
Arguments tasks {ProcessingResults} b.
Arguments reportReply {ProcessingResults} b.

(** What a document run does, in order. *)
Inductive step :=
| PostUpload (fileName enableDescription userQuery : str)
| Poll (e : event)
| GetReport (taskId : str).

(** What [processDocument] resolves to. *)
Record processed (ProcessingResults : Type) := {
  taskId : str;
  results : ProcessingResults;
  htmlReport : str
}.
Arguments taskId {ProcessingResults} p.
Arguments results {ProcessingResults} p.
Arguments htmlReport {ProcessingResults} p.

Section Run.
Context {ProcessingResults : Type} (b : backend ProcessingResults).

(** [uploadDocument], lines 59-87. *)
Definition uploadDocument (file : File) (o : options)
  : outcome Upload.response * list step :=
  (liftReply (uploadReply b),
   [PostUpload (name file) (enable_description o) (user_query o)]).

(** [getHtmlReport], lines 128-141. *)
Definition getHtmlReport (taskId : str) : outcome str * list step :=
  (liftReply (reportReply b), [GetReport taskId]).

(** [processDocument], lines 206-235. *)
Definition processDocument (file : File) (o : options)
  : outcome (processed ProcessingResults) * list step :=
  match uploadDocument file o with
  | (Thrown e, s1) => (Thrown e, s1)
  | (Returned uploadResponse, s1) =>
    match AdvancedApi.pollTaskUntilComplete (tasks b)
            (Upload.task_id uploadResponse) (onProgress o) None None start
    with
    | (Thrown e, w) => (Thrown e, s1 ++ map Poll (log w))
    | (Returned res, w) =>
      match getHtmlReport (Upload.task_id uploadResponse) with
      | (Thrown e, s3) => (Thrown e, s1 ++ map Poll (log w) ++ s3)
      | (Returned html, s3) =>
        (Returned {| taskId := Upload.task_id uploadResponse;
                     results := res; htmlReport := html |},
         s1 ++ map Poll (log w) ++ s3)
      end
    end
  end.

End Run.

(** The request an event makes, if it makes one, names task [tid]. *)
Definition about (tid : str) (e : event) : Prop :=
  match e with
  | GetStatus t | GetResults t => t = tid
  | _ => True
  end.

(** A step after the upload: no second upload, and every request names
    task [tid]. *)
Definition follows (tid : str) (s : step) : Prop :=
  match s with
  | PostUpload _ _ _ => False
  | Poll e => about tid e
  | GetReport t => t = tid
  end.

End Pipeline.

(* ===================================================================== *)
(** ** File checks (advanced_api.ts) *)
(* ===================================================================== *)

Module Validate.
Import JS Regex Pipeline.

(** [$] at the end of a pattern: the continuation is only reached at the
    end of the input. *)
Definition atEnd (k : cont) : cont :=
  fun s c => match s with [] => k s c | _ :: _ => None end.

Definition matchHereAtEnd (r : re) (s : str) : option caps :=
  matcher (Group 0 r) (atEnd (fun _ c => Some c)) s noCaps.

(** [s.match(r)] for a pattern [r$] without the [g] flag. *)
Fixpoint execAtEnd (r : re) (s : str) : option caps :=
  match matchHereAtEnd r s with
  | Some c => Some c
  | None =>
    match s with
    | [] => None
    | _ :: s' => execAtEnd r s'
    end
  end.

(** A lower-case ASCII letter of a pattern with the [i] flag: it matches
    the code units whose canonical form is its upper-case letter, which
    are the letter itself and the letter 32 below it. *)
Definition letter (c : char) : char -> bool :=
  fun x => (x =? c) || (x =? c - 32).

Fixpoint Letters (l : str) : re :=
  match l with
  | [] => Eps
  | c :: r => Seq (Class (letter c)) (Letters r)
  end.

Definition extensions : list str :=
  map lit ["jpg"; "jpeg"; "png"; "pdf"; "txt"; "md"]%string.

(** [/\.(jpg|jpeg|png|pdf|txt|md)$/i] without its [$]. *)
Definition extensionPattern : re :=
  Seq (Class (isChar 46))
      (Group 1
         (Alt (Letters (lit "jpg"))
         (Alt (Letters (lit "jpeg"))
         (Alt (Letters (lit "png"))
         (Alt (Letters (lit "pdf"))
         (Alt (Letters (lit "txt"))
              (Letters (lit "md")))))))).

Definition allowedTypes : list str :=
  map lit ["image/jpeg"; "image/jpg"; "image/png"; "application/pdf";
           "text/plain"; "text/markdown"]%string.

Fixpoint sameString (a b : str) : bool :=
  match a, b with
  | [], [] => true
  | x :: a', y :: b' => (x =? y) && sameString a' b'
  | _, _ => false
  end.

(** [validateFileType], lines 240-248. *)
Definition validateFileType (file : File) : bool :=
  existsb (sameString (type file)) allowedTypes
  || match execAtEnd extensionPattern (name file) with
     | Some _ => true
     | None => false
     end.

(** [validateFileSize(file, maxSizeMB = 100)], lines 253-256. *)
Definition validateFileSize (file : File) (maxSizeMB : option N) : bool :=
  let maxSizeBytes :=
    (match maxSizeMB with Some m => m | None => 100 end) * 1024 * 1024 in
  size file <=? maxSizeBytes.

(** [ext] is [e] written in any mix of upper and lower case. *)
Fixpoint anyCase (e ext : str) : bool :=
  match e, ext with
  | [], [] => true
  | a :: e', x :: ext' => letter a x && anyCase e' ext'
  | _, _ => false
  end.

(** [ext] begins with [e] in any case. *)
Fixpoint anyCasePrefix (e ext : str) : bool :=
  match e, ext with
  | [], _ => true
  | a :: e', x :: ext' => letter a x && anyCasePrefix e' ext'
  | _ :: _, [] => false
  end.

Definition isSome {A : Type} (o : option A) : bool :=
  match o with Some _ => true | None => false end.

End Validate.

(* ===================================================================== *)
(** ** Downloads and the upload panel *)
(* ===================================================================== *)

Module Download.
Import JS Task.

Definition API_BASE_URL : str := lit "http://localhost:8708".

(** ['json' | 'html'] *)
Inductive fileType := json | html.

Definition text (t : fileType) : str :=
  match t with json => lit "json" | html => lit "html" end.

(** A non-negative whole number in a template string. *)
Definition decimal (n : N) : str :=
  lit (NilZero.string_of_uint (N.to_uint n)).

(** How [fetch] ends: it rejects, or it resolves to a response of which
    [ok] and [status] are read and, when [ok] holds, the body through
    [blob()], which can reject in its turn ([inl]). *)
Inductive fetched :=
| Rejected (e : exn)
| Response (ok : bool) (status : N) (blob : exn + unit).

(** What [downloadFile] does to the page, in order. *)
Inductive action :=
| Fetch (url : str)
| CreateObjectURL
| AppendAnchor (download : str)
| Click
| RevokeObjectURL
| RemoveAnchor.

(** [downloadFile], lines 146-167. *)
Definition downloadFile (reply : fetched) (taskId : str) (t : fileType)
  : outcome unit * list action :=
  let url := API_BASE_URL ++ lit "/download/" ++ taskId ++ lit "/" ++ text t
  in
  match reply with
  | Rejected e => (Thrown e, [Fetch url])
  | Response false status _ =>
    (Thrown (Error (lit "下载失败: " ++ decimal status)), [Fetch url])
  | Response true _ (inl e) => (Thrown e, [Fetch url])
  | Response true _ (inr _) =>
    (Returned tt,
     [Fetch url; CreateObjectURL;
      AppendAnchor (text t ++ lit "_" ++ taskId ++ lit "." ++ text t);
      Click; RevokeObjectURL; RemoveAnchor])
  end.

(** The files saved: one per click on an anchor that is in the page. *)
Fixpoint saved (anchor : option str) (l : list action) : list str :=
  match l with
  | [] => []
  | AppendAnchor name :: r => saved (Some name) r
  | RemoveAnchor :: r => saved None r
  | Click :: r =>
    match anchor with
    | Some name => name :: saved anchor r
    | None => saved anchor r
    end
  | _ :: r => saved anchor r
  end.

End Download.

(** *** The two transports

    advanced_api.ts and the chat assistant each have their own
    [getTaskStatus]; they ask the same endpoint and word its failure
    differently. *)
Module Http.
Import JS Task.

(** How [fetch] ends at a JSON endpoint: it rejects, or it resolves to a
    response of which [ok], [status] and [statusText] can be read and
    whose body [json()] parses ([inr]) or fails to parse ([inl]). *)
Inductive reply (A : Type) :=
| Unreachable (e : exn)
| Answer (ok : bool) (status : N) (statusText : str) (json : exn + A).
Arguments Unreachable {A} e.
Arguments Answer {A} ok status statusText json.

(** The status endpoint, request by request, and the results endpoint. *)
Record site (ProcessingResults : Type) := {
  statusHttp : nat -> reply TaskStatus;
  resultsHttp : reply ProcessingResults
}.
Arguments statusHttp {ProcessingResults} s k.
Arguments resultsHttp {ProcessingResults} s.

(** The body of a response that was [ok], or an error made from what
    [describe] reads of one that was not. *)
Definition checked {A : Type} (describe : N -> str -> str) (r : reply A)
  : exn + A :=
  match r with
  | Unreachable e => inl e
  | Answer false status statusText _ =>
    inl (Error (describe status statusText))
  | Answer true _ _ json => json
  end.

(** The body whatever [ok] says. *)
Definition unchecked {A : Type} (r : reply A) : exn + A :=
  match r with
  | Unreachable e => inl e
  | Answer _ _ _ json => json
  end.

Section Sites.
Context {ProcessingResults : Type} (h : site ProcessingResults).

(** [getTaskStatus] and [getProcessingResults] of advanced_api.ts, lines
    92-105 and 110-123. *)
Definition viaAdvancedApi : server ProcessingResults :=
  {| statusReply := fun k =>
       checked (fun status _ => lit "状态查询失败: "
                                ++ Download.decimal status)
               (statusHttp h k);
     resultsReply :=
       checked (fun status _ => lit "获取结果失败: "
                                ++ Download.decimal status)
               (resultsHttp h) |}.

(** [getTaskStatus] of the chat assistant, which reads [statusText], and
    its request for the results, which never reads [ok]. *)
Definition viaChat : server ProcessingResults :=
  {| statusReply := fun k =>
       checked (fun _ statusText => lit "获取状态失败: " ++ statusText)
               (statusHttp h k);
     resultsReply := unchecked (resultsHttp h) |}.

End Sites.

End Http.

(** *** Callbacks that do more than look

    [pollTaskUntilComplete] of advanced_api.ts calls [onProgress(status)]
    outside any [try] and tests [status.status] afterwards, on the very
    object the callback was handed. *)
Module Observer.
Import JS Task.

(** What the call of the callback with the answer to status request
    number [k] comes to: it throws, or it returns and leaves the
    snapshot as given here (the same one if it only reads it).  A
    callback with a memory may treat the same snapshot differently from
    one call to the next. *)
Definition callback := nat -> TaskStatus -> outcome TaskStatus.

(** A callback that only looks. *)
Definition looking : callback := fun _ st => Returned st.

Section Poll.
Context {ProcessingResults : Type} (srv : server ProcessingResults).

(** Lines 180-200 with the callback as a function; [remaining] stands
    for [maxAttempts - attempts]. *)
Fixpoint pollLoop (taskId : str) (onProgress : option callback)
  (pollInterval : Z) (remaining : nat) (w : world)
  : outcome ProcessingResults * world :=
  match remaining with
  | O => (Thrown AdvancedApi.TimeoutError, w)
  | S remaining' =>
    match getTaskStatus srv taskId w with
    | (Thrown e, w1) => (Thrown e, w1)
    | (Returned st, w1) =>
      match match onProgress with
            | Some f => (f (requests w) st, emit (OnProgress st) w1)
            | None => (Returned st, w1)
            end
      with
      | (Thrown e, w2) => (Thrown e, w2)
      | (Returned status, w2) =>
        match Task.status status with
        | completed => getProcessingResults srv taskId w2
        | error => (Thrown (Error (message status)), w2)
        | _ => pollLoop taskId onProgress pollInterval remaining'
                 (emit (Sleep pollInterval) w2)
        end
      end
    end
  end.

(** [pollTaskUntilComplete(taskId, onProgress?, pollInterval = 2000,
    maxAttempts = 150)] *)
Definition pollTaskUntilComplete (taskId : str)
  (onProgress : option callback) (pollInterval : option Z)
  (maxAttempts : option nat) (w : world)
  : outcome ProcessingResults * world :=
  pollLoop taskId onProgress
    (match pollInterval with Some ms => ms | None => 2000%Z end)
    (match maxAttempts with Some n => n | None => 150%nat end)
    w.

End Poll.

Definition watched (onProgress : option callback) : bool :=
  match onProgress with Some _ => true | None => false end.

(** The turn of the loop that polls [st] with request number [k] goes
    on to wait: the callback, if there is one, returns, and the snapshot
    is not terminal when the loop tests it. *)
Definition goesOn (onProgress : option callback) (k : nat)
  (st : TaskStatus) : Prop :=
  match onProgress with
  | Some f => exists st', f k st = Returned st'
                          /\ terminal (status st') = false
  | None => terminal (status st) = false
  end.

(** The [k] status requests from number [from] on are answered with
    snapshots after which the loop goes on. *)
Definition waiting {R : Type} (srv : server R)
  (onProgress : option callback) (from k : nat) : Prop :=
  forall i, (i < k)%nat ->
    exists st, statusReply srv (from + i) = inr st
               /\ goesOn onProgress (from + i) st.

(** The callback always returns and leaves [status] and [message]
    alone. *)
Definition harmless (f : callback) : Prop :=
  forall k st, exists st',
    f k st = Returned st' /\ status st' = status st
    /\ message st' = message st.

End Observer.

Module Panel.
Import JS Task Pipeline Validate.

(** The state variables of the panel that the handlers read or write. *)
Record state (ProcessingResults : Type) := {
  processingResults : option ProcessingResults;
  currentTaskId : option str;
  taskStatus : option TaskStatus;
  htmlReport : str;
  isProcessing : bool;
  fileInputRef : bool;
  userQuery : str
}.
Arguments processingResults {ProcessingResults} s.
Arguments currentTaskId {ProcessingResults} s.
Arguments taskStatus {ProcessingResults} s.
Arguments htmlReport {ProcessingResults} s.
Arguments isProcessing {ProcessingResults} s.
Arguments fileInputRef {ProcessingResults} s.
Arguments userQuery {ProcessingResults} s.

(** What a handler does beyond its own state. *)
Inductive effect (ProcessingResults : Type) :=
| Alert (text : str)
| Net (s : step)
| OnOCRResult (results : ProcessingResults)
| ClearFileInput
| Page (a : Download.action).
Arguments Alert {ProcessingResults} text.
Arguments Net {ProcessingResults} s.
Arguments OnOCRResult {ProcessingResults} results.
Arguments ClearFileInput {ProcessingResults}.
Arguments Page {ProcessingResults} a.

Definition wrongType : str :=
  lit "文件格式不支持。请上传 JPG、PNG、PDF、TXT 或 MD 格式的文件。".

Definition tooLarge : str :=
  lit "文件大小超过限制。请上传小于 100MB 的文件。".

(** The [taskStatus] the callbacks of a run leave behind. *)
Definition lastStatus (steps : list step) (t : option TaskStatus)
  : option TaskStatus :=
  fold_left (fun t s => match s with
                        | Poll (OnProgress st) => UploadPanel.onProgress st t
                        | _ => t
                        end) steps t.

Section Handlers.
Context {ProcessingResults : Type} (b : backend ProcessingResults).

(** Lines 76-96: what the handler does once [processDocument] has
    settled, with the callbacks of the run already applied. *)
Definition settle (onOCRResult : bool) (s : state ProcessingResults)
  (run : outcome (processed ProcessingResults) * list step)
  : state ProcessingResults * list (effect ProcessingResults) :=
  let '(r, steps) := run in
  let clear := if fileInputRef s then [ClearFileInput] else [] in
  match r with
  | Returned response =>
    ({| processingResults := Some (results response);
        currentTaskId := Some (taskId response);
        taskStatus := lastStatus steps None;
        htmlReport := Pipeline.htmlReport response;
        isProcessing := false;
        fileInputRef := fileInputRef s;
        userQuery := userQuery s |},
     map Net steps
     ++ (if onOCRResult then [OnOCRResult (results response)] else [])
     ++ clear)
  | Thrown (Error message) =>
    ({| processingResults := processingResults s;
        currentTaskId := None;
        taskStatus := lastStatus steps None;
        htmlReport := htmlReport s;
        isProcessing := false;
        fileInputRef := fileInputRef s;
        userQuery := userQuery s |},
     map Net steps ++ [Alert (lit "文档处理失败: " ++ message)] ++ clear)
  end.

(** [handleFileUpload], lines 45-97; [onOCRResult] says whether the
    parent passed that callback. *)
Definition handleFileUpload (file : option File) (onOCRResult : bool)
  (s : state ProcessingResults)
  : state ProcessingResults * list (effect ProcessingResults) :=
  match file with
  | None => (s, [])
  | Some f =>
    if negb (validateFileType f) then (s, [Alert wrongType])
    else if negb (validateFileSize f None) then (s, [Alert tooLarge])
    else
      settle onOCRResult s
        (processDocument b f
           {| enableDescription := Some true;
              Pipeline.userQuery := Some (userQuery s);
              onProgress := true |})
  end.

(** [handleDownload], lines 99-108. *)
Definition handleDownload (reply : Download.fetched) (t : Download.fileType)
  (s : state ProcessingResults) : list (effect ProcessingResults) :=
  match currentTaskId s with
  | None => []
  | Some id =>
    if truthy id then
      match Download.downloadFile reply id t with
      | (Returned _, acts) => map Page acts
      | (Thrown _, acts) =>
        map Page acts ++ [Alert (lit "下载失败，请稍后重试")]
      end
    else []
  end.

End Handlers.

(** Lines 30-36. *)
Definition initial {ProcessingResults : Type} : state ProcessingResults :=
  {| processingResults := None; currentTaskId := None; taskStatus := None;
     htmlReport := []; isProcessing := false; fileInputRef := false;
     userQuery := defaultQuery |}.

Definition isNet {R : Type} (e : effect R) : bool :=
  match e with Net _ | Page (Download.Fetch _) => true | _ => false end.

End Panel.

(* ===================================================================== *)
(** ** The transcript of the chat assistant *)
(* ===================================================================== *)

Module Transcript.
Import JS Task Pipeline.

(** ['user' | 'assistant' | 'status'] *)
Inductive kind := user | assistant | status.

(** [interface ChatMessage]; an optional field that is absent is
    [None]. *)
Record ChatMessage := {
  type : kind;
  content : str;
  progress : option Z;
  step : option str;
  completed : option bool
}.

Definition isStatus (m : ChatMessage) : bool :=
  match type m with status => true | _ => false end.

(** Lines 246-252; 34 is the double quote around the file name. *)
Definition startMessage (fileName : str) : ChatMessage :=
  {| type := status;
     content := lit "开始处理文档 " ++ [34] ++ fileName ++ [34];
     progress := Some 0%Z; step := Some (lit "OCR识别");
     completed := None |}.

(** Lines 265-270. *)
Definition progressMessage (st : TaskStatus) : ChatMessage :=
  {| type := status; content := Task.message st;
     progress := Some (Task.progress st);
     step := Some (current_step st); completed := None |}.

(** Lines 300-306. *)
Definition doneStatus : ChatMessage :=
  {| type := status; content := lit "文档已解析完成，可以开始提问了";
     progress := Some 100%Z; step := Some (lit "解析完成");
     completed := Some true |}.

(** Lines 309-312. *)
Definition doneMessage : ChatMessage :=
  {| type := assistant;
     content := lit "文档解析完成！已完成以下处理：

- OCR文字识别
- 数据结构化提取
- 内容分析整理

现在您可以在下方输入问题，我将基于文档内容进行深度分析并生成可视化报告。";
     progress := None; step := None; completed := None |}.

(** What the [catch] clause of [processDocument] can receive: an
    [Error], as every failed request gives, or some other value, which a
    callback of the parent may throw. *)
Inductive thrown :=
| OfError (e : exn)
| Other.

(** [error instanceof Error ? error.message : '未知错误'] *)
Definition errorText (t : thrown) : str :=
  match t with
  | OfError (Error message) => message
  | Other => lit "未知错误"
  end.

(** Lines 318-321. *)
Definition errorMessage (t : thrown) : ChatMessage :=
  {| type := assistant;
     content := lit "处理失败: " ++ errorText t ++ lit "

请检查文档格式是否正确，或重新上传文档。";
     progress := None; step := None; completed := None |}.

(** [newMessages[newMessages.length - 1]], if there is one. *)
Definition lastMessage (l : list ChatMessage) : option ChatMessage :=
  nth_error l (length l - 1).

(** [newMessages[newMessages.length - 1] = m] on a non-empty array. *)
Fixpoint setLast (m : ChatMessage) (l : list ChatMessage)
  : list ChatMessage :=
  match l with
  | [] => []
  | [_] => [m]
  | x :: r => x :: setLast m r
  end.

Definition endsWithStatus (l : list ChatMessage) : bool :=
  match lastMessage l with
  | Some m => (0 <? length l)%nat && isStatus m
  | None => false
  end.

(** Lines 272-281: the updater the progress callback passes to
    [setMessages]. *)
Definition onUpdate (st : TaskStatus) (prev : list ChatMessage)
  : list ChatMessage :=
  if endsWithStatus prev then setLast (progressMessage st) prev
  else prev ++ [progressMessage st].

(** Lines 296-314: the updater after a successful run. *)
Definition finish (prev : list ChatMessage) : list ChatMessage :=
  (if endsWithStatus prev then setLast doneStatus prev else prev)
  ++ [doneMessage].

(** [prev.filter((msg, idx) => keep msg idx)] *)
Fixpoint filterFrom (keep : ChatMessage -> nat -> bool) (idx : nat)
  (l : list ChatMessage) : list ChatMessage :=
  match l with
  | [] => []
  | msg :: r =>
    if keep msg idx then msg :: filterFrom keep (S idx) r
    else filterFrom keep (S idx) r
  end.

(** Lines 323-327: the updater after a failed run. *)
Definition fail (t : thrown) (prev : list ChatMessage) : list ChatMessage :=
  filterFrom (fun msg idx =>
                negb (Nat.eqb idx (length prev - 1) && isStatus msg))
             0 prev
  ++ [errorMessage t].

(** Progress updates applied to a transcript one after the other, oldest
    first, with no other write in between. *)
Definition updates (sts : list TaskStatus) (l : list ChatMessage)
  : list ChatMessage :=
  fold_left (fun m st => onUpdate st m) sts l.

(** The endpoints the chat assistant talks to, and what a call of the
    parent's [onProcessingComplete] throws ([None] when the prop is not
    passed or the call returns). *)
Record site (ProcessingResults : Type) := {
  uploadHttp : Http.reply Upload.response;
  jobs : Http.site ProcessingResults;
  parentThrows : option thrown
}.
Arguments uploadHttp {ProcessingResults} s.
Arguments jobs {ProcessingResults} s.
Arguments parentThrows {ProcessingResults} s.

(** A write of a document run to [messages]: each is an updater, applied
    to whatever the transcript holds at that time. *)
Inductive write :=
| Start (fileName : str)
| Progress (st : TaskStatus)
| Finished
| Failed (t : thrown).

Definition apply (w : write) (prev : list ChatMessage)
  : list ChatMessage :=
  match w with
  | Start fileName => prev ++ [startMessage fileName]
  | Progress st => onUpdate st prev
  | Finished => finish prev
  | Failed t => fail t prev
  end.

(** Writes applied one after the other with no other write in
    between. *)
Definition replay (ws : list write) (prev : list ChatMessage)
  : list ChatMessage :=
  fold_left (fun m w => apply w m) ws prev.

Section Run.
Context {ProcessingResults : Type} (s : site ProcessingResults).

(** The chat assistant's own [uploadDocument], part_003 lines 89-104. *)
Definition uploadDocument : exn + Upload.response :=
  Http.checked (fun _ statusText => lit "上传失败: " ++ statusText)
               (uploadHttp s).

(** The [try] block, lines 256-314: what is thrown in it, if anything,
    and the snapshots its progress callback was called with; [None]
    while the loop is still polling after [n] turns. *)
Definition attempt (n : nat) : option (option thrown * list TaskStatus) :=
  match uploadDocument with
  | inl e => Some (Some (OfError e), [])
  | inr uploadResult =>
    match ChatAssistant.pollTaskUntilComplete (Http.viaChat (jobs s))
            (Upload.task_id uploadResult) n start with
    | ChatAssistant.Running _ => None
    | ChatAssistant.Done (Thrown e) w =>
      Some (Some (OfError e), observed (log w))
    | ChatAssistant.Done (Returned _) w =>
      match resultsReply (Http.viaChat (jobs s)) with
      | inl e => Some (Some (OfError e), observed (log w))
      | inr _ => Some (parentThrows s, observed (log w))
      end
    end
  end.

(** [processDocument] of the chat assistant, lines 241-329, as the
    writes it makes to the transcript, in order, once it is over. *)
Definition processDocument (file : File) (n : nat) : option (list write) :=
  match attempt n with
  | None => None
  | Some (caught, sts) =>
    Some (Start (name file)
            :: map Progress sts
            ++ [match caught with
                | None => Finished
                | Some t => Failed t
                end])
  end.

(** The snapshots among the answers to the first [k]+1 status
    requests. *)
Definition polled (k : nat) : list TaskStatus :=
  Trace.successes (Trace.answers (Http.viaChat (jobs s)) (S k)).

(** Every step of the [try] block went well within [n] turns, and [sts]
    are the snapshots polled on the way. *)
Definition succeeds (n : nat) (sts : list TaskStatus) : Prop :=
  exists uploadResult k st results,
    uploadDocument = inr uploadResult
    /\ (k < n)%nat
    /\ TraceMore.completesAt (Http.viaChat (jobs s)) k st
    /\ resultsReply (Http.viaChat (jobs s)) = inr results
    /\ parentThrows s = None
    /\ sts = polled k.

(** The first step of the [try] block that did not go well threw [t]:
    the upload, a status request, a snapshot that reports an error, the
    request for the results, or the parent's callback; [sts] are the
    snapshots polled up to then. *)
Definition failsWith (n : nat) (t : thrown) (sts : list TaskStatus)
  : Prop :=
  (exists e, uploadDocument = inl e /\ t = OfError e /\ sts = [])
  \/ exists uploadResult k,
       uploadDocument = inr uploadResult /\ (k < n)%nat
       /\ sts = polled k
       /\ ((exists e, TraceMore.failsAt (Http.viaChat (jobs s)) k e
                      /\ t = OfError e)
           \/ (exists st,
                 Trace.quiet (Http.viaChat (jobs s)) 0 k
                 /\ statusReply (Http.viaChat (jobs s)) k = inr st
                 /\ Task.status st = error
                 /\ t = OfError (Error (message st)))
           \/ (exists st,
                 TraceMore.completesAt (Http.viaChat (jobs s)) k st
                 /\ ((exists e,
                        resultsReply (Http.viaChat (jobs s)) = inl e
                        /\ t = OfError e)
                     \/ (exists results,
                           resultsReply (Http.viaChat (jobs s))
                           = inr results
                           /\ parentThrows s = Some t)))).

End Run.

(** The one status line of a run in progress. *)
Definition statusLine (fileName : str) (sts : list TaskStatus)
  : ChatMessage :=
  match rev sts with
  | st :: _ => progressMessage st
  | [] => startMessage fileName
  end.

(** The transcript up to a status line at its end. *)
Definition withoutStatus (l : list ChatMessage) : list ChatMessage :=
  if endsWithStatus l then removelast l else l.

(** What a run leaves at the end of the transcript when it is over. *)
Definition closing (w : write) : list ChatMessage :=
  match w with
  | Finished => [doneStatus; doneMessage]
  | Failed t => [errorMessage t]
  | _ => []
  end.

End Transcript.

(* ===================================================================== *)
(** ** removeEmojis (chat assistant) *)
(* ===================================================================== *)

Module Emoji.
Import JS.

Definition isHigh (c : char) : bool := (55296 <=? c) && (c <=? 56319).
Definition isLow (c : char) : bool := (56320 <=? c) && (c <=? 57343).
Definition isSurrogate (c : N) : bool := (55296 <=? c) && (c <=? 57343).

(** The code points a pattern with the [u] flag sees: a high surrogate
    followed by a low one is one code point, any other code unit stands
    for itself. *)
Fixpoint codePoints (s : str) : list N :=
  match s with
  | [] => []
  | h :: r =>
    match r with
    | l :: r' =>
      if isHigh h && isLow l
      then (65536 + (h - 55296) * 1024 + (l - 56320)) :: codePoints r'
      else h :: codePoints r
    | [] => [h]
    end
  end.

Definition between (lo hi c : N) : bool := (lo <=? c) && (c <=? hi).

(** The class of the pattern: 1F300-1F9FF, 2600-26FF, 2700-27BF,
    FE00-FE0F, 1F900-1F9FF, 1F1E0-1F1FF. *)
Definition isEmoji (c : N) : bool :=
  between 127744 129535 c || between 9728 9983 c || between 9984 10175 c
  || between 65024 65039 c || between 129280 129535 c
  || between 127456 127487 c.

(** [text.replace(/[...]/gu, '').trim()] *)
Definition removeEmojis (text : str) : str :=
  trim (flat_map utf16_encode
          (filter (fun c => negb (isEmoji c)) (codePoints text))).

(** A string of 16-bit code units in which every surrogate has its
    partner. *)
Definition wellFormed (s : str) : Prop :=
  Forall (fun c => c < 65536) s
  /\ Forall (fun c => isSurrogate c = false) (codePoints s).

(** Text of the Basic Multilingual Plane without emoji. *)
Definition plainText (s : str) : Prop :=
  Forall (fun c => c < 65536 /\ isSurrogate c = false /\ isEmoji c = false)
         s.

End Emoji.

(* ===================================================================== *)
(** ** More sample servers *)
(* ===================================================================== *)

Module MoreSamples.
Import JS Task Samples.

(** The second status request fails. *)
Definition flaky : server nat :=
  {| statusReply := fun k =>
       match k with
       | O => inr (snapshot pending 0 "queued")
       | _ => inl (Error (lit "状态查询失败: 503"))
       end;
     resultsReply := inr 7%nat |}.



(** The status endpoint answers once and is then out of service. *)
Definition outage : Http.site nat :=
  {| Http.statusHttp := fun k =>
       match k with
       | O => Http.Answer true 200 (lit "OK")
                (inr (snapshot pending 0 "queued"))
       | _ => Http.Answer false 503 (lit "Service Unavailable")
                (inl (Error (lit "Unexpected token <")))
       end;
     Http.resultsHttp := Http.Answer true 200 (lit "OK") (inr 7%nat) |}.

(** Where either loop stands when it has met the outage. *)
Definition outageEnd : world :=
  {| requests := 2;
     log := [GetStatus (lit "t-1"); OnProgress (snapshot pending 0 "queued");
             Sleep 2000;
             GetStatus (lit "t-1")] |}.

(** A callback that files the snapshot away under a different step name
    and touches nothing else. *)
Definition relabel : Observer.callback :=
  fun _ st =>
    Returned {| task_id := task_id st; status := status st;
                current_step := lit "seen"; progress := progress st;
                message := message st; created_at := created_at st;
                updated_at := updated_at st;
                has_results := has_results st |}.

(** A callback that gives up the second time it is called. *)
Definition impatient : Observer.callback :=
  fun k st =>
    match k with
    | O => Returned st
    | _ => Thrown (Error (lit "render failed"))
    end.

Definition accepted : Upload.response :=
  {| Upload.task_id := lit "t-1"; Upload.status := lit "pending";
     Upload.message := lit "ok"; Upload.filename := lit "q3.pdf";
     Upload.size_bytes := 2048 |}.

(** An upload that is accepted, a job that completes on the third status
    request, and a report. *)
Definition smooth : Pipeline.backend nat :=
  {| Pipeline.uploadReply := inr accepted;
     Pipeline.tasks := stale;
     Pipeline.reportReply := inr (lit "<html></html>") |}.

Definition q3 : Pipeline.File :=
  {| Pipeline.name := lit "q3.pdf"; Pipeline.type := lit "application/pdf";
     Pipeline.size := 2048 |}.

Definition bare : Pipeline.options :=
  {| Pipeline.enableDescription := None; Pipeline.userQuery := Some [];
     Pipeline.onProgress := true |}.

(** The chat assistant's endpoints on a day when the upload is accepted,
    the job completes on the third status request, and the request for
    the results is answered 404 with a body that parses. *)
Definition unread : Transcript.site nat :=
  {| Transcript.uploadHttp := Http.Answer true 200 (lit "OK") (inr accepted);
     Transcript.jobs :=
       {| Http.statusHttp := fun k =>
            Http.Answer true 200 (lit "OK")
              (inr (nth k [snapshot pending 0 "queued";
                           snapshot ocr_processing 20 "ocr"]
                        (snapshot completed 100 "done")));
          Http.resultsHttp :=
            Http.Answer false 404 (lit "Not Found") (inr 0%nat) |};
     Transcript.parentThrows := None |}.

(** The upload is turned away. *)
Definition refused : Transcript.site nat :=
  {| Transcript.uploadHttp :=
       Http.Answer false 413 (lit "Payload Too Large")
         (inl (Error (lit "Unexpected token <")));
     Transcript.jobs := Transcript.jobs unread;
     Transcript.parentThrows := None |}.

(** A file that the panel turns away. *)
Definition setup : Pipeline.File :=
  {| Pipeline.name := lit "setup.exe";
     Pipeline.type := lit "application/x-msdownload";
     Pipeline.size := 2048 |}.

(** An upper-case extension and no MIME type. *)
Definition scan : Pipeline.File :=
  {| Pipeline.name := lit "SCAN.JPEG"; Pipeline.type := [];
     Pipeline.size := 2048 |}.

(** A result with nothing to extract. *)
Definition letter : Charts.OCRResult :=
  {| Charts.markdown := Texts.prose; Charts.page_count := 1;
     Charts.status := lit "success" |}.

(** A status message as the server words it, and one without emoji. *)
Definition decorated : str := lit " ✅ 图表已生成 📊 ".

Definition undecorated : str := lit " 图表已生成 ".

(** Two halves of an emoji around a whole one. *)
Definition broken : str := [55357; 55357; 56832; 56832].

End MoreSamples.

(* ===================================================================== *)
(** * Properties *)
(* ===================================================================== *)

Example lit_ascii : JS.lit "1: 42" = [49; 58; 32; 52; 50].
Proof. reflexivity. Qed.

Example lit_cjk : JS.lit "1月：万元" = [49; 26376; 65306; 19975; 20803].
Proof. reflexivity. Qed.

Example split_rows :
  JS.split 124 (JS.lit "| a |b|") = map JS.lit [""; " a "; "b"; ""]%string.
Proof. reflexivity. Qed.

Example split_empty : JS.split 10 [] = [[]].
Proof. reflexivity. Qed.

Example trim_both : JS.trim (JS.lit "  | x |	 ") = JS.lit "| x |".
Proof. reflexivity. Qed.

(* ===================================================================== *)
(** ** The pattern matcher *)
(* ===================================================================== *)

Module RegexFacts.
Import JS Regex Row.

(** A successful match ends in a successful call of the continuation; the
    captures it is called with keep what was captured before and hold
    every group the pattern is sure to set. *)
Lemma matcher_reaches_cont (r : re) : forall k s c x,
  matcher r k s c = Some x ->
  exists s' c',
    k s' c' = Some x
    /\ forall i, defined c i \/ sets r i = true -> defined c' i.
Proof.
  induction r as [|p|a IHa b IHb|a IHa b IHb|a IHa|a IHa|j a IHa];
    intros k s c x H; cbn [matcher] in H.
  - exists s, c. split; [exact H|]. intros i [Hd|Hs]; [exact Hd|discriminate].
  - destruct s as [|y s']; [discriminate|].
    destruct (p y); [|discriminate].
    exists s', c. split; [exact H|].
    intros i [Hd|Hs]; [exact Hd|discriminate].
  - apply IHa in H. destruct H as (s1 & c1 & H1 & M1).
    apply IHb in H1. destruct H1 as (s2 & c2 & H2 & M2).
    exists s2, c2. split; [exact H2|].
    intros i [Hd|Hs].
    + apply M2. left. apply M1. left. exact Hd.
    + cbn [sets] in Hs. apply orb_true_iff in Hs. destruct Hs as [Hs|Hs].
      * apply M2. left. apply M1. right. exact Hs.
      * apply M2. right. exact Hs.
  - unfold orElse in H. destruct (matcher a k s c) eqn:Ea.
    + injection H as <-. apply IHa in Ea.
      destruct Ea as (s1 & c1 & H1 & M1). exists s1, c1.
      split; [exact H1|]. intros i [Hd|Hs]; apply M1; [left; exact Hd|].
      cbn [sets] in Hs. apply andb_true_iff in Hs. right. tauto.
    + apply IHb in H. destruct H as (s1 & c1 & H1 & M1). exists s1, c1.
      split; [exact H1|]. intros i [Hd|Hs]; apply M1; [left; exact Hd|].
      cbn [sets] in Hs. apply andb_true_iff in Hs. right. tauto.
  - unfold orElse in H. destruct (matcher a (progress s k) s c) eqn:Ea.
    + injection H as <-. apply IHa in Ea.
      destruct Ea as (s1 & c1 & H1 & M1). unfold progress in H1.
      destruct (length s1 <? length s)%nat; [|discriminate].
      exists s1, c1. split; [exact H1|].
      intros i [Hd|Hs]; [apply M1; left; exact Hd|discriminate].
    + exists s, c. split; [exact H|].
      intros i [Hd|Hs]; [exact Hd|discriminate].
  - revert H. generalize (length s) as fuel. intro fuel. revert s c.
    induction fuel as [|f IHf]; intros s c H; cbn [loopStar] in H.
    + exists s, c. split; [exact H|].
      intros i [Hd|Hs]; [exact Hd|discriminate].
    + unfold orElse in H.
      destruct (matcher a (progress s (loopStar (matcher a) k f)) s c)
        eqn:Ea.
      * injection H as <-. apply IHa in Ea.
        destruct Ea as (s1 & c1 & H1 & M1). unfold progress in H1.
        destruct (length s1 <? length s)%nat; [|discriminate].
        apply IHf in H1. destruct H1 as (s2 & c2 & H2 & M2).
        exists s2, c2. split; [exact H2|].
        intros i [Hd|Hs]; [|discriminate].
        apply M2. left. apply M1. left. exact Hd.
      * exists s, c. split; [exact H|].
        intros i [Hd|Hs]; [exact Hd|discriminate].
  - apply IHa in H. destruct H as (s1 & c1 & H1 & M1).
    eexists s1, _. split; [exact H1|].
    intros i Hi. unfold defined, setCap.
    destruct (Nat.eqb i j) eqn:Eij; [discriminate|].
    apply M1. destruct Hi as [Hd|Hs]; [left; exact Hd|].
    cbn [sets] in Hs. rewrite Eij in Hs. right. exact Hs.
Qed.

Lemma exec_sets (r : re) (i : nat) : forall s m,
  sets r i = true -> exec r s = Some m -> defined m i.
Proof.
  intros s m Hs. induction s as [|y s IH]; cbn [exec]; intro H.
  - destruct (matchHere r []) eqn:E; [|discriminate].
    injection H as <-. unfold matchHere in E.
    apply matcher_reaches_cont in E. destruct E as (s1 & c1 & H1 & M1).
    injection H1 as <-. apply M1. right. cbn [sets]. rewrite Hs.
    apply orb_true_r.
  - destruct (matchHere r (y :: s)) eqn:E; [|exact (IH H)].
    injection H as <-. unfold matchHere in E.
    apply matcher_reaches_cont in E. destruct E as (s1 & c1 & H1 & M1).
    injection H1 as <-. apply M1. right. cbn [sets]. rewrite Hs.
    apply orb_true_r.
Qed.

End RegexFacts.

(* ===================================================================== *)
(** ** The extractor *)
(* ===================================================================== *)

Module ExtractFacts.
Import JS Num Regex Extract Row RegexFacts.

(** The counting loop over the fields is a left-to-right pass over them. *)
Lemma forFrom_cells {A : Type} (f : str -> list A)
  (body : nat -> list A -> res (list A)) (parts : list str) :
  (forall i cell acc, nth_error parts i = Some cell ->
                      body i acc = Ok (acc ++ f cell)) ->
  forall rest pre acc, parts = pre ++ rest ->
    forFrom body (length pre) (length rest) acc
    = Ok (acc ++ flat_map f rest).
Proof.
  intro Hbody. induction rest as [|x rest IH]; intros pre acc Hp;
    cbn [length forFrom flat_map].
  - rewrite app_nil_r. reflexivity.
  - rewrite (Hbody (length pre) x acc).
    + cbn [bind]. specialize (IH (pre ++ [x]) (acc ++ f x)).
      rewrite length_app in IH. cbn [length] in IH.
      rewrite Nat.add_1_r in IH. rewrite IH.
      * rewrite <- app_assoc. reflexivity.
      * rewrite <- app_assoc. exact Hp.
    + rewrite Hp, nth_error_app2 by lia.
      rewrite Nat.sub_diag. reflexivity.
Qed.

Lemma forParts_cells {A : Type} (f : str -> list A)
  (body : nat -> list A -> res (list A)) (p0 : str) (rest : list str) :
  (forall i cell acc, nth_error (p0 :: rest) i = Some cell ->
                      body i acc = Ok (acc ++ f cell)) ->
  forall acc, forParts (p0 :: rest) body acc = Ok (acc ++ flat_map f rest).
Proof.
  intros Hbody acc. unfold forParts. cbn [length].
  rewrite Nat.sub_succ, Nat.sub_0_r.
  exact (forFrom_cells f body (p0 :: rest) Hbody rest [p0] acc eq_refl).
Qed.

Lemma salesCell_cells (parts : list str) (month : str) :
  forall i cell acc, nth_error parts i = Some cell ->
    salesCell parts month i acc = Ok (acc ++ salesOf month cell).
Proof.
  intros i cell acc H. unfold salesCell, at_, salesOf, cellValue.
  rewrite H. cbn [bind].
  destruct (isNaN (parseFloat (removeAll notDigitOrDot cell)));
    cbn [negb]; [rewrite app_nil_r|]; reflexivity.
Qed.

Lemma growthCell_cells (parts : list str) (month : str) :
  forall i cell acc, nth_error parts i = Some cell ->
    growthCell parts month i acc = Ok (acc ++ growthOf month cell).
Proof.
  intros i cell acc H. unfold growthCell, at_, growthOf, cellValue.
  rewrite H. cbn [bind].
  destruct (isNaN (parseFloat (removeAll notDigitOrDot cell)));
    cbn [negb]; [rewrite app_nil_r|]; reflexivity.
Qed.

(** What the table branch does to a row of three or more fields. *)
Lemma tableRow_row (t : str) (v : locals) :
  includes [bar] t = true -> isSet (currentSection v) = true ->
  (3 <= length (splitRow t))%nat ->
  exists v',
    tableRow t v = Ok v'
    /\ currentSection v' = currentSection v
    /\ sales v' = sales v ++ addsSales (currentSection v) (splitRow t)
    /\ growth v' = growth v ++ addsGrowth (currentSection v) (splitRow t)
    /\ categories v'
       = categories v ++ addsCategories (currentSection v) (splitRow t).
Proof.
  intros Hbar Hset Hlen. unfold tableRow. rewrite Hbar, Hset. cbn [andb].
  destruct (splitRow t) as [|p0 [|p1 rest]] eqn:Ep;
    cbn [length] in Hlen; try lia.
  replace (3 <=? length (p0 :: p1 :: rest))%nat with true
    by (symmetry; apply Nat.leb_le; exact Hlen).
  destruct v as [sa gr ca sec]. cbn [currentSection] in *.
  destruct sec; cbn [isSet] in Hset; try discriminate;
    cbn [at_ nth_error bind addsSales addsGrowth addsCategories
         Extract.sales Extract.growth Extract.categories currentSection].
  - destruct (includes yue p0).
    + rewrite (forParts_cells (salesOf p0) _ p0 (p1 :: rest)
                 (salesCell_cells _ p0)).
      cbn [bind]. eexists. split; [reflexivity|].
      cbn. rewrite !app_nil_r. auto.
    + eexists. split; [reflexivity|]. cbn. rewrite !app_nil_r. auto.
  - destruct (includes yue p0).
    + rewrite (forParts_cells (growthOf p0) _ p0 (p1 :: rest)
                 (growthCell_cells _ p0)).
      cbn [bind]. eexists. split; [reflexivity|].
      cbn. rewrite !app_nil_r. auto.
    + eexists. split; [reflexivity|]. cbn. rewrite !app_nil_r. auto.
  - replace (2 <=? length (p0 :: p1 :: rest))%nat with true by reflexivity.
    unfold categoryOf, cellValue.
    destruct (isNaN (parseFloat (removeAll notDigitOrDot p1)));
      cbn [negb]; eexists; (split; [reflexivity|]);
      cbn; rewrite !app_nil_r; auto.
Qed.

(** The table branch never throws. *)
Lemma tableRow_returns (t : str) (v : locals) :
  exists v', tableRow t v = Ok v'.
Proof.
  destruct (includes [bar] t && isSet (currentSection v)) eqn:Hc.
  - apply andb_true_iff in Hc. destruct Hc as [Hbar Hset].
    destruct (Nat.le_gt_cases 3 (length (splitRow t))) as [Hlen|Hlen].
    + destruct (tableRow_row t v Hbar Hset Hlen) as (v' & H & _).
      exists v'. exact H.
    + exists v. unfold tableRow. rewrite Hbar, Hset. cbn [andb].
      replace (3 <=? length (splitRow t))%nat with false; [reflexivity|].
      symmetry. apply Nat.leb_gt. exact Hlen.
  - exists v. unfold tableRow. rewrite Hc. reflexivity.
Qed.

(** Groups 1 and 2 take part in every match of the pattern, so the
    labelled branch never throws either. *)
Lemma salesLine_returns (t : str) (v : locals) :
  exists v', salesLine t v = Ok v'.
Proof.
  unfold salesLine. destruct (exec salesPattern t) as [m|] eqn:E.
  - pose proof (exec_sets salesPattern 1 t m eq_refl E) as H1.
    pose proof (exec_sets salesPattern 2 t m eq_refl E) as H2.
    unfold defined in H1, H2. unfold group.
    destruct (m 1%nat) as [g1|]; [|contradiction].
    destruct (m 2%nat) as [g2|]; [|contradiction].
    cbn [bind].
    destruct (negb (isNaN (parseFloat (removeAll commaOrDot g2))));
      eexists; reflexivity.
  - exists v. reflexivity.
Qed.

Lemma eachLine_returns (v : locals) (line : str) :
  exists v', eachLine v line = Ok v'.
Proof.
  unfold eachLine.
  destruct (tableRow_returns (trim line)
              (withSection v (detectSection (trim line) (currentSection v))))
    as [v2 H2].
  rewrite H2. cbn [bind]. apply salesLine_returns.
Qed.

Lemma forEach_returns (lines : list str) : forall v,
  exists v', forEach lines v = Ok v'.
Proof.
  induction lines as [|line rest IH]; intro v; cbn [forEach].
  - exists v. reflexivity.
  - destruct (eachLine_returns v line) as [v1 H1]. rewrite H1.
    cbn [bind]. apply IH.
Qed.

Lemma parseOCRData_try_returns (markdown : str) :
  exists r, parseOCRData_try markdown = Ok r.
Proof.
  unfold parseOCRData_try.
  destruct (forEach_returns (split newline markdown) initial) as [v H].
  rewrite H. cbn [bind]. eexists. reflexivity.
Qed.

(** A line without keywords keeps the section; outside any section and
    without a labelled figure it changes nothing. *)
Lemma detectSection_noKeyword (t : str) (cur : Section_) :
  noKeyword t = true -> detectSection t cur = cur.
Proof.
  unfold noKeyword, detectSection. intro H.
  apply negb_true_iff in H.
  repeat (apply orb_false_iff in H; destruct H as [H ?]).
  repeat match goal with
         | E : includes _ t = false |- _ => rewrite E; clear E
         end.
  reflexivity.
Qed.

Lemma eachLine_unrecognised (v : locals) (line : str) :
  currentSection v = NoSection ->
  noKeyword (trim line) = true -> isLabelled (trim line) = false ->
  eachLine v line = Ok v.
Proof.
  intros Hsec Hk Hl. unfold eachLine.
  rewrite (detectSection_noKeyword _ _ Hk).
  unfold tableRow. cbn [withSection currentSection]. rewrite Hsec.
  cbn [isSet]. rewrite andb_false_r. cbn [bind].
  unfold salesLine. unfold isLabelled in Hl.
  destruct (exec salesPattern (trim line)); [discriminate|].
  destruct v; cbn in Hsec; subst. reflexivity.
Qed.

Lemma forEach_unrecognised (lines : list str) : forall v,
  currentSection v = NoSection ->
  forallb (fun line => noKeyword (trim line)
                       && negb (isLabelled (trim line))) lines = true ->
  forEach lines v = Ok v.
Proof.
  induction lines as [|line rest IH]; intros v Hsec Hall;
    cbn [forEach]; [reflexivity|].
  cbn [forallb] in Hall. apply andb_true_iff in Hall.
  destruct Hall as [Hline Hrest].
  apply andb_true_iff in Hline. destruct Hline as [Hk Hl].
  apply negb_true_iff in Hl.
  rewrite (eachLine_unrecognised v line Hsec Hk Hl). cbn [bind].
  apply IH; assumption.
Qed.

(** Splitting at a separator the first piece does not contain. *)
Lemma split_first (c : char) (h r : str) :
  ~ In c h -> split c (h ++ c :: r) = h :: split c r.
Proof.
  induction h as [|x h IH]; intro Hn; cbn [app split].
  - rewrite N.eqb_refl. reflexivity.
  - destruct (x =? c) eqn:E.
    + apply N.eqb_eq in E. exfalso. apply Hn. left. exact E.
    + rewrite IH; [reflexivity|]. intro Hin. apply Hn. right. exact Hin.
Qed.

End ExtractFacts.

(* ===================================================================== *)
(** ** Polling *)
(* ===================================================================== *)

Module PollFacts.
Import JS Task AdvancedApi Trace.

Lemma observed_app (l1 l2 : list event) :
  observed (l1 ++ l2) = observed l1 ++ observed l2.
Proof.
  induction l1 as [|e l1 IH]; simpl; [reflexivity|].
  destruct e; simpl; rewrite ?IH; reflexivity.
Qed.

Lemma polls_app (l1 l2 : list event) :
  (polls (l1 ++ l2) = polls l1 + polls l2)%nat.
Proof.
  induction l1 as [|e l1 IH]; simpl; [reflexivity|].
  destruct e; simpl; rewrite ?IH; reflexivity.
Qed.

Lemma successes_app {A : Type} (l1 l2 : list (exn + A)) :
  successes (l1 ++ l2) = successes l1 ++ successes l2.
Proof.
  induction l1 as [|[e|a] l1 IH]; simpl; rewrite ?IH; reflexivity.
Qed.

Lemma answers_S {R : Type} (srv : server R) (n : nat) :
  answers srv (S n) = answers srv n ++ [statusReply srv n].
Proof. unfold answers. rewrite seq_S, map_app. reflexivity. Qed.

Section Bounded.
Context {R : Type} (srv : server R).
Variables (taskId : str) (onProgress : bool) (pollInterval : Z).

Local Abbreviation run := (pollLoop srv taskId onProgress pollInterval).

(** Every turn of the loop issues one request, and nothing else does. *)
Lemma pollLoop_counts (n : nat) : forall w,
  (requests (snd (run n w)) + polls (log w)
   = polls (log (snd (run n w))) + requests w)%nat
  /\ (requests (snd (run n w)) <= requests w + n)%nat.
Proof.
  induction n as [|n IH]; intro w; simpl.
  - lia.
  - destruct (statusReply srv (requests w)) as [e|st] eqn:E; simpl.
    + rewrite polls_app; simpl. lia.
    + set (w1 := {| requests := S (requests w);
                    log := log w ++ [GetStatus taskId] |}).
      set (w2 := if onProgress then emit (OnProgress st) w1 else w1).
      assert (H2 : requests w2 = S (requests w)
                   /\ polls (log w2) = S (polls (log w))).
      { subst w2 w1. destruct onProgress; simpl;
          rewrite ?polls_app; simpl; rewrite ?polls_app; simpl; lia. }
      destruct H2 as [Hr Hp].
      destruct (status st); simpl;
        try (rewrite ?polls_app; simpl; lia);
        match goal with
        | |- context [run n ?w'] =>
          specialize (IH w'); simpl in IH; rewrite polls_app in IH;
          simpl in IH; lia
        end.
Qed.

Lemma quiet_step (from k : nat) :
  quiet srv from (S k) ->
  (exists st, statusReply srv from = inr st /\ nonterminal st)
  /\ quiet srv (S from) k.
Proof.
  intro H. split.
  - destruct (H 0%nat) as [st Hst]; [lia|].
    rewrite Nat.add_0_r in Hst. exists st. exact Hst.
  - intros i Hi. destruct (H (S i)) as [st Hst]; [lia|].
    exists st. rewrite Nat.add_succ_comm. exact Hst.
Qed.

Lemma pollLoop_quiet (k : nat) : forall n w,
  quiet srv (requests w) k ->
  run (k + n) w
  = run n {| requests := requests w + k;
             log := log w ++ quietLog srv taskId onProgress pollInterval (requests w) k |}.
Proof.
  induction k as [|k IH]; intros n w Hq; simpl.
  - rewrite Nat.add_0_r, app_nil_r. destruct w; reflexivity.
  - apply quiet_step in Hq. destruct Hq as [[st [E Hnt]] Hq].
    unfold getTaskStatus. rewrite E. simpl.
    unfold nonterminal in Hnt.
    assert (Hgo : forall w2,
      match status st with
      | completed => getProcessingResults srv taskId w2
      | error => (Thrown (Error (message st)), w2)
      | _ => run (k + n) (emit (Sleep pollInterval) w2)
      end = run (k + n) (emit (Sleep pollInterval) w2)).
    { intro w2. destruct (status st); try reflexivity; discriminate. }
    rewrite Hgo. rewrite IH.
    + f_equal. destruct onProgress; simpl;
        rewrite <- ?app_assoc; simpl;
        rewrite Nat.add_succ_r; reflexivity.
    + destruct onProgress; exact Hq.
Qed.

Lemma quietLog_polls (k : nat) : forall from,
  polls (quietLog srv taskId onProgress pollInterval from k) = k.
Proof.
  induction k as [|k IH]; intro from; simpl; [reflexivity|].
  rewrite polls_app. simpl. rewrite IH.
  destruct (statusReply srv from); [reflexivity|].
  destruct onProgress; reflexivity.
Qed.

Lemma quietLog_no_results (k : nat) : forall from t,
  ~ In (GetResults t) (quietLog srv taskId onProgress pollInterval from k).
Proof.
  induction k as [|k IH]; intros from t; simpl; [tauto|].
  intros [H|H]; [discriminate|].
  apply in_app_or in H. destruct H as [H|H].
  - destruct (statusReply srv from); [exact H|].
    destruct onProgress; simpl in H; [|exact H].
    destruct H as [H|H]; [discriminate|exact H].
  - simpl in H. destruct H as [H|H]; [discriminate|].
    exact (IH _ _ H).
Qed.

(** The observer is called once for every snapshot a request returns. *)
Lemma pollLoop_observed (n : nat) : forall w,
  onProgress = true ->
  observed (log w) = successes (answers srv (requests w)) ->
  let w' := snd (run n w) in
  observed (log w') = successes (answers srv (requests w')).
Proof.
  intros w Hon. subst onProgress. revert w.
  assert (Hstep : forall w st,
            observed (log w) = successes (answers srv (requests w)) ->
            statusReply srv (requests w) = inr st ->
            observed ((log w ++ [GetStatus taskId]) ++ [OnProgress st])
            = successes (answers srv (S (requests w)))).
  { intros w st Hinv E.
    rewrite !observed_app, answers_S, successes_app, E, Hinv.
    cbn [observed successes]. rewrite app_nil_r. reflexivity. }
  induction n as [|n IH]; intros w Hinv;
    cbn [pollLoop getTaskStatus snd]; [exact Hinv|].
  destruct (statusReply srv (requests w)) as [e|st] eqn:E;
    cbn [liftReply snd requests log].
  - rewrite observed_app, answers_S, successes_app, E, Hinv.
    cbn [observed successes]. rewrite !app_nil_r. reflexivity.
  - specialize (Hstep w st Hinv E).
    destruct (status st);
      cbn [getProcessingResults emit snd requests log];
      try (rewrite observed_app, Hstep; cbn [observed];
           rewrite app_nil_r; reflexivity);
      try exact Hstep;
      apply IH; cbn [emit requests log];
      rewrite observed_app, Hstep; cbn [observed];
      rewrite app_nil_r; reflexivity.
Qed.






End Bounded.

Section Unbounded.
Context {R : Type} (srv : server R).
Variable taskId : str.

Local Abbreviation chat := (ChatAssistant.pollTaskUntilComplete srv taskId).

Lemma chat_quiet (k : nat) : forall n w,
  quiet srv (requests w) k ->
  chat (k + n) w
  = chat n {| requests := requests w + k;
              log := log w ++ quietLog srv taskId true 2000 (requests w) k |}.
Proof.
  induction k as [|k IH]; intros n w Hq; simpl.
  - rewrite Nat.add_0_r, app_nil_r. destruct w; reflexivity.
  - apply quiet_step in Hq. destruct Hq as [[st [E Hnt]] Hq].
    unfold ChatAssistant.turn, getTaskStatus. rewrite E. simpl.
    unfold nonterminal in Hnt.
    destruct (status st) eqn:Est; try discriminate;
      rewrite IH by exact Hq; f_equal; simpl;
      rewrite <- ?app_assoc; simpl; rewrite Nat.add_succ_r; reflexivity.
Qed.

End Unbounded.

Lemma pollLoop_first_terminal {R : Type} (srv : server R) (taskId : str)
  (pollInterval : Z) (n k : nat) (st : TaskStatus) :
  (k < n)%nat -> quiet srv 0 k -> statusReply srv k = inr st ->
  let pre := quietLog srv taskId true pollInterval 0 k in
  (status st = completed ->
   pollLoop srv taskId true pollInterval n start
   = (liftReply (resultsReply srv),
      {| requests := S k;
         log := pre ++ lastTurn taskId st ++ [GetResults taskId] |}))
  /\ (status st = error ->
      pollLoop srv taskId true pollInterval n start
      = (Thrown (Error (message st)),
         {| requests := S k; log := pre ++ lastTurn taskId st |})).
Proof.
  intros Hk Hq E pre.
  replace n with (k + S (n - S k))%nat by lia.
  rewrite pollLoop_quiet by exact Hq.
  cbn [pollLoop getTaskStatus requests log start Nat.add app].
  rewrite E. cbn [liftReply emit requests log].
  split; intros ->; unfold getProcessingResults, emit, lastTurn;
    cbn [requests log]; rewrite <- ?app_assoc; reflexivity.
Qed.

Lemma chat_first_terminal {R : Type} (srv : server R) (taskId : str)
  (n k : nat) (st : TaskStatus) :
  (k < n)%nat -> quiet srv 0 k -> statusReply srv k = inr st ->
  let pre := quietLog srv taskId true 2000 0 k in
  (status st = completed ->
   ChatAssistant.pollTaskUntilComplete srv taskId n start
   = ChatAssistant.Done (Returned st)
       {| requests := S k; log := pre ++ lastTurn taskId st |})
  /\ (status st = error ->
      ChatAssistant.pollTaskUntilComplete srv taskId n start
      = ChatAssistant.Done (Thrown (Error (message st)))
          {| requests := S k; log := pre ++ lastTurn taskId st |}).
Proof.
  intros Hk Hq E pre.
  replace n with (k + S (n - S k))%nat by lia.
  rewrite chat_quiet by exact Hq.
  cbn [ChatAssistant.pollTaskUntilComplete ChatAssistant.turn getTaskStatus
       requests log start Nat.add app].
  rewrite E. cbn [liftReply].
  split; intros ->; unfold emit, lastTurn;
    cbn [requests log]; rewrite <- ?app_assoc; reflexivity.
Qed.

Lemma stuck_quiet (from k : nat) : quiet Samples.stuck from k.
Proof.
  intros i _. eexists. split; [reflexivity|].
  unfold nonterminal. simpl. destruct (from + i)%nat; reflexivity.
Qed.

End PollFacts.

(* ===================================================================== *)
(** ** Polling: what the specification says of it *)
(* ===================================================================== *)

Import JS Task Trace PollFacts.

(** C1, the bounded loop of advanced_api.ts: with the default budget a run
    issues at most 150 status requests whatever the server answers, and
    when the first 150 answers are all snapshots of a job still under way
    it ends by throwing the timeout error after exactly 150 requests. *)
Theorem bounded_poll_gives_up {R : Type} (srv : server R) (taskId : str)
  (onProgress : bool) (pollInterval : option Z) :
  let r := AdvancedApi.pollTaskUntilComplete srv taskId onProgress
             pollInterval None start in
  (polls (log (snd r)) <= 150)%nat
  /\ (quiet srv 0 150 ->
      fst r = Thrown AdvancedApi.TimeoutError
      /\ polls (log (snd r)) = 150%nat).
Proof.
  unfold AdvancedApi.pollTaskUntilComplete.
  set (ms := match pollInterval with Some ms => ms | None => 2000%Z end).
  cbv zeta. split.
  - pose proof (pollLoop_counts srv taskId onProgress ms 150 start) as H.
    cbn [start requests log polls] in H. lia.
  - intro Hq.
    pose proof (pollLoop_quiet srv taskId onProgress ms 150 0 start Hq) as H.
    rewrite Nat.add_0_r in H. rewrite H.
    cbn [AdvancedApi.pollLoop fst snd log start app].
    split; [reflexivity|]. apply quietLog_polls.
Qed.

Lemma bounded_poll_gives_up_witness :
  fst (AdvancedApi.pollTaskUntilComplete Samples.stuck tid true None None
         start) = Thrown AdvancedApi.TimeoutError.
Proof.
  apply (bounded_poll_gives_up Samples.stuck tid true None).
  apply stuck_quiet.
Defined.

(** C1, the chat assistant's copy of the loop: against a server whose job
    never leaves [analyzing] the loop is still running after any number
    [n] of turns, and has issued [n] status requests by then; no budget of
    150 stops it and no timeout error is ever thrown. *)
Theorem chat_poll_never_gives_up (n : nat) :
  exists w,
    ChatAssistant.pollTaskUntilComplete Samples.stuck tid n start
    = ChatAssistant.Running w
    /\ polls (log w) = n /\ requests w = n.
Proof.
  pose proof (chat_quiet Samples.stuck tid n 0 start (stuck_quiet _ _)) as H.
  rewrite Nat.add_0_r in H.
  eexists. split; [exact H|].
  cbn [log requests start app Nat.add]. split; [|reflexivity].
  apply quietLog_polls.
Qed.

(** C2, as stated, fails: the server reports progress 50 and then 30 under
    the same status; the panel shows 50, then 30, then 100. *)
Lemma progress_dip_is_shown :
  UploadPanel.shownProgress (log (snd (watch Samples.dipping)))
  = [50; 30; 100]%Z
  /\ Spec.nondecreasing
       (UploadPanel.shownProgress (log (snd (watch Samples.dipping))))
     = false.
Proof. split; vm_compute; reflexivity. Qed.

(** C2, amended: the state the panel shows after each callback is the
    snapshot just polled, unchanged; in particular the progress shown is
    the progress the server reported, poll by poll. *)
Theorem shown_progress_is_polled_progress {R : Type} (srv : server R)
  (taskId : str) (pollInterval : option Z) (maxAttempts : option nat) :
  let w := snd (AdvancedApi.pollTaskUntilComplete srv taskId true
                  pollInterval maxAttempts start) in
  UploadPanel.history (observed (log w)) None
  = map Some (successes (answers srv (requests w)))
  /\ UploadPanel.shownProgress (log w)
     = map progress (successes (answers srv (requests w))).
Proof.
  unfold AdvancedApi.pollTaskUntilComplete. cbv zeta.
  match goal with
  | |- context [AdvancedApi.pollLoop srv taskId true ?ms ?n start] =>
    pose proof (pollLoop_observed srv taskId true ms n start eq_refl eq_refl)
      as H; cbv zeta in H;
    set (w := snd (AdvancedApi.pollLoop srv taskId true ms n start)) in *
  end.
  assert (Hh : forall l t, UploadPanel.history l t = map Some l).
  { induction l as [|a l IH]; intro t; simpl; [reflexivity|].
    rewrite IH. reflexivity. }
  assert (Hf : forall l : list TaskStatus,
            flat_map (fun t : option TaskStatus =>
                        match t with Some st => [progress st] | None => [] end)
                     (map Some l) = map progress l).
  { induction l as [|a l IH]; simpl; [reflexivity|].
    rewrite IH. reflexivity. }
  unfold UploadPanel.shownProgress. rewrite Hh, H, Hf. split; reflexivity.
Qed.




(** C4, as stated, fails: the server answers with the same snapshot twice
    in a row; the observer is called for both, where suppression of
    consecutive duplicates would leave one. *)
Lemma duplicate_snapshot_is_reported_again :
  observed (log (snd (watch Samples.repeating)))
  = [Samples.snapshot analyzing 50 "chunk 5";
     Samples.snapshot analyzing 50 "chunk 5";
     Samples.snapshot completed 100 "done"]
  /\ Spec.dedupe (successes (answers Samples.repeating 3))
     = [Samples.snapshot analyzing 50 "chunk 5";
        Samples.snapshot completed 100 "done"].
Proof. split; vm_compute; reflexivity. Qed.

(** C4, amended: the observer is called exactly once for every snapshot a
    status request returns, in request order, duplicates included; one
    status request is made per turn. *)
Theorem observer_called_once_per_snapshot {R : Type} (srv : server R)
  (taskId : str) (pollInterval : option Z) (maxAttempts : option nat) :
  let w := snd (AdvancedApi.pollTaskUntilComplete srv taskId true
                  pollInterval maxAttempts start) in
  observed (log w) = successes (answers srv (requests w))
  /\ polls (log w) = requests w.
Proof.
  unfold AdvancedApi.pollTaskUntilComplete. cbv zeta. split.
  - apply (pollLoop_observed srv taskId true _ _ start eq_refl eq_refl).
  - match goal with
    | |- context [AdvancedApi.pollLoop srv taskId true ?ms ?n start] =>
      pose proof (pollLoop_counts srv taskId true ms n start) as H
    end.
    cbn [start requests log polls] in H. lia.
Qed.

(** C10: when the k-th answer is the first terminal one and lies within
    the budget, the observer receives that snapshot right after the
    request that fetched it.  For [completed] the results request comes
    after it (in the chat assistant's copy the loop returns the snapshot
    and the caller fetches the results afterwards); for [error] it is the
    last thing to happen before the error with the server's message is
    thrown.  No results request is made earlier. *)
Theorem terminal_snapshot_reaches_observer {R : Type} (srv : server R)
  (taskId : str) (pollInterval : Z) (n k : nat) (st : TaskStatus) :
  (k < n)%nat -> quiet srv 0 k -> statusReply srv k = inr st ->
  exists pre pre',
    (forall t, ~ In (GetResults t) pre)
    /\ (status st = completed ->
        AdvancedApi.pollTaskUntilComplete srv taskId true (Some pollInterval)
          (Some n) start
        = (liftReply (resultsReply srv),
           {| requests := S k;
              log := pre ++ [GetStatus taskId; OnProgress st;
                             GetResults taskId] |})
        /\ ChatAssistant.pollTaskUntilComplete srv taskId n start
           = ChatAssistant.Done (Returned st)
               {| requests := S k;
                  log := pre' ++ [GetStatus taskId; OnProgress st] |})
    /\ (status st = error ->
        AdvancedApi.pollTaskUntilComplete srv taskId true (Some pollInterval)
          (Some n) start
        = (Thrown (Error (message st)),
           {| requests := S k;
              log := pre ++ [GetStatus taskId; OnProgress st] |})
        /\ ChatAssistant.pollTaskUntilComplete srv taskId n start
           = ChatAssistant.Done (Thrown (Error (message st)))
               {| requests := S k;
                  log := pre' ++ [GetStatus taskId; OnProgress st] |}).
Proof.
  intros Hk Hq E.
  destruct (pollLoop_first_terminal srv taskId pollInterval n k st Hk Hq E)
    as [Ac Ae].
  destruct (chat_first_terminal srv taskId n k st Hk Hq E) as [Cc Ce].
  exists (quietLog srv taskId true pollInterval 0 k),
         (quietLog srv taskId true 2000 0 k).
  split; [intro t; apply quietLog_no_results|].
  split; intro Hs; split; auto.
Qed.

Lemma terminal_snapshot_reaches_observer_witness :
  exists pre pre',
    (forall t, ~ In (GetResults t) pre)
    /\ (status (Samples.snapshot error 20 "boom") = completed ->
        AdvancedApi.pollTaskUntilComplete Samples.failing tid true
          (Some 2000%Z) (Some 150%nat) start
        = (liftReply (resultsReply Samples.failing),
           {| requests := 2;
              log := pre ++ [GetStatus tid;
                             OnProgress (Samples.snapshot error 20 "boom");
                             GetResults tid] |})
        /\ ChatAssistant.pollTaskUntilComplete Samples.failing tid 150 start
           = ChatAssistant.Done (Returned (Samples.snapshot error 20 "boom"))
               {| requests := 2;
                  log := pre' ++ [GetStatus tid;
                                  OnProgress
                                    (Samples.snapshot error 20 "boom")] |})
    /\ (status (Samples.snapshot error 20 "boom") = error ->
        AdvancedApi.pollTaskUntilComplete Samples.failing tid true
          (Some 2000%Z) (Some 150%nat) start
        = (Thrown (Error (message (Samples.snapshot error 20 "boom"))),
           {| requests := 2;
              log := pre ++ [GetStatus tid;
                             OnProgress
                               (Samples.snapshot error 20 "boom")] |})
        /\ ChatAssistant.pollTaskUntilComplete Samples.failing tid 150 start
           = ChatAssistant.Done
               (Thrown (Error (message (Samples.snapshot error 20 "boom"))))
               {| requests := 2;
                  log := pre' ++ [GetStatus tid;
                                  OnProgress
                                    (Samples.snapshot error 20 "boom")] |}).
Proof.
  apply (terminal_snapshot_reaches_observer Samples.failing tid 2000 150 1
           (Samples.snapshot error 20 "boom")).
  - lia.
  - intros i Hi. exists (Samples.snapshot ocr_processing 20 "ocr").
    assert (i = 0)%nat as -> by lia. split; reflexivity.
  - reflexivity.
Defined.

(* ===================================================================== *)
(** ** Extraction: what the specification says of it *)
(* ===================================================================== *)

Import Num Regex Extract Row RegexFacts ExtractFacts Texts.

(** C5: the body of [parseOCRData] never throws, so the function returns
    what its [try] block computes; and when no line of the input has a
    section keyword, is a delimiter-separated row, or has the shape
    label-colon-number-unit, the three datasets returned are empty. *)
Theorem extraction_never_raises (markdown : str) :
  (exists r, parseOCRData_try markdown = Ok r /\ parseOCRData markdown = r)
  /\ (forallb plain (split newline markdown) = true ->
      parseOCRData markdown = Parsed.empty).
Proof.
  split.
  - destruct (parseOCRData_try_returns markdown) as [r H].
    exists r. split; [exact H|]. unfold parseOCRData. rewrite H. reflexivity.
  - intro Hall. unfold parseOCRData, parseOCRData_try.
    rewrite (forEach_unrecognised (split newline markdown) initial eq_refl).
    + reflexivity.
    + rewrite forallb_forall in Hall |- *. intros line Hin.
      specialize (Hall line Hin). unfold plain in Hall.
      apply andb_true_iff in Hall. destruct Hall as [Hall Hl].
      apply andb_true_iff in Hall. destruct Hall as [Hk _].
      rewrite Hk, Hl. reflexivity.
Qed.

Lemma extraction_never_raises_witness :
  parseOCRData prose = Parsed.empty.
Proof.
  apply (proj2 (extraction_never_raises prose)).
  vm_compute. reflexivity.
Defined.

(** C6, as stated, fails: under a sales heading a row of three fields
    whose first field has no 月 adds nothing, where positional reading
    gives two points; and a category row gives a point for its first
    numeric field only. *)
Lemma row_is_not_read_positionally :
  positional (splitRow (lit "| Q1 | 100 | 200 |"))
  = [(lit "Q1", ofZ 100); (lit "Q1", ofZ 200)]
  /\ parseOCRData quarterTable = Parsed.empty
  /\ positional (splitRow (lit "| A | 10 | 20 |"))
     = [(lit "A", ofZ 10); (lit "A", ofZ 20)]
  /\ parseOCRData categoryTable
     = {| Parsed.sales := []; Parsed.growth := [];
          Parsed.categories :=
            [{| Category.name := lit "A"; Category.value := ofZ 10 |}] |}.
Proof. repeat split; vm_compute; reflexivity. Qed.

(** C6, amended: for a line with a bar whose non-empty trimmed fields
    number three or more, the table branch returns normally and
    - in the sales section, when field 0 contains 月, appends to the sales
      data one point per remaining field that parses, in order, all keyed
      by field 0, and appends nothing when field 0 has no 月;
    - in the growth section does the same with the growth data;
    - in the category section appends to the category data the point of
      field 1 alone, if it parses;
    - outside a section changes nothing.
    The other datasets and the section stay as they were. *)
Theorem row_fields_by_section (t : str) (v : locals) (p0 : str)
  (rest : list str) :
  includes [bar] t = true ->
  splitRow t = p0 :: rest -> (2 <= length rest)%nat ->
  exists v',
    tableRow t v = Ok v'
    /\ currentSection v' = currentSection v
    /\ match currentSection v with
       | SalesSection =>
         sales v' = sales v
                    ++ (if includes yue p0 then flat_map (salesOf p0) rest
                        else [])
         /\ growth v' = growth v /\ categories v' = categories v
       | GrowthSection =>
         growth v' = growth v
                     ++ (if includes yue p0 then flat_map (growthOf p0) rest
                         else [])
         /\ sales v' = sales v /\ categories v' = categories v
       | CategoriesSection =>
         categories v' = categories v ++ categoryOf p0 (hd [] rest)
         /\ sales v' = sales v /\ growth v' = growth v
       | NoSection => v' = v
       end.
Proof.
  intros Hbar Hparts Hlen.
  destruct (isSet (currentSection v)) eqn:Hset.
  - destruct (tableRow_row t v Hbar Hset) as (v' & H & Hsec & Hs & Hg & Hc).
    { rewrite Hparts. cbn [length]. lia. }
    exists v'. split; [exact H|]. split; [exact Hsec|].
    rewrite Hparts in Hs, Hg, Hc.
    destruct rest as [|p1 rest]; [cbn [length] in Hlen; lia|].
    destruct (currentSection v); cbn [isSet] in Hset; try discriminate;
      cbn [addsSales addsGrowth addsCategories hd] in *;
      rewrite ?app_nil_r in *; auto.
  - exists v. unfold tableRow. rewrite Hbar, Hset. cbn [andb].
    split; [reflexivity|]. split; [reflexivity|].
    destruct (currentSection v); try discriminate. reflexivity.
Qed.

Lemma row_fields_by_section_witness :
  exists v',
    tableRow gappyRow (withSection initial SalesSection) = Ok v'
    /\ currentSection v' = SalesSection
    /\ sales v' = [] ++ flat_map (salesOf (lit "1月"))
                          (map lit ["4200"; "n/a"; "4300"]%string)
    /\ growth v' = [] /\ categories v' = [].
Proof.
  apply (row_fields_by_section gappyRow (withSection initial SalesSection)
           (lit "1月") (map lit ["4200"; "n/a"; "4300"]%string)).
  - reflexivity.
  - reflexivity.
  - cbn [map length]. lia.
Defined.

(** C7 on the code: thousands separators and units are stripped on both
    paths and a field without digits is dropped silently, but the path
    for label-colon-number-unit lines also strips the decimal point, so
    42.5 is read as 425 there, while the table path reads the same text
    as 42.5. *)
Theorem decimal_point_lost_after_colon :
  parseOCRData fractionLine = onlySales [sale "1月" 425]
  /\ parseOCRData fractionTable
     = onlySales [{| Sales.month := lit "1月";
                     Sales.value := Finite (85 # 2) |};
                  {| Sales.month := lit "1月";
                     Sales.value := Finite (2401 # 2) |}]
  /\ parseOCRData thousandsLine = onlySales [sale "1月" 4200]
  /\ parseOCRData noDigitsLine = Parsed.empty.
Proof. repeat split; vm_compute; reflexivity. Qed.

(** C8: the two lines "1月: 4200万元" and "2月: 5800万元" give the sales
    points (1月, 4200) and (2月, 5800), in that order, and nothing else. *)
Theorem two_labelled_lines :
  parseOCRData twoMonths = onlySales [sale "1月" 4200; sale "2月" 5800].
Proof. vm_compute. reflexivity. Qed.

(** C9: a heading line that contains 销售额 (and is not itself a table row
    or a labelled figure) followed by the row "| 1月 | 4200 | 4300 |"
    gives exactly two sales points for 1月, 4200 then 4300, both kept. *)
Theorem table_row_under_sales_heading (heading : str) :
  ~ In newline heading ->
  includes (lit "销售额") (trim heading) = true ->
  includes [bar] (trim heading) = false ->
  isLabelled (trim heading) = false ->
  parseOCRData (heading ++ newline :: januaryRow)
  = onlySales [sale "1月" 4200; sale "1月" 4300].
Proof.
  intros Hnl Hkw Hbar Hlab.
  assert (Hrow : eachLine (withSection initial SalesSection) januaryRow
                 = Ok {| sales := [sale "1月" 4200; sale "1月" 4300];
                         growth := []; categories := [];
                         currentSection := SalesSection |})
    by (vm_compute; reflexivity).
  assert (Hsplit : split newline januaryRow = [januaryRow])
    by (vm_compute; reflexivity).
  unfold parseOCRData, parseOCRData_try.
  rewrite (split_first newline heading januaryRow Hnl), Hsplit.
  cbn [forEach]. unfold eachLine at 1.
  unfold detectSection at 1. rewrite Hkw. cbn [orb].
  unfold tableRow at 1. rewrite Hbar. cbn [andb bind].
  unfold salesLine at 1. unfold isLabelled in Hlab.
  destruct (exec salesPattern (trim heading)); [discriminate|].
  cbn [bind]. rewrite Hrow. reflexivity.
Qed.

Lemma table_row_under_sales_heading_witness :
  parseOCRData salesTable = onlySales [sale "1月" 4200; sale "1月" 4300].
Proof.
  apply (table_row_under_sales_heading (lit "## 销售额"));
    vm_compute; try reflexivity.
  intuition discriminate.
Defined.

(* ===================================================================== *)
(** ** More on the extractor *)
(* ===================================================================== *)

Module ExtractMore.
Import JS Num Regex Extract Row RegexFacts ExtractFacts Lang.

Lemma split_nonempty (c : char) (s : str) : split c s <> [].
Proof.
  destruct s as [|x r]; cbn [split]; [discriminate|].
  destruct (x =? c); [discriminate|].
  destruct (split c r); discriminate.
Qed.

(** A separator between two texts splits into the pieces of both. *)
Lemma split_app (c : char) (a b : str) :
  split c (a ++ c :: b) = split c a ++ split c b.
Proof.
  induction a as [|x a IH]; cbn [app split].
  - rewrite N.eqb_refl. reflexivity.
  - destruct (x =? c); [rewrite IH; reflexivity|].
    rewrite IH. pose proof (split_nonempty c a) as Hne.
    destruct (split c a) as [|h t]; [contradiction|]. reflexivity.
Qed.

Lemma forEach_app (l1 l2 : list str) : forall v,
  forEach (l1 ++ l2) v = (v' <- forEach l1 v ;; forEach l2 v').
Proof.
  induction l1 as [|line l1 IH]; intro v; cbn [app forEach bind];
    [reflexivity|].
  destruct (eachLine v line) as [v1|]; cbn [bind]; [apply IH|reflexivity].
Qed.

Lemma extends_refl {A : Type} (l : list A) : extends l l.
Proof. exists []. rewrite app_nil_r. reflexivity. Qed.

Lemma extends_trans {A : Type} (a b c : list A) :
  extends a b -> extends b c -> extends a c.
Proof.
  intros [m1 ->] [m2 ->]. exists (m1 ++ m2). rewrite app_assoc. reflexivity.
Qed.

Lemma tableRow_grows (t : str) (v v' : locals) :
  tableRow t v = Ok v' -> grows v v'.
Proof.
  intro H.
  destruct (includes [bar] t && isSet (currentSection v)) eqn:Hc.
  - apply andb_true_iff in Hc. destruct Hc as [Hbar Hset].
    destruct (Nat.le_gt_cases 3 (length (splitRow t))) as [Hlen|Hlen].
    + destruct (tableRow_row t v Hbar Hset Hlen)
        as (v2 & H2 & _ & Hs & Hg & Hcat).
      rewrite H in H2. injection H2 as <-.
      repeat split; eexists; eassumption.
    + unfold tableRow in H. rewrite Hbar, Hset in H. cbn [andb] in H.
      replace (3 <=? length (splitRow t))%nat with false in H
        by (symmetry; apply Nat.leb_gt; exact Hlen).
      injection H as <-. repeat split; apply extends_refl.
  - unfold tableRow in H. rewrite Hc in H. injection H as <-.
    repeat split; apply extends_refl.
Qed.

Lemma salesLine_grows (t : str) (v v' : locals) :
  salesLine t v = Ok v' -> grows v v'.
Proof.
  unfold salesLine. destruct (exec salesPattern t) as [m|].
  - unfold group. destruct (m 1%nat); cbn [bind]; [|discriminate].
    destruct (m 2%nat); cbn [bind]; [|discriminate].
    destruct (negb (isNaN (parseFloat (removeAll commaOrDot s0))));
      intro H; injection H as <-; repeat split;
      cbn [withSales Extract.sales Extract.growth Extract.categories];
      try apply extends_refl.
    eexists. reflexivity.
  - intro H. injection H as <-. repeat split; apply extends_refl.
Qed.

Lemma eachLine_grows (v v' : locals) (line : str) :
  eachLine v line = Ok v' -> grows v v'.
Proof.
  unfold eachLine.
  destruct (tableRow (trim line)
              (withSection v (detectSection (trim line) (currentSection v))))
    as [v1|] eqn:E1; cbn [bind]; [|discriminate].
  intro E2. apply tableRow_grows in E1. apply salesLine_grows in E2.
  destruct E1 as (A1 & B1 & C1), E2 as (A2 & B2 & C2).
  cbn [withSection Extract.sales Extract.growth Extract.categories] in *.
  repeat split; eapply extends_trans; eassumption.
Qed.

Lemma forEach_grows (lines : list str) : forall v v',
  forEach lines v = Ok v' -> grows v v'.
Proof.
  induction lines as [|line rest IH]; intros v v'; cbn [forEach].
  - intro H. injection H as <-. repeat split; apply extends_refl.
  - destruct (eachLine v line) as [v1|] eqn:E1; cbn [bind]; [|discriminate].
    intro E2. apply eachLine_grows in E1. apply IH in E2.
    destruct E1 as (A1 & B1 & C1), E2 as (A2 & B2 & C2).
    repeat split; eapply extends_trans; eassumption.
Qed.

(** X1: Points are only ever appended: the datasets of a text followed by
    further lines begin with the datasets of the text alone, in the same
    order. *)
Theorem further_lines_only_append (markdown more : str) :
  let before := parseOCRData markdown in
  let after := parseOCRData (markdown ++ newline :: more) in
  extends (Parsed.sales before) (Parsed.sales after)
  /\ extends (Parsed.growth before) (Parsed.growth after)
  /\ extends (Parsed.categories before) (Parsed.categories after).
Proof.
  cbv zeta. unfold parseOCRData, parseOCRData_try.
  rewrite split_app, forEach_app.
  destruct (forEach_returns (split newline markdown) initial) as [v1 H1].
  rewrite H1. cbn [bind].
  destruct (forEach_returns (split newline more) v1) as [v2 H2].
  rewrite H2. cbn [bind Parsed.sales Parsed.growth Parsed.categories].
  exact (forEach_grows _ _ _ H2).
Qed.

(** Without a keyword line the section is never set, so table rows are
    not read at all. *)
Lemma eachLine_no_section (v v' : locals) (line : str) :
  currentSection v = NoSection -> noKeyword (trim line) = true ->
  eachLine v line = Ok v' ->
  currentSection v' = NoSection
  /\ growth v' = growth v /\ categories v' = categories v
  /\ (length (sales v')
      <= length (sales v) + (if isLabelled (trim line) then 1 else 0))%nat.
Proof.
  intros Hsec Hk. unfold eachLine.
  rewrite (detectSection_noKeyword _ _ Hk).
  unfold tableRow. cbn [withSection currentSection]. rewrite Hsec.
  cbn [isSet]. rewrite andb_false_r. cbn [bind].
  unfold salesLine, isLabelled.
  destruct (exec salesPattern (trim line)) as [m|].
  - unfold group. destruct (m 1%nat); cbn [bind]; [|discriminate].
    destruct (m 2%nat); cbn [bind]; [|discriminate].
    destruct (negb (isNaN (parseFloat (removeAll commaOrDot s0))));
      intro H; injection H as <-;
      cbn [withSales withSection Extract.sales Extract.growth
           Extract.categories currentSection];
      rewrite ?length_app; cbn [length]; repeat split;
      try reflexivity; lia.
  - intro H. injection H as <-. cbn. repeat split; try reflexivity; lia.
Qed.

Lemma forEach_no_section (lines : list str) : forall v v',
  currentSection v = NoSection ->
  forallb (fun line => noKeyword (trim line)) lines = true ->
  forEach lines v = Ok v' ->
  growth v' = growth v /\ categories v' = categories v
  /\ (length (sales v')
      <= length (sales v)
         + length (filter (fun line => isLabelled (trim line)) lines))%nat.
Proof.
  induction lines as [|line rest IH]; intros v v' Hsec Hall;
    cbn [forEach forallb filter] in *.
  - intro H. injection H as <-. cbn [length]. repeat split; lia.
  - apply andb_true_iff in Hall. destruct Hall as [Hk Hrest].
    destruct (eachLine v line) as [v1|] eqn:E1; cbn [bind]; [|discriminate].
    intro E2.
    destruct (eachLine_no_section v v1 line Hsec Hk E1)
      as (Hsec1 & Hg1 & Hc1 & Hs1).
    destruct (IH v1 v' Hsec1 Hrest E2) as (Hg2 & Hc2 & Hs2).
    rewrite Hg2, Hc2, Hg1, Hc1. repeat split.
    destruct (isLabelled (trim line)); cbn [length]; lia.
Qed.

(** X2: A text none of whose lines has a section keyword yields no growth
    and no category points, whatever tables it contains, and at most one
    sales point per line of the shape label-colon-number-unit. *)
Theorem tables_need_a_keyword (markdown : str) :
  forallb (fun line => noKeyword (trim line)) (split newline markdown)
  = true ->
  let r := parseOCRData markdown in
  Parsed.growth r = [] /\ Parsed.categories r = []
  /\ (length (Parsed.sales r)
      <= length (filter (fun line => isLabelled (trim line))
                        (split newline markdown)))%nat.
Proof.
  intro Hall. cbv zeta. unfold parseOCRData, parseOCRData_try.
  destruct (forEach_returns (split newline markdown) initial) as [v H].
  rewrite H. cbn [bind Parsed.sales Parsed.growth Parsed.categories].
  exact (forEach_no_section _ initial v eq_refl Hall H).
Qed.

End ExtractMore.

(* ===================================================================== *)
(** ** What the pattern captures *)
(* ===================================================================== *)

Module LangFacts.
Import JS Num Regex Extract Row RegexFacts ExtractFacts Lang.

Lemma fromGroup_incl (gs gs' : list (nat * re)) (i : nat) (v : option str) :
  incl gs gs' -> fromGroup gs i v -> fromGroup gs' i v.
Proof.
  intros Hincl (a & w & Hin & Hl & Hv). exists a, w. auto.
Qed.

(** A successful match consumed a word of the pattern before calling the
    continuation, and every capture it passes on is either the one it
    received or a word of the group of that number. *)
Lemma matcher_lang (r : re) : forall k s c x,
  matcher r k s c = Some x ->
  exists pre s' c',
    s = pre ++ s' /\ lang r pre /\ k s' c' = Some x
    /\ forall i, c' i = c i \/ fromGroup (groups r) i (c' i).
Proof.
  induction r as [|p|a IHa b IHb|a IHa b IHb|a IHa|a IHa|j a IHa];
    intros k s c x H; cbn [matcher] in H.
  - exists [], s, c. repeat split; auto. constructor.
  - destruct s as [|y s']; [discriminate|].
    destruct (p y) eqn:Ep; [|discriminate].
    exists [y], s', c. repeat split; auto. constructor. exact Ep.
  - apply IHa in H. destruct H as (p1 & s1 & c1 & -> & L1 & H1 & M1).
    apply IHb in H1. destruct H1 as (p2 & s2 & c2 & -> & L2 & H2 & M2).
    exists (p1 ++ p2), s2, c2. rewrite app_assoc.
    repeat split; auto; [constructor; assumption|].
    intro i. cbn [groups]. destruct (M2 i) as [E2|G2].
    + rewrite E2. destruct (M1 i) as [E1|G1]; [left; exact E1|].
      right. eapply fromGroup_incl; [|exact G1]. apply incl_appl, incl_refl.
    + right. eapply fromGroup_incl; [|exact G2]. apply incl_appr, incl_refl.
  - unfold orElse in H. destruct (matcher a k s c) eqn:Ea.
    + injection H as <-. apply IHa in Ea.
      destruct Ea as (p1 & s1 & c1 & -> & L1 & H1 & M1).
      exists p1, s1, c1. repeat split; auto; [apply lang_alt_l; exact L1|].
      intro i. cbn [groups]. destruct (M1 i) as [E1|G1]; [left; exact E1|].
      right. eapply fromGroup_incl; [|exact G1]. apply incl_appl, incl_refl.
    + apply IHb in H. destruct H as (p1 & s1 & c1 & -> & L1 & H1 & M1).
      exists p1, s1, c1. repeat split; auto; [apply lang_alt_r; exact L1|].
      intro i. cbn [groups]. destruct (M1 i) as [E1|G1]; [left; exact E1|].
      right. eapply fromGroup_incl; [|exact G1]. apply incl_appr, incl_refl.
  - unfold orElse in H. destruct (matcher a (progress s k) s c) eqn:Ea.
    + injection H as <-. apply IHa in Ea.
      destruct Ea as (p1 & s1 & c1 & Hs & L1 & H1 & M1).
      unfold progress in H1.
      destruct (length s1 <? length s)%nat; [|discriminate].
      exists p1, s1, c1. repeat split; auto. apply lang_opt_some. exact L1.
    + exists [], s, c. repeat split; auto. constructor.
  - revert H. generalize (length s) as fuel. intro fuel. revert s c.
    induction fuel as [|f IHf]; intros s c H; cbn [loopStar] in H.
    + exists [], s, c. repeat split; auto. constructor.
    + unfold orElse in H.
      destruct (matcher a (progress s (loopStar (matcher a) k f)) s c)
        eqn:Ea.
      * injection H as <-. apply IHa in Ea.
        destruct Ea as (p1 & s1 & c1 & -> & L1 & H1 & M1).
        unfold progress in H1.
        destruct (length s1 <? length (p1 ++ s1))%nat; [|discriminate].
        apply IHf in H1.
        destruct H1 as (p2 & s2 & c2 & -> & L2 & H2 & M2).
        exists (p1 ++ p2), s2, c2. rewrite app_assoc.
        repeat split; auto; [apply lang_star_cons; assumption|].
        intro i. cbn [groups] in *. destruct (M2 i) as [E2|G2].
        -- rewrite E2. exact (M1 i).
        -- right. exact G2.
      * exists [], s, c. repeat split; auto. constructor.
  - apply IHa in H. destruct H as (p1 & s1 & c1 & -> & L1 & H1 & M1).
    rewrite length_app, Nat.add_sub, firstn_app, Nat.sub_diag, firstn_all
      in H1. cbn [firstn] in H1. rewrite app_nil_r in H1.
    exists p1, s1, (setCap j p1 c1).
    repeat split; auto; [constructor; exact L1|].
    intro i. unfold setCap. cbn [groups].
    destruct (Nat.eqb i j) eqn:Eij.
    + apply Nat.eqb_eq in Eij. subst i. right.
      exists a, p1. repeat split; auto. left. reflexivity.
    + destruct (M1 i) as [E1|G1]; [left; exact E1|].
      right. eapply fromGroup_incl; [|exact G1].
      intros y Hy. right. exact Hy.
Qed.

Lemma exec_fromGroup (r : re) : forall s m i v,
  exec r s = Some m -> m i = Some v ->
  fromGroup (groups (Group 0 r)) i (Some v).
Proof.
  induction s as [|y s IH]; intros m i v; cbn [exec].
  - destruct (matchHere r []) eqn:E; [|discriminate].
    intro H. injection H as <-. intro Hv. unfold matchHere in E.
    apply matcher_lang in E.
    destruct E as (p1 & s1 & c1 & _ & _ & H1 & M1).
    injection H1 as <-. destruct (M1 i) as [E1|G1].
    + rewrite Hv in E1. discriminate.
    + rewrite Hv in G1. exact G1.
  - destruct (matchHere r (y :: s)) eqn:E; [|apply IH].
    intro H. injection H as <-. intro Hv. unfold matchHere in E.
    apply matcher_lang in E.
    destruct E as (p1 & s1 & c1 & _ & _ & H1 & M1).
    injection H1 as <-. destruct (M1 i) as [E1|G1].
    + rewrite Hv in E1. discriminate.
    + rewrite Hv in G1. exact G1.
Qed.

Lemma lang_class_inv (p : char -> bool) (u : str) :
  lang (Class p) u -> exists x, u = [x] /\ p x = true.
Proof. intro H. inversion H; subst. eexists. split; eauto. Qed.

Lemma lang_star_class (p : char -> bool) (u : str) :
  lang (Star (Class p)) u -> Forall (fun x => p x = true) u.
Proof.
  intro H. remember (Star (Class p)) as r eqn:Er.
  induction H; try discriminate.
  - constructor.
  - injection Er as ->. apply Forall_app. split; [|auto].
    apply lang_class_inv in H. destruct H as (x & -> & Hx).
    constructor; [exact Hx|constructor].
Qed.

Lemma lang_plus_class (p : char -> bool) (u : str) :
  lang (Plus (Class p)) u -> u <> [] /\ Forall (fun x => p x = true) u.
Proof.
  intro H. unfold Plus in H. inversion H; subst.
  apply lang_class_inv in H2. destruct H2 as (x & -> & Hx).
  apply lang_star_class in H4. split; [discriminate|].
  constructor; assumption.
Qed.

(** The captures of the sales pattern: group 1 is a run of digits with an
    optional 月 after it, group 2 a run of digits, commas and points. *)
Lemma salesPattern_groups (t : str) (m : caps) :
  exec salesPattern t = Some m ->
  exists ds tail g,
    m 1%nat = Some (ds ++ tail) /\ m 2%nat = Some g
    /\ ds <> [] /\ Forall (fun x => isDigit x = true) ds
    /\ (tail = [] \/ tail = yue)
    /\ g <> [] /\ Forall (fun x => digitCommaDot x = true) g.
Proof.
  intro E.
  pose proof (exec_sets salesPattern 1 t m eq_refl E) as D1.
  pose proof (exec_sets salesPattern 2 t m eq_refl E) as D2.
  unfold defined in D1, D2.
  destruct (m 1%nat) as [g1|] eqn:E1; [|contradiction].
  destruct (m 2%nat) as [g2|] eqn:E2; [|contradiction].
  destruct (exec_fromGroup _ _ _ _ _ E E1) as (a1 & w1 & In1 & L1 & Hw1).
  destruct (exec_fromGroup _ _ _ _ _ E E2) as (a2 & w2 & In2 & L2 & Hw2).
  injection Hw1 as ->. injection Hw2 as ->.
  cbn in In1, In2.
  repeat match goal with
         | H : _ \/ _ |- _ => destruct H as [H|H]
         | H : False |- _ => contradiction
         | H : (_, _) = (_, _) |- _ =>
           first [discriminate H | injection H as <-]
         end.
  inversion L1; subst.
  match goal with
  | H : lang (Plus _) _ |- _ => apply lang_plus_class in H;
                                destruct H as [Hne Hds]
  end.
  apply lang_plus_class in L2. destruct L2 as [Hg Hcls].
  eexists _, _, _. repeat split; try reflexivity; try eassumption.
  match goal with
  | H : lang (Opt _) ?w |- _ => inversion H; subst; [left; reflexivity|]
  end.
  match goal with
  | H : lang (Class _) _ |- _ =>
    apply lang_class_inv in H; destruct H as (x & -> & Hx)
  end.
  right. unfold oneOf in Hx. cbn in Hx. rewrite orb_false_r in Hx.
  apply N.eqb_eq in Hx. subst x. reflexivity.
Qed.

(** *** Captures and the text they come from *)

Lemma parses_lang (r : re) (u : str) (c c' : caps) :
  parses r u c c' -> lang r u.
Proof. induction 1; econstructor; eassumption. Qed.

(** A pattern without groups leaves the captures as they are. *)
Lemma parses_no_groups (r : re) (u : str) (c c' : caps) :
  groups r = [] -> parses r u c c' -> c' = c.
Proof.
  intros Hg H. induction H; cbn [groups] in Hg; try reflexivity;
    try discriminate; try (apply app_eq_nil in Hg; destruct Hg as [Ha Hb]);
    auto.
  - rewrite IHparses2, IHparses1; auto.
  - rewrite IHparses2, IHparses1; auto.
Qed.

(** A successful match consumed a word of the pattern before calling the
    continuation, and passes on the captures that word gives. *)
Lemma matcher_parses (r : re) : forall k s c x,
  matcher r k s c = Some x ->
  exists pre s' c',
    s = pre ++ s' /\ parses r pre c c' /\ k s' c' = Some x.
Proof.
  induction r as [|p|a IHa b IHb|a IHa b IHb|a IHa|a IHa|j a IHa];
    intros k s c x H; cbn [matcher] in H.
  - exists [], s, c. repeat split; auto. constructor.
  - destruct s as [|y s']; [discriminate|].
    destruct (p y) eqn:Ep; [|discriminate].
    exists [y], s', c. repeat split; auto. constructor. exact Ep.
  - apply IHa in H. destruct H as (p1 & s1 & c1 & -> & L1 & H1).
    apply IHb in H1. destruct H1 as (p2 & s2 & c2 & -> & L2 & H2).
    exists (p1 ++ p2), s2, c2. rewrite app_assoc.
    repeat split; auto. econstructor; eassumption.
  - unfold orElse in H. destruct (matcher a k s c) eqn:Ea.
    + injection H as <-. apply IHa in Ea.
      destruct Ea as (p1 & s1 & c1 & -> & L1 & H1).
      exists p1, s1, c1. repeat split; auto. apply parses_alt_l. exact L1.
    + apply IHb in H. destruct H as (p1 & s1 & c1 & -> & L1 & H1).
      exists p1, s1, c1. repeat split; auto. apply parses_alt_r. exact L1.
  - unfold orElse in H. destruct (matcher a (progress s k) s c) eqn:Ea.
    + injection H as <-. apply IHa in Ea.
      destruct Ea as (p1 & s1 & c1 & Hs & L1 & H1).
      unfold progress in H1.
      destruct (length s1 <? length s)%nat; [|discriminate].
      exists p1, s1, c1. repeat split; auto. apply parses_opt_some. exact L1.
    + exists [], s, c. repeat split; auto. constructor.
  - revert H. generalize (length s) as fuel. intro fuel. revert s c.
    induction fuel as [|f IHf]; intros s c H; cbn [loopStar] in H.
    + exists [], s, c. repeat split; auto. constructor.
    + unfold orElse in H.
      destruct (matcher a (progress s (loopStar (matcher a) k f)) s c)
        eqn:Ea.
      * injection H as <-. apply IHa in Ea.
        destruct Ea as (p1 & s1 & c1 & -> & L1 & H1).
        unfold progress in H1.
        destruct (length s1 <? length (p1 ++ s1))%nat; [|discriminate].
        apply IHf in H1.
        destruct H1 as (p2 & s2 & c2 & -> & L2 & H2).
        exists (p1 ++ p2), s2, c2. rewrite app_assoc.
        repeat split; auto. econstructor; eassumption.
      * exists [], s, c. repeat split; auto. constructor.
  - apply IHa in H. destruct H as (p1 & s1 & c1 & -> & L1 & H1).
    rewrite length_app, Nat.add_sub, firstn_app, Nat.sub_diag, firstn_all
      in H1. cbn [firstn] in H1. rewrite app_nil_r in H1.
    exists p1, s1, (setCap j p1 c1).
    repeat split; auto. constructor. exact L1.
Qed.

Lemma matchHere_parses (r : re) (s : str) (m : caps) :
  matchHere r s = Some m ->
  exists mid aft c',
    s = mid ++ aft /\ parses r mid noCaps c' /\ m = setCap 0 mid c'.
Proof.
  unfold matchHere. intro H. apply matcher_parses in H.
  destruct H as (p1 & s1 & c1 & -> & L1 & H1). injection H1 as <-.
  inversion L1; subst. eexists _, _, _. repeat split. eassumption.
Qed.

(** *** The matcher misses nothing *)

Lemma orElse_left (a b : option caps) : a <> None -> orElse a b <> None.
Proof. destruct a; [discriminate|contradiction]. Qed.

Lemma orElse_right (a b : option caps) : b <> None -> orElse a b <> None.
Proof. destruct a; [discriminate|auto]. Qed.

Lemma loopStar_complete (a : re) :
  (forall u, lang a u -> forall k s' c,
     (forall c', k s' c' <> None) -> matcher a k (u ++ s') c <> None) ->
  forall u, lang (Star a) u -> forall fuel k s' c,
    (length (u ++ s') <= fuel)%nat ->
    (forall c', k s' c' <> None) ->
    loopStar (matcher a) k fuel (u ++ s') c <> None.
Proof.
  intros IHa u H. remember (Star a) as r eqn:Er.
  induction H as [| | | | | | | |a0 u w Hu _ Hw IHw|]; try discriminate;
    intros fuel k s' c Hf Hk.
  - destruct fuel; cbn [loopStar app]; [apply Hk|].
    apply orElse_right, Hk.
  - injection Er as ->. specialize (IHw eq_refl).
    destruct u as [|x u]; [apply IHw; assumption|].
    destruct fuel as [|f]; [cbn [app length] in Hf; lia|].
    cbn [loopStar]. apply orElse_left. rewrite <- app_assoc.
    apply IHa; [exact Hu|]. intro c'. unfold progress.
    replace (length (w ++ s') <? length ((x :: u) ++ w ++ s'))%nat
      with true
      by (symmetry; apply Nat.ltb_lt; cbn [app length];
          rewrite !length_app; lia).
    apply IHw; [|exact Hk].
    rewrite <- app_assoc in Hf. cbn [app length] in Hf.
    rewrite length_app in Hf. lia.
Qed.

(** Where a word of the pattern stands at the head of the input and the
    continuation accepts what follows it, the matcher finds a match
    (which may be another one). *)
Lemma matcher_complete (r : re) : forall u,
  lang r u -> forall k s' c,
  (forall c', k s' c' <> None) -> matcher r k (u ++ s') c <> None.
Proof.
  induction r as [|p|a IHa b IHb|a IHa b IHb|a IHa|a IHa|j a IHa];
    intros u H k s' c Hk; cbn [matcher].
  - inversion H; subst. apply Hk.
  - inversion H; subst. cbn [app].
    match goal with Hp : p _ = true |- _ => rewrite Hp end. apply Hk.
  - inversion H; subst. rewrite <- app_assoc.
    apply IHa; [assumption|]. intro c'. apply IHb; assumption.
  - inversion H; subst.
    + apply orElse_left. apply IHa; assumption.
    + apply orElse_right. apply IHb; assumption.
  - inversion H; subst.
    + apply orElse_right. apply Hk.
    + destruct u as [|x u]; [apply orElse_right, Hk|].
      apply orElse_left. apply IHa; [assumption|].
      intro c'. unfold progress.
      replace (length s' <? length ((x :: u) ++ s'))%nat with true
        by (symmetry; apply Nat.ltb_lt; cbn [app length];
            rewrite length_app; lia).
      apply Hk.
  - apply loopStar_complete; auto.
  - apply IHa; [inversion H; subst; assumption|].
    intro c'. apply Hk.
Qed.

Lemma matchHere_complete (r : re) (mid aft : str) :
  lang r mid -> matchHere r (mid ++ aft) <> None.
Proof.
  intro H. unfold matchHere. apply matcher_complete; [constructor; exact H|].
  intro c'. discriminate.
Qed.

(** What [exec] returns comes from one place in the text, and no word of
    the pattern starts further to the left. *)
Lemma exec_parses (r : re) : forall s m,
  exec r s = Some m ->
  exists bef mid aft c',
    s = bef ++ mid ++ aft /\ parses r mid noCaps c' /\ m = setCap 0 mid c'
    /\ forall bef' mid' aft',
         s = bef' ++ mid' ++ aft' -> lang r mid' ->
         (length bef <= length bef')%nat.
Proof.
  induction s as [|y s IH]; intro m; cbn [exec].
  - destruct (matchHere r []) eqn:E; [|discriminate].
    intro H. injection H as <-. apply matchHere_parses in E.
    destruct E as (mid & aft & c' & Hs & L & Hm).
    exists [], mid, aft, c'. split; [exact Hs|]. split; [exact L|].
    split; [exact Hm|]. intros. cbn [length]. lia.
  - destruct (matchHere r (y :: s)) eqn:E.
    + intro H. injection H as <-. apply matchHere_parses in E.
      destruct E as (mid & aft & c' & Hs & L & Hm).
      exists [], mid, aft, c'. split; [exact Hs|]. split; [exact L|].
      split; [exact Hm|]. intros. cbn [length]. lia.
    + intro H. apply IH in H.
      destruct H as (bef & mid & aft & c' & -> & L & Hm & Hleft).
      exists (y :: bef), mid, aft, c'. split; [reflexivity|].
      split; [exact L|]. split; [exact Hm|].
      intros bef' mid' aft' Hs Hl. destruct bef' as [|y' bef'].
      * exfalso. cbn [app] in Hs.
        apply (matchHere_complete r mid' aft' Hl). rewrite <- Hs. exact E.
      * cbn [app] in Hs. injection Hs as _ Hs. cbn [length].
        apply le_n_S. apply (Hleft bef' mid' aft' Hs Hl).
Qed.

Lemma exec_here (r : re) (s : str) :
  matchHere r s <> None -> exec r s <> None.
Proof.
  intro H. destruct s; cbn [exec]; destruct (matchHere r _); congruence.
Qed.

Lemma exec_complete (r : re) (mid aft : str) :
  lang r mid -> forall bef, exec r (bef ++ mid ++ aft) <> None.
Proof.
  intro H.
  pose proof (matchHere_complete r mid aft H) as Hhere.
  induction bef as [|y bef IH]; cbn [app]; [apply exec_here, Hhere|].
  cbn [exec]. destruct (matchHere r (y :: bef ++ mid ++ aft));
    [discriminate|exact IH].
Qed.

(** *** The sales pattern and the figures of a line *)

Lemma lang_lit (l u : str) : lang (Lit l) u -> u = l.
Proof.
  revert u. induction l as [|x l IH]; intros u H; cbn [Lit] in H.
  - inversion H. reflexivity.
  - inversion H; subst.
    match goal with
    | Hc : lang (Class _) _ |- _ =>
      apply lang_class_inv in Hc; destruct Hc as (y & -> & Hy)
    end.
    unfold isChar in Hy. apply N.eqb_eq in Hy. subst y.
    cbn [app]. f_equal. apply IH. assumption.
Qed.

Lemma lit_lang (l : str) : lang (Lit l) l.
Proof.
  induction l as [|x l IH]; cbn [Lit]; [constructor|].
  change (x :: l) with ([x] ++ l). constructor; [|exact IH].
  constructor. unfold isChar. apply N.eqb_refl.
Qed.

Lemma class_star_lang (p : char -> bool) (u : str) :
  Forall (fun x => p x = true) u -> lang (Star (Class p)) u.
Proof.
  induction 1 as [|x u Hx _ IH]; [constructor|].
  change (x :: u) with ([x] ++ u). constructor; [|exact IH].
  constructor. exact Hx.
Qed.

Lemma class_plus_lang (p : char -> bool) (u : str) :
  u <> [] -> Forall (fun x => p x = true) u -> lang (Plus (Class p)) u.
Proof.
  intros Hne H. destruct H as [|x u Hx Hu]; [contradiction|].
  unfold Plus. change (x :: u) with ([x] ++ u).
  constructor; [constructor; exact Hx|apply class_star_lang; exact Hu].
Qed.

(** A line with a figure of the shape in it matches the pattern. *)
Lemma shaped_lang (f : figure) : shaped f -> lang salesPattern (matched f).
Proof.
  intros (Hne & Hds & Hsuf & Hsep & Hgap & Hg & Hcls & Hsp & Hunit).
  unfold salesPattern, matched.
  change (separator f :: gap f ++ amount f ++ gap' f ++ unitText f)
    with ([separator f] ++ gap f ++ amount f ++ gap' f ++ unitText f).
  rewrite (app_assoc (label f)).
  constructor.
  { constructor. constructor; [apply class_plus_lang; assumption|].
    destruct Hsuf as [-> | ->]; [constructor|].
    apply lang_opt_some. constructor. reflexivity. }
  constructor.
  { constructor. destruct Hsep as [-> | ->]; reflexivity. }
  constructor; [apply class_star_lang; exact Hgap|].
  constructor.
  { constructor. apply class_plus_lang; assumption. }
  constructor; [apply class_star_lang; exact Hsp|].
  constructor.
  destruct Hunit as [-> | [-> | ->]].
  - apply lang_alt_l. apply lit_lang.
  - apply lang_alt_r, lang_alt_l. apply lit_lang.
  - apply lang_alt_r, lang_alt_r. apply lit_lang.
Qed.

(** What the pattern consumed is a figure of the shape, and groups 1 and
    2 hold its label and its number. *)
Lemma salesPattern_figure (mid : str) (c' : caps) (bef aft : str) :
  parses salesPattern mid noCaps c' ->
  exists f,
    shaped f /\ before f = bef /\ after f = aft /\ matched f = mid
    /\ c' 1%nat = Some (label f ++ suffix f)
    /\ c' 2%nat = Some (amount f).
Proof.
  unfold salesPattern. intro H.
  repeat match goal with
         | H : parses (Seq _ _) _ _ _ |- _ => inversion H; subst; clear H
         | H : parses (Group _ _) _ _ _ |- _ => inversion H; subst; clear H
         end.
  repeat match goal with
         | H : parses ?r _ ?c ?c2 |- _ =>
           let E := fresh "E" in
           assert (E : c2 = c)
             by (apply (parses_no_groups r _ _ _ eq_refl H));
           subst c2; apply parses_lang in H
         end.
  repeat match goal with
         | H : lang (Plus (Class _)) _ |- _ =>
           apply lang_plus_class in H; destruct H
         | H : lang (Star (Class _)) _ |- _ => apply lang_star_class in H
         | H : lang (Class _) _ |- _ =>
           apply lang_class_inv in H; destruct H as (? & -> & ?)
         end.
  match goal with
  | Hd : Forall (fun x => isDigit x = true) ?ds,
    Ho : lang (Opt _) ?tail,
    Hc : oneOf [colon; wideColon] ?sep = true,
    Hg1 : Forall (fun x => isSpace x = true) ?sp1,
    Hn : Forall _ ?g,
    Hg2 : Forall (fun x => isSpace x = true) ?sp2,
    Hu : lang (Alt _ _) ?u |- _ =>
    exists {| before := bef; label := ds; suffix := tail; separator := sep;
              gap := sp1; amount := g; gap' := sp2; unitText := u;
              after := aft |}
  end.
  cbn [before after label suffix amount].
  split; [|split; [reflexivity|split; [reflexivity|split;
                                        [|split; reflexivity]]]].
  - unfold shaped.
    cbn [label suffix separator gap amount gap' unitText].
    split; [assumption|]. split; [assumption|]. split.
    { match goal with
      | Ho : lang (Opt _) _ |- _ => inversion Ho; subst; [left; reflexivity|]
      end.
      match goal with
      | Hc : lang (Class _) _ |- _ =>
        apply lang_class_inv in Hc; destruct Hc as (y & -> & Hy)
      end.
      right. unfold oneOf in Hy. cbn in Hy. rewrite orb_false_r in Hy.
      apply N.eqb_eq in Hy. subst y. reflexivity. }
    split.
    { match goal with
      | Hc : oneOf [colon; wideColon] _ = true |- _ =>
        unfold oneOf in Hc; cbn [existsb] in Hc;
        rewrite orb_false_r in Hc; apply orb_true_iff in Hc;
        destruct Hc as [Hc|Hc]; apply N.eqb_eq in Hc; auto
      end. }
    split; [assumption|]. split; [assumption|]. split; [assumption|].
    split; [assumption|].
    match goal with
    | Hu : lang (Alt _ _) ?w |- _ =>
      change (lang (Alt (Lit (lit "万元"))
                        (Alt (Lit (lit "元")) (Lit (lit "万")))) w) in Hu;
      inversion Hu as [| | |? ? ? Hl|? ? ? Hr| | | | |]; subst;
      [left; apply lang_lit; exact Hl|]
    end.
    inversion Hr as [| | |? ? ? Hl'|? ? ? Hr'| | | | |]; subst;
      [right; left|right; right]; apply lang_lit; assumption.
  - unfold matched.
    cbn [label suffix separator gap amount gap' unitText app].
    rewrite <- app_assoc. reflexivity.
Qed.

End LangFacts.

(* ===================================================================== *)
(** ** The numbers the extractor reads *)
(* ===================================================================== *)

Module NumFacts.
Import JS Num Regex Extract Row RegexFacts ExtractFacts Lang LangFacts
       ExtractMore.

Lemma digit_cases (c : char) :
  isDigit c = true ->
  c = 48 \/ c = 49 \/ c = 50 \/ c = 51 \/ c = 52 \/ c = 53 \/ c = 54
  \/ c = 55 \/ c = 56 \/ c = 57.
Proof.
  unfold isDigit. intro H. apply andb_true_iff in H. destruct H as [H1 H2].
  apply N.leb_le in H1. apply N.leb_le in H2. lia.
Qed.

(** A digit or a point is no white space, no sign and not the [I] of
    [Infinity]. *)
Lemma digitOrDot_head (c : char) :
  digitOrDot c = true ->
  isSpace c = false /\ (c =? 45) = false /\ (c =? 43) = false
  /\ (73 =? c) = false.
Proof.
  unfold digitOrDot. intro H. apply orb_true_iff in H. destruct H as [H|H].
  - apply digit_cases in H.
    repeat (destruct H as [H|H]; [subst c; repeat split; reflexivity|]).
    subst c; repeat split; reflexivity.
  - apply N.eqb_eq in H. subst c. repeat split; reflexivity.
Qed.

Lemma decimal_unsigned (ip fp : str) (e : Z) :
  unsigned (decimal false ip fp e).
Proof.
  unfold decimal, unsigned. rewrite Qred_correct.
  apply Qmult_le_0_compat.
  - change 0%Q with (inject_Z 0). rewrite <- Zle_Qle. apply N2Z.is_nonneg.
  - apply Qpower_0_le. discriminate.
Qed.

(** What is read from a string of digits and points is never negative. *)
Lemma parseFloat_digitOrDot (s : str) :
  Forall (fun c => digitOrDot c = true) s ->
  parseFloat s = NaN \/ unsigned (parseFloat s).
Proof.
  intro Hall. destruct s as [|c r]; [left; reflexivity|].
  inversion Hall as [|c' r' Hc Hr]; subst.
  destruct (digitOrDot_head c Hc) as (Hsp & Hm & Hp & HI).
  unfold parseFloat, trimStart. cbn [dropWhile]. rewrite Hsp.
  unfold parseSign. rewrite Hm, Hp.
  change (startsWith (lit "Infinity") (c :: r)) with
    ((73 =? c) && startsWith (lit "nfinity") r).
  rewrite HI. cbn [andb].
  destruct (dropWhile isDigit (c :: r)) as [|d r2].
  - destruct (takeWhile isDigit (c :: r)); [left; reflexivity|].
    right. apply decimal_unsigned.
  - destruct (d =? 46).
    + destruct (takeWhile isDigit (c :: r)), (takeWhile isDigit r2);
        try (left; reflexivity); right; apply decimal_unsigned.
    + destruct (takeWhile isDigit (c :: r)); [left; reflexivity|].
      right. apply decimal_unsigned.
Qed.

Lemma removeAll_notDigitOrDot (cell : str) :
  Forall (fun c => digitOrDot c = true) (removeAll notDigitOrDot cell).
Proof.
  unfold removeAll. apply Forall_forall. intros c Hin.
  apply filter_In in Hin. destruct Hin as [_ H].
  unfold notDigitOrDot in H. apply negb_true_iff, negb_false_iff in H.
  exact H.
Qed.

Lemma cellValue_unsigned (cell : str) :
  isNaN (cellValue cell) = false -> unsigned (cellValue cell).
Proof.
  unfold cellValue. intro Hn.
  destruct (parseFloat_digitOrDot _ (removeAll_notDigitOrDot cell))
    as [E|U]; [|exact U].
  rewrite E in Hn. discriminate.
Qed.

Lemma takeWhile_all (p : char -> bool) (s : str) :
  Forall (fun c => p c = true) s ->
  takeWhile p s = s /\ dropWhile p s = [].
Proof.
  induction 1 as [|c r Hc Hr [IH1 IH2]]; cbn [takeWhile dropWhile];
    [split; reflexivity|].
  rewrite Hc, IH1, IH2. split; reflexivity.
Qed.

(** A run of digits is read as the whole number it spells. *)
Lemma parseFloat_digits (ds : str) :
  ds <> [] -> Forall (fun c => isDigit c = true) ds ->
  parseFloat ds = ofZ (Z.of_N (digitsValue 0 ds)).
Proof.
  intros Hne Hall. destruct ds as [|c r]; [contradiction|].
  assert (Hc : digitOrDot c = true).
  { inversion Hall; subst. unfold digitOrDot.
    apply orb_true_iff. left. assumption. }
  destruct (digitOrDot_head c Hc) as (Hsp & Hm & Hp & HI).
  destruct (takeWhile_all isDigit (c :: r) Hall) as [Ht Hd].
  unfold parseFloat, trimStart. cbn [dropWhile]. rewrite Hsp.
  unfold parseSign. rewrite Hm, Hp.
  change (startsWith (lit "Infinity") (c :: r)) with
    ((73 =? c) && startsWith (lit "nfinity") r).
  rewrite HI. cbn [andb]. rewrite Ht, Hd.
  unfold decimal, ofZ. rewrite app_nil_r. f_equal.
  apply Qred_complete. cbn [length Z.of_nat Z.sub Z.opp Z.add Qpower].
  apply Qmult_1_r.
Qed.

Lemma removeAll_commaOrDot (g : str) :
  Forall (fun x => digitCommaDot x = true) g ->
  Forall (fun c => isDigit c = true) (removeAll commaOrDot g).
Proof.
  intro Hall. unfold removeAll. apply Forall_forall. intros c Hin.
  apply filter_In in Hin. destruct Hin as [Hin H].
  rewrite Forall_forall in Hall. specialize (Hall c Hin).
  unfold digitCommaDot in Hall. unfold commaOrDot in H.
  apply negb_true_iff in H. rewrite H, orb_false_r in Hall. exact Hall.
Qed.

(** What the labelled branch reads is a whole number or nothing. *)
Lemma labelled_value (g : str) :
  Forall (fun x => digitCommaDot x = true) g ->
  let v := parseFloat (removeAll commaOrDot g) in
  isNaN v = false ->
  v = ofZ (Z.of_N (digitsValue 0 (removeAll commaOrDot g))).
Proof.
  intros Hall v Hn. subst v.
  destruct (removeAll commaOrDot g) as [|c r] eqn:E;
    [cbn in Hn; discriminate|].
  apply parseFloat_digits; [discriminate|].
  rewrite <- E. apply removeAll_commaOrDot. exact Hall.
Qed.

Lemma ofZ_unsigned (n : N) : unsigned (ofZ (Z.of_N n)).
Proof.
  unfold ofZ, unsigned. rewrite Qred_correct.
  change 0%Q with (inject_Z 0). rewrite <- Zle_Qle. apply N2Z.is_nonneg.
Qed.

Lemma labelled_point_is_unsigned (t : str) (v v' : locals) :
  salesLine t v = Ok v' ->
  v' = v
  \/ exists p,
       sales v' = sales v ++ [p]
       /\ growth v' = growth v /\ categories v' = categories v
       /\ unsigned (Sales.value p).
Proof.
  unfold salesLine. destruct (exec salesPattern t) as [m|] eqn:E.
  - destruct (salesPattern_groups t m E)
      as (ds & tail & g & E1 & E2 & Hne & Hds & Htail & Hg & Hcls).
    unfold group. rewrite E1, E2. cbn [bind].
    destruct (isNaN (parseFloat (removeAll commaOrDot g))) eqn:En;
      cbn [negb]; intro H; injection H as <-; [left; reflexivity|].
    right. eexists. rewrite (labelled_value g Hcls En).
    cbn [withSales Extract.sales Extract.growth Extract.categories
         Sales.value].
    repeat split. apply ofZ_unsigned.
  - intro H. injection H as <-. left. reflexivity.
Qed.

Lemma digitsValue_bound (ds : str) : forall acc,
  Forall (fun c => isDigit c = true) ds ->
  digitsValue acc ds < (acc + 1) * 10 ^ N.of_nat (length ds).
Proof.
  induction ds as [|d r IH]; intros acc Hall; cbn [digitsValue length].
  - change (N.of_nat 0) with 0. rewrite N.pow_0_r. lia.
  - inversion Hall as [|d' r' Hd Hr]; subst.
    specialize (IH (acc * 10 + (d - 48)) Hr).
    unfold isDigit in Hd. apply andb_true_iff in Hd.
    destruct Hd as [H1 H2]. apply N.leb_le in H1. apply N.leb_le in H2.
    rewrite Nat2N.inj_succ, N.pow_succ_r by lia.
    eapply N.lt_le_trans; [exact IH|].
    replace ((acc + 1) * (10 * 10 ^ N.of_nat (length r)))
      with ((acc * 10 + 10) * 10 ^ N.of_nat (length r)) by lia.
    apply N.mul_le_mono_r. lia.
Qed.

(** Of a figure only the digits are read. *)
Lemma removeAll_commaOrDot_digits (g : str) :
  Forall (fun x => digitCommaDot x = true) g ->
  removeAll commaOrDot g = filter isDigit g.
Proof.
  unfold removeAll. induction 1 as [|x g Hx _ IH]; [reflexivity|].
  cbn [filter]. rewrite IH. unfold digitCommaDot in Hx.
  fold (commaOrDot x) in Hx.
  destruct (isDigit x) eqn:Ed.
  - replace (commaOrDot x) with false; [reflexivity|].
    symmetry. unfold commaOrDot, oneOf, comma, dot. cbn [existsb].
    unfold isDigit in Ed. apply andb_true_iff in Ed.
    destruct Ed as [H1 H2]. apply N.leb_le in H1. apply N.leb_le in H2.
    rewrite orb_false_r. apply orb_false_iff.
    split; apply N.eqb_neq; lia.
  - cbn [orb] in Hx. rewrite Hx. reflexivity.
Qed.

Lemma filter_isDigit_hasDigit (g : str) :
  filter isDigit g = [] <-> hasDigit g = false.
Proof.
  unfold hasDigit. induction g as [|x g IH]; cbn [filter existsb].
  - tauto.
  - destruct (isDigit x); cbn [orb]; [|exact IH].
    split; discriminate.
Qed.

Lemma filter_length_part {A : Type} (p : A -> bool) (l1 l2 l3 : list A) :
  (length (filter p l2) <= length (filter p (l1 ++ l2 ++ l3)))%nat.
Proof. rewrite !filter_app, !length_app. lia. Qed.

(** The digits of the figure of a line are digits of the line. *)
Lemma reading_bound (f : figure) :
  shaped f ->
  (length (filter isDigit (lineOf f)) <= 15)%nat ->
  reading f < 2 ^ 53.
Proof.
  intros (_ & _ & _ & _ & _ & _ & Hcls & _) Hlen.
  unfold reading. rewrite (removeAll_commaOrDot_digits _ Hcls).
  assert (Hd : Forall (fun c => isDigit c = true)
                      (filter isDigit (amount f))).
  { apply Forall_forall. intros c Hin. apply filter_In in Hin. tauto. }
  pose proof (digitsValue_bound _ 0 Hd) as Hb.
  assert (Hl : (length (filter isDigit (amount f)) <= 15)%nat).
  { eapply Nat.le_trans; [|exact Hlen].
    replace (lineOf f)
      with ((before f ++ label f ++ suffix f ++ separator f :: gap f)
            ++ amount f ++ (gap' f ++ unitText f ++ after f)).
    - apply filter_length_part.
    - unfold lineOf, matched.
      repeat (rewrite <- ?app_assoc; cbn [app]). reflexivity. }
  eapply N.lt_le_trans; [exact Hb|].
  rewrite N.add_0_l, N.mul_1_l.
  apply N.le_trans with (10 ^ 15); [|vm_compute; discriminate].
  apply N.pow_le_mono_r; lia.
Qed.

(** X3: Lines 113-121, for a line with at most fifteen digits (so that
    every whole number read from it is a number the run time holds
    exactly).  The branch returns normally.  Either it adds one sales
    point and nothing else, and then the line holds a figure of the shape
    label-colon-number-unit whose number has a digit, with no such
    figure starting further to the left: the key of the point is the
    label, with the 月 that may follow its digits, and the value is the
    whole number spelled by the digits of the number, every comma and
    every point in it dropped.  Or it adds nothing, and then the leftmost
    figure of that shape has a number without a digit, or the line holds
    no figure of that shape at all. *)
Theorem labelled_line_reads_whole_number (t : str) (v : locals) :
  (length (filter isDigit t) <= 15)%nat ->
  exists v',
    salesLine t v = Ok v'
    /\ ((exists f,
           shaped f /\ lineOf f = t
           /\ (forall g, shaped g -> lineOf g = t ->
                         (length (before f) <= length (before g))%nat)
           /\ hasDigit (amount f) = true
           /\ reading f < 2 ^ 53
           /\ v' = withSales v (sales v ++ [point f]))
        \/ (v' = v
            /\ ((exists f,
                   shaped f /\ lineOf f = t
                   /\ (forall g, shaped g -> lineOf g = t ->
                                 (length (before f) <= length (before g))%nat)
                   /\ hasDigit (amount f) = false)
                \/ forall f, shaped f -> lineOf f <> t))).
Proof.
  intro Hlen. unfold salesLine.
  destruct (exec salesPattern t) as [m|] eqn:E.
  - destruct (exec_parses _ _ _ E)
      as (bef & mid & aft & c' & Ht & L & Hm & Hleft).
    destruct (salesPattern_figure mid c' bef aft L)
      as (f & Hf & Hb & Ha & Hmid & E1 & E2).
    assert (Hline : lineOf f = t).
    { unfold lineOf. rewrite Hb, Ha, Hmid. symmetry. exact Ht. }
    assert (Hfirst : forall g, shaped g -> lineOf g = t ->
                       (length (before f) <= length (before g))%nat).
    { intros g Hg Hgt. rewrite Hb.
      apply (Hleft (before g) (matched g) (after g));
        [symmetry; exact Hgt|apply shaped_lang; exact Hg]. }
    assert (Hcls : Forall (fun x => digitCommaDot x = true) (amount f))
      by (destruct Hf as (_ & _ & _ & _ & _ & _ & H & _); exact H).
    unfold group. subst m. unfold setCap at 1 2. cbn [Nat.eqb].
    rewrite E1, E2. cbn [bind].
    destruct (hasDigit (amount f)) eqn:Hd.
    + assert (Hne : removeAll commaOrDot (amount f) <> []).
      { rewrite (removeAll_commaOrDot_digits _ Hcls). intro H0.
        apply filter_isDigit_hasDigit in H0. congruence. }
      rewrite (parseFloat_digits _ Hne (removeAll_commaOrDot _ Hcls)).
      cbn [isNaN ofZ negb]. eexists. split; [reflexivity|].
      left. exists f. split; [exact Hf|]. split; [exact Hline|].
      split; [exact Hfirst|].
      split; [exact Hd|]. split; [|reflexivity].
      apply reading_bound; [exact Hf|]. rewrite Hline. exact Hlen.
    + assert (He : removeAll commaOrDot (amount f) = []).
      { rewrite (removeAll_commaOrDot_digits _ Hcls).
        apply filter_isDigit_hasDigit. exact Hd. }
      rewrite He. cbn [parseFloat isNaN negb].
      exists v. split; [reflexivity|]. right. split; [reflexivity|].
      left. exists f. auto.
  - exists v. split; [reflexivity|]. right. split; [reflexivity|].
    right. intros f Hf Hline.
    apply (exec_complete salesPattern (matched f) (after f)
             (shaped_lang f Hf) (before f)).
    fold (lineOf f). rewrite Hline. exact E.
Qed.

Lemma salesOf_unsigned (month : str) (rest : list str) :
  Forall salesUnsigned (flat_map (salesOf month) rest).
Proof.
  induction rest as [|cell rest IH]; cbn [flat_map]; [constructor|].
  apply Forall_app. split; [|exact IH]. unfold salesOf.
  destruct (isNaN (cellValue cell)) eqn:En; cbn [negb]; [constructor|].
  constructor; [|constructor]. apply cellValue_unsigned. exact En.
Qed.

Lemma growthOf_unsigned (month : str) (rest : list str) :
  Forall growthUnsigned (flat_map (growthOf month) rest).
Proof.
  induction rest as [|cell rest IH]; cbn [flat_map]; [constructor|].
  apply Forall_app. split; [|exact IH]. unfold growthOf.
  destruct (isNaN (cellValue cell)) eqn:En; cbn [negb]; [constructor|].
  constructor; [|constructor]. apply cellValue_unsigned. exact En.
Qed.

Lemma categoryOf_unsigned (name cell : str) :
  Forall categoryUnsigned (categoryOf name cell).
Proof.
  unfold categoryOf.
  destruct (isNaN (cellValue cell)) eqn:En; cbn [negb]; [constructor|].
  constructor; [|constructor]. apply cellValue_unsigned. exact En.
Qed.

Lemma tableRow_unsigned (t : str) (v v' : locals) :
  tableRow t v = Ok v' -> allUnsigned v -> allUnsigned v'.
Proof.
  intros H (Hs & Hg & Hc).
  destruct (includes [bar] t && isSet (currentSection v)) eqn:Hcond.
  - apply andb_true_iff in Hcond. destruct Hcond as [Hbar Hset].
    destruct (Nat.le_gt_cases 3 (length (splitRow t))) as [Hlen|Hlen].
    + destruct (tableRow_row t v Hbar Hset Hlen)
        as (v2 & H2 & _ & Es & Eg & Ec).
      rewrite H in H2. injection H2 as <-.
      unfold allUnsigned. rewrite Es, Eg, Ec.
      repeat split; apply Forall_app; split; try assumption.
      * unfold addsSales. destruct (currentSection v); try constructor.
        destruct (splitRow t) as [|p0 rest]; [constructor|].
        destruct (includes yue p0); [apply salesOf_unsigned|constructor].
      * unfold addsGrowth. destruct (currentSection v); try constructor.
        destruct (splitRow t) as [|p0 rest]; [constructor|].
        destruct (includes yue p0); [apply growthOf_unsigned|constructor].
      * unfold addsCategories. destruct (currentSection v); try constructor.
        destruct (splitRow t) as [|p0 [|p1 rest]]; try constructor.
        apply categoryOf_unsigned.
    + unfold tableRow in H. rewrite Hbar, Hset in H. cbn [andb] in H.
      replace (3 <=? length (splitRow t))%nat with false in H
        by (symmetry; apply Nat.leb_gt; exact Hlen).
      injection H as <-. repeat split; assumption.
  - unfold tableRow in H. rewrite Hcond in H. injection H as <-.
    repeat split; assumption.
Qed.

Lemma salesLine_unsigned (t : str) (v v' : locals) :
  salesLine t v = Ok v' -> allUnsigned v -> allUnsigned v'.
Proof.
  intros H (Hs & Hg & Hc).
  destruct (labelled_point_is_unsigned t v v' H)
    as [->|(p & Es & Eg & Ec & Hp)]; [repeat split; assumption|].
  unfold allUnsigned. rewrite Es, Eg, Ec. repeat split; try assumption.
  apply Forall_app. split; [assumption|]. constructor; [exact Hp|constructor].
Qed.

Lemma forEach_unsigned (lines : list str) : forall v v',
  forEach lines v = Ok v' -> allUnsigned v -> allUnsigned v'.
Proof.
  induction lines as [|line rest IH]; intros v v'; cbn [forEach].
  - intro H. injection H as <-. auto.
  - unfold eachLine.
    destruct (tableRow (trim line)
                (withSection v
                   (detectSection (trim line) (currentSection v))))
      as [v1|] eqn:E1; cbn [bind]; [|discriminate].
    destruct (salesLine (trim line) v1) as [v2|] eqn:E2; cbn [bind];
      [|discriminate].
    intros E3 Hv. apply (IH v2 v' E3).
    apply (salesLine_unsigned _ _ _ E2).
    apply (tableRow_unsigned _ _ _ E1).
    destruct Hv as (Hs & Hg & Hc). repeat split; assumption.
Qed.

(** X4: No value that [parseOCRData] returns is [NaN] and none is negative:
    a field or figure that does not parse is left out, and a minus sign
    never reaches the number parser, so "-5" in a table is read as 5. *)
Theorem extracted_values_are_unsigned (markdown : str) :
  let r := parseOCRData markdown in
  Forall salesUnsigned (Parsed.sales r)
  /\ Forall growthUnsigned (Parsed.growth r)
  /\ Forall categoryUnsigned (Parsed.categories r).
Proof.
  cbv zeta. unfold parseOCRData, parseOCRData_try.
  destruct (forEach_returns (split newline markdown) initial) as [v H].
  rewrite H. cbn [bind Parsed.sales Parsed.growth Parsed.categories].
  apply (forEach_unsigned _ _ _ H). repeat split; constructor.
Qed.

End NumFacts.

(* ===================================================================== *)
(** ** The charts *)
(* ===================================================================== *)

Module ChartFacts.
Import JS Num Regex Extract Row RegexFacts ExtractFacts Lang Charts.

Lemma orMock_nonempty {A : Type} (xs fallback : list A) :
  fallback <> [] -> orMock xs fallback <> [].
Proof.
  intro H. unfold orMock. destruct xs; cbn; [exact H|discriminate].
Qed.

Lemma onOCRChange_nothingEmpty (o : option OCRResult) (u : bool) (s : view) :
  nothingEmpty s -> nothingEmpty (onOCRChange o u s).
Proof.
  intro H. unfold onOCRChange. destruct o as [r|]; [|exact H].
  destruct (truthy (markdown r) && u); [|exact H].
  repeat split; cbn [salesData growthData categoryData];
    apply orMock_nonempty; discriminate.
Qed.

(** X5: Whatever results arrive and however often the switch is flipped, no
    chart is ever left without data: a dataset that comes out of the
    extractor empty is replaced by the placeholder data. *)
Theorem charts_never_empty (changes : list (option OCRResult * bool)) :
  nothingEmpty (afterChanges changes).
Proof.
  unfold afterChanges.
  assert (H0 : nothingEmpty initialView) by (repeat split; discriminate).
  revert H0. generalize initialView as s.
  induction changes as [|ch rest IH]; intros s Hs; cbn [fold_left];
    [exact Hs|].
  apply IH. apply onOCRChange_nothingEmpty. exact Hs.
Qed.

(** X6: A result whose text has nothing the extractor recognises puts the
    placeholder data on all three charts, whatever was shown before. *)
Theorem unrecognised_text_shows_placeholders (r : OCRResult) (s : view) :
  markdown r <> [] ->
  forallb plain (split newline (markdown r)) = true ->
  let s' := onOCRChange (Some r) true s in
  salesData s' = mockSalesData /\ growthData s' = mockGrowthData
  /\ categoryData s' = mockCategoryData.
Proof.
  intros Hne Hall. cbv zeta. unfold onOCRChange.
  destruct (markdown r) as [|c m] eqn:Em; [contradiction|].
  cbn [truthy andb]. unfold parseOCRData, parseOCRData_try.
  rewrite (forEach_unrecognised (split newline (c :: m)) initial eq_refl).
  - repeat split.
  - rewrite forallb_forall in Hall |- *. intros line Hin.
    specialize (Hall line Hin). unfold plain in Hall.
    apply andb_true_iff in Hall. destruct Hall as [Hall Hl].
    apply andb_true_iff in Hall. destruct Hall as [Hk _].
    rewrite Hk, Hl. reflexivity.
Qed.

End ChartFacts.

(* ===================================================================== *)
(** ** More on polling *)
(* ===================================================================== *)

Module PollMore.
Import JS Task AdvancedApi Trace TraceMore PollFacts.

Lemma slept_app (l1 l2 : list event) :
  slept (l1 ++ l2) = (slept l1 + slept l2)%Z.
Proof.
  induction l1 as [|e l1 IH]; cbn [app slept]; [reflexivity|].
  destruct e; rewrite ?IH; lia.
Qed.

Lemma unobserved_app (l1 l2 : list event) :
  unobserved (l1 ++ l2) = unobserved l1 ++ unobserved l2.
Proof.
  induction l1 as [|e l1 IH]; cbn [app unobserved]; [reflexivity|].
  destruct e; rewrite ?IH; reflexivity.
Qed.

Section Runs.
Context {R : Type} (srv : server R).
Variables (taskId : str) (pollInterval : Z).

(** A failed request ends the run then and there. *)
Lemma pollLoop_failure (onProgress : bool) (n k : nat) (e : exn) :
  (k < n)%nat -> failsAt srv k e ->
  pollLoop srv taskId onProgress pollInterval n start
  = (Thrown e,
     {| requests := S k;
        log := quietLog srv taskId onProgress pollInterval 0 k
               ++ [GetStatus taskId] |}).
Proof.
  intros Hk [Hq E].
  replace n with (k + S (n - S k))%nat by lia.
  rewrite pollLoop_quiet by exact Hq.
  cbn [pollLoop getTaskStatus requests log start Nat.add app].
  rewrite E. reflexivity.
Qed.

Lemma chat_failure (n k : nat) (e : exn) :
  (k < n)%nat -> failsAt srv k e ->
  ChatAssistant.pollTaskUntilComplete srv taskId n start
  = ChatAssistant.Done (Thrown e)
      {| requests := S k;
         log := quietLog srv taskId true 2000 0 k ++ [GetStatus taskId] |}.
Proof.
  intros Hk [Hq E].
  replace n with (k + S (n - S k))%nat by lia.
  rewrite chat_quiet by exact Hq.
  cbn [ChatAssistant.pollTaskUntilComplete ChatAssistant.turn getTaskStatus
       requests log start Nat.add app].
  rewrite E. reflexivity.
Qed.

End Runs.

Lemma quietLog_observed {R : Type} (srv : server R) (taskId : str)
  (ms : Z) (k : nat) : forall from,
  quiet srv from k ->
  observed (quietLog srv taskId true ms from k)
  = successes (map (statusReply srv) (seq from k)).
Proof.
  induction k as [|k IH]; intros from Hq;
    cbn [quietLog observed seq map successes]; [reflexivity|].
  apply quiet_step in Hq. destruct Hq as [(st & E & _) Hq].
  rewrite E. cbn [app observed]. rewrite (IH _ Hq). reflexivity.
Qed.

(** With a callback that only looks, or with none, this is the loop of
    [AdvancedApi]. *)
Lemma looking_is_true {R : Type} (srv : server R) (taskId : str) (ms : Z)
  (n : nat) : forall w,
  Observer.pollLoop srv taskId (Some Observer.looking) ms n w
  = pollLoop srv taskId true ms n w.
Proof.
  induction n as [|n IH]; intro w; cbn [Observer.pollLoop pollLoop];
    [reflexivity|].
  destruct (getTaskStatus srv taskId w) as [[st|e] w1]; [|reflexivity].
  unfold Observer.looking at 1. destruct (status st); try apply IH;
    reflexivity.
Qed.

Lemma none_is_false {R : Type} (srv : server R) (taskId : str) (ms : Z)
  (n : nat) : forall w,
  Observer.pollLoop srv taskId None ms n w
  = pollLoop srv taskId false ms n w.
Proof.
  induction n as [|n IH]; intro w; cbn [Observer.pollLoop pollLoop];
    [reflexivity|].
  destruct (getTaskStatus srv taskId w) as [[st|e] w1]; [|reflexivity].
  destruct (status st); try apply IH; reflexivity.
Qed.

Lemma harmless_free {R : Type} (srv : server R) (taskId : str) (ms : Z)
  (f : Observer.callback) (Hf : Observer.harmless f) (n : nat) :
  forall w1 w2,
  requests w1 = requests w2 ->
  unobserved (log w1) = log w2 ->
  let a := Observer.pollLoop srv taskId (Some f) ms n w1 in
  let b := Observer.pollLoop srv taskId None ms n w2 in
  fst a = fst b /\ requests (snd a) = requests (snd b)
  /\ unobserved (log (snd a)) = log (snd b).
Proof.
  induction n as [|n IH]; intros w1 w2 Hr Hl; cbv zeta;
    cbn [Observer.pollLoop getTaskStatus]; [cbn; auto|].
  rewrite <- Hr.
  destruct (statusReply srv (requests w1)) as [e|st]; cbn [liftReply].
  - cbn [fst snd requests log]. rewrite unobserved_app, Hl.
    repeat split.
  - destruct (Hf (requests w1) st) as (st' & -> & Hs & Hm).
    rewrite Hs, Hm.
    destruct (status st);
      try (apply IH; unfold emit; cbn [requests log];
           rewrite ?unobserved_app, ?Hl; cbn [unobserved];
           rewrite ?app_nil_r; reflexivity);
      unfold getProcessingResults, emit; cbn [fst snd requests log];
      rewrite ?unobserved_app, ?Hl; cbn [unobserved];
      rewrite ?app_nil_r; repeat split.
Qed.

Lemma thrower_stops {R : Type} (srv : server R) (taskId : str) (ms : Z)
  (f : Observer.callback) (st : TaskStatus) (e : exn) :
  forall k n w,
  (k < n)%nat ->
  (forall i, (i < k)%nat ->
     exists s s', statusReply srv (requests w + i) = inr s
                  /\ f (requests w + i)%nat s = Returned s'
                  /\ terminal (status s') = false) ->
  statusReply srv (requests w + k) = inr st ->
  f (requests w + k)%nat st = Thrown e ->
  (forall t, ~ In (GetResults t) (log w)) ->
  let a := Observer.pollLoop srv taskId (Some f) ms n w in
  fst a = Thrown e /\ requests (snd a) = S (requests w + k)
  /\ (exists pre, log (snd a) = pre ++ [GetStatus taskId; OnProgress st])
  /\ forall t, ~ In (GetResults t) (log (snd a)).
Proof.
  induction k as [|k IH]; intros n w Hk Hq Hst Hthrow Hno; cbv zeta;
    (destruct n as [|n]; [lia|]);
    cbn [Observer.pollLoop getTaskStatus].
  - rewrite Nat.add_0_r in Hst, Hthrow. rewrite Hst. cbn [liftReply].
    rewrite Hthrow. unfold emit. cbn [fst snd requests log].
    split; [reflexivity|]. split; [lia|]. split.
    + exists (log w). rewrite <- app_assoc. reflexivity.
    + intros t Hin. apply in_app_or in Hin. destruct Hin as [Hin|Hin].
      * apply in_app_or in Hin. destruct Hin as [Hin|Hin];
          [exact (Hno t Hin)|].
        destruct Hin as [Hin|[]]. discriminate.
      * destruct Hin as [Hin|[]]. discriminate.
  - destruct (Hq 0%nat) as (s & s' & Hs & Hfs & Ht); [lia|].
    rewrite Nat.add_0_r in Hs, Hfs. rewrite Hs. cbn [liftReply].
    rewrite Hfs.
    assert (Hgo : forall w2,
              match status s' with
              | completed => getProcessingResults srv taskId w2
              | error => (Thrown (Error (message s')), w2)
              | _ => Observer.pollLoop srv taskId (Some f) ms n
                       (emit (Sleep ms) w2)
              end
              = Observer.pollLoop srv taskId (Some f) ms n
                  (emit (Sleep ms) w2)).
    { intro w2. destruct (status s'); try reflexivity; discriminate. }
    rewrite Hgo.
    destruct (IH n (emit (Sleep ms)
                      (emit (OnProgress s)
                         {| requests := S (requests w);
                            log := log w ++ [GetStatus taskId] |})))
      as (H1 & H2 & H3 & H4).
    + lia.
    + intros i Hi. unfold emit. cbn [requests].
      destruct (Hq (S i)) as (x & x' & Hx); [lia|].
      exists x, x'.
      replace (S (requests w) + i)%nat with (requests w + S i)%nat
        by lia.
      exact Hx.
    + unfold emit. cbn [requests].
      replace (S (requests w) + k)%nat with (requests w + S k)%nat
        by lia.
      exact Hst.
    + unfold emit. cbn [requests].
      replace (S (requests w) + k)%nat with (requests w + S k)%nat
        by lia.
      exact Hthrow.
    + intros t Hin. unfold emit in Hin. cbn [log] in Hin.
      repeat (apply in_app_or in Hin; destruct Hin as [Hin|Hin];
              [|destruct Hin as [Hin|[]]; discriminate]).
      exact (Hno t Hin).
    + cbv zeta in H1, H2, H3, H4.
      split; [exact H1|].
      split; [rewrite H2; unfold emit; cbn [requests]; lia|].
      split; assumption.
Qed.

(** X7: What a callback can do to a run of advanced_api.ts.  One that
    returns and leaves the status and the message of the snapshot alone
    makes no difference: the same requests and waits in the same order
    and the same result or error as without a callback.  One that throws
    ends the run there and then: its error is the run's error, and no
    further request is made, also not for the results of a snapshot
    that said [completed]. *)
Theorem observer_does_not_change_the_run {R : Type} (srv : server R)
  (taskId : str) (f : Observer.callback) (pollInterval : option Z)
  (maxAttempts : option nat) :
  let a := Observer.pollTaskUntilComplete srv taskId (Some f) pollInterval
             maxAttempts start in
  let b := Observer.pollTaskUntilComplete srv taskId None pollInterval
             maxAttempts start in
  (Observer.harmless f ->
   fst a = fst b /\ unobserved (log (snd a)) = log (snd b))
  /\ forall k st e,
       (k < match maxAttempts with Some n => n | None => 150 end)%nat ->
       (forall i, (i < k)%nat ->
          exists s s', statusReply srv i = inr s /\ f i s = Returned s'
                       /\ terminal (status s') = false) ->
       statusReply srv k = inr st -> f k st = Thrown e ->
       fst a = Thrown e /\ requests (snd a) = S k
       /\ (exists pre,
             log (snd a) = pre ++ [GetStatus taskId; OnProgress st])
       /\ forall t, ~ In (GetResults t) (log (snd a)).
Proof.
  cbv zeta. unfold Observer.pollTaskUntilComplete. split.
  - intro Hf.
    match goal with
    | |- context [Observer.pollLoop srv taskId None ?ms ?n start] =>
      destruct (harmless_free srv taskId ms f Hf n start start
                  eq_refl eq_refl) as (H1 & _ & H3)
    end.
    cbv zeta in H1, H3. auto.
  - intros k st e Hk Hq Hst Hthrow.
    apply (thrower_stops srv taskId _ f st e k _ start Hk Hq Hst Hthrow).
    intros t [].
Qed.

Lemma quietLog_slept {R : Type} (srv : server R) (taskId : str)
  (onProgress : bool) (ms : Z) (k : nat) : forall from,
  slept (quietLog srv taskId onProgress ms from k) = (ms * Z.of_nat k)%Z.
Proof.
  induction k as [|k IH]; intro from; cbn [quietLog slept]; [lia|].
  rewrite slept_app. cbn [slept]. rewrite IH.
  destruct (statusReply srv from) as [e|st]; [cbn [slept]; lia|].
  destruct onProgress; cbn [slept]; lia.
Qed.

(** How long the answers stay snapshots of a job under way, up to [n]. *)
Lemma quiet_until {R : Type} (srv : server R) (n : nat) :
  exists k,
    (k <= n)%nat /\ quiet srv 0 k
    /\ (k = n
        \/ ~ exists st, statusReply srv k = inr st /\ nonterminal st).
Proof.
  induction n as [|n (k & Hk & Hq & Hend)].
  - exists 0%nat. split; [lia|]. split; [|left; reflexivity].
    intros i Hi. lia.
  - destruct Hend as [->|Hend]; [|exists k; split; [lia|]; auto].
    destruct (statusReply srv n) as [e|st] eqn:E.
    + exists n. split; [lia|]. split; [exact Hq|]. right.
      intros (st & H & _). congruence.
    + destruct (terminal (status st)) eqn:Et.
      * exists n. split; [lia|]. split; [exact Hq|]. right.
        intros (st' & H & Hn). unfold nonterminal in Hn. congruence.
      * exists (S n). split; [lia|]. split; [|left; reflexivity].
        intros i Hi. destruct (Nat.eq_dec i n) as [->|Hne].
        -- exists st. split; [exact E|exact Et].
        -- apply Hq. lia.
Qed.

(** How long the loop goes on, up to [n] turns. *)
Lemma waiting_until {R : Type} (srv : server R)
  (cb : option Observer.callback) (n : nat) :
  exists k,
    (k <= n)%nat /\ Observer.waiting srv cb 0 k
    /\ (k = n
        \/ ~ exists st, statusReply srv k = inr st
                        /\ Observer.goesOn cb k st).
Proof.
  assert (Hdec : forall k st,
            Observer.goesOn cb k st \/ ~ Observer.goesOn cb k st).
  { intros k st. unfold Observer.goesOn. destruct cb as [f|].
    - destruct (f k st) as [st'|e] eqn:E.
      + destruct (terminal (status st')) eqn:Et.
        * right. intros (x & Hx & Hn). congruence.
        * left. exists st'. auto.
      + right. intros (x & Hx & _). discriminate.
    - destruct (terminal (status st)); [right; discriminate|left; reflexivity].
  }
  induction n as [|n (k & Hk & Hq & Hend)].
  - exists 0%nat. split; [lia|]. split; [|left; reflexivity].
    intros i Hi. lia.
  - destruct Hend as [->|Hend]; [|exists k; split; [lia|]; auto].
    destruct (statusReply srv n) as [e|st] eqn:E.
    + exists n. split; [lia|]. split; [exact Hq|]. right.
      intros (st & H & _). congruence.
    + destruct (Hdec n st) as [Hgo|Hstop].
      * exists (S n). split; [lia|]. split; [|left; reflexivity].
        intros i Hi. destruct (Nat.eq_dec i n) as [->|Hne].
        -- exists st. split; [exact E|exact Hgo].
        -- apply Hq. lia.
      * exists n. split; [lia|]. split; [exact Hq|]. right.
        intros (st' & H & Hn). congruence.
Qed.

Lemma observer_turns {R : Type} (srv : server R) (taskId : str)
  (cb : option Observer.callback) (ms : Z) (k : nat) : forall n w,
  Observer.waiting srv cb (requests w) k ->
  Observer.pollLoop srv taskId cb ms (k + n) w
  = Observer.pollLoop srv taskId cb ms n
      {| requests := requests w + k;
         log := log w ++ quietLog srv taskId (Observer.watched cb) ms
                           (requests w) k |}.
Proof.
  induction k as [|k IH]; intros n w Hq; cbn [Nat.add quietLog].
  - rewrite Nat.add_0_r, app_nil_r. destruct w; reflexivity.
  - destruct (Hq 0%nat) as (st & E & Hgo); [lia|].
    rewrite Nat.add_0_r in E, Hgo.
    assert (Hq' : forall w', requests w' = S (requests w) ->
                    Observer.waiting srv cb (requests w') k).
    { intros w' Hr i Hi. destruct (Hq (S i)) as (x & Hx); [lia|].
      exists x. rewrite Hr.
      replace (S (requests w) + i)%nat with (requests w + S i)%nat by lia.
      exact Hx. }
    cbn [Observer.pollLoop getTaskStatus]. rewrite E. cbn [liftReply].
    unfold Observer.goesOn in Hgo. destruct cb as [f|];
      cbn [Observer.watched].
    + destruct Hgo as (st' & Hf & Ht). rewrite Hf.
      destruct (status st') eqn:Es; try discriminate;
        rewrite IH by (apply Hq'; reflexivity);
        unfold emit; cbn [requests log]; f_equal; f_equal;
        [lia|rewrite <- !app_assoc; reflexivity|lia
        |rewrite <- !app_assoc; reflexivity|lia
        |rewrite <- !app_assoc; reflexivity|lia
        |rewrite <- !app_assoc; reflexivity].
    + destruct (status st) eqn:Es; try discriminate;
        rewrite IH by (apply Hq'; reflexivity);
        unfold emit; cbn [requests log]; f_equal; f_equal;
        [lia|rewrite <- !app_assoc; reflexivity|lia
        |rewrite <- !app_assoc; reflexivity|lia
        |rewrite <- !app_assoc; reflexivity|lia
        |rewrite <- !app_assoc; reflexivity].
Qed.

(** X8: A run of advanced_api.ts with the default interval and budget (the
    way [processDocument] calls it), with any callback or none, is a
    number k of turns, 150 at most, after each of which the loop goes
    on: a snapshot is polled, handed to the callback if there is one,
    found not to be terminal, and followed by one wait of 2000 ms.  Then
    either the budget is used up and the timeout error is thrown, or
    one more request is made and the run ends on it without a wait.  So
    the run waits 2000 ms once for every such snapshot and at no other
    time, never more than five minutes in all. *)
Theorem waiting_time_is_bounded {R : Type} (srv : server R) (taskId : str)
  (onProgress : option Observer.callback) :
  let r := Observer.pollTaskUntilComplete srv taskId onProgress None None
             start in
  exists k tail,
    (k <= 150)%nat /\ Observer.waiting srv onProgress 0 k
    /\ log (snd r)
       = quietLog srv taskId (Observer.watched onProgress) 2000 0 k ++ tail
    /\ (forall ms, ~ In (Sleep ms) tail)
    /\ slept (log (snd r)) = (2000 * Z.of_nat k)%Z
    /\ (slept (log (snd r)) <= 300000)%Z
    /\ ((k = 150%nat /\ tail = [] /\ fst r = Thrown TimeoutError)
        \/ ((k < 150)%nat /\ polls tail = 1%nat
            /\ requests (snd r) = S k
            /\ ~ exists st, statusReply srv k = inr st
                            /\ Observer.goesOn onProgress k st)).
Proof.
  cbv zeta. unfold Observer.pollTaskUntilComplete.
  destruct (waiting_until srv onProgress 150) as (k & Hk & Hq & Hend).
  exists k.
  set (pre := quietLog srv taskId (Observer.watched onProgress) 2000 0 k).
  assert (Hrun : forall n,
            Observer.pollLoop srv taskId onProgress 2000 (k + n) start
            = Observer.pollLoop srv taskId onProgress 2000 n
                {| requests := k; log := pre |}).
  { intro n. rewrite observer_turns by exact Hq. reflexivity. }
  assert (Hfinish : forall tail : list event,
            (forall ms, ~ In (Sleep ms) tail) ->
            (forall ms, ~ In (Sleep ms) tail)
            /\ slept (pre ++ tail) = (2000 * Z.of_nat k)%Z
            /\ (slept (pre ++ tail) <= 300000)%Z).
  { intros tail Hno. split; [exact Hno|].
    assert (Hz : slept tail = 0%Z).
    { clear - Hno. induction tail as [|e tail IH]; [reflexivity|].
      destruct e; cbn [slept];
        try (apply IH; intros ms Hin; apply (Hno ms); right; exact Hin).
      exfalso. apply (Hno ms). left. reflexivity. }
    subst pre. rewrite slept_app, quietLog_slept, Hz. lia. }
  assert (Hcase : k = 150%nat
                  \/ ((k < 150)%nat
                      /\ ~ exists st, statusReply srv k = inr st
                                      /\ Observer.goesOn onProgress k st)).
  { destruct (Nat.eq_dec k 150) as [->|Hne]; [left; reflexivity|].
    right. split; [lia|]. destruct Hend as [->|Hend]; [lia|exact Hend]. }
  clear Hend. destruct Hcase as [E150|[Hlt Hend]].
  - exists [].
    assert (Hr : Observer.pollLoop srv taskId onProgress 2000 150 start
                 = (Thrown TimeoutError, {| requests := k; log := pre |})).
    { transitivity
        (Observer.pollLoop srv taskId onProgress 2000 (k + 0) start);
        [f_equal; lia|rewrite Hrun; reflexivity]. }
    rewrite Hr. cbn [fst snd log]. rewrite app_nil_r.
    split; [lia|]. split; [exact Hq|]. split; [reflexivity|].
    destruct (Hfinish []) as (H1 & H2 & H3); [intros ms []|].
    rewrite app_nil_r in H2, H3.
    split; [exact H1|]. split; [exact H2|]. split; [exact H3|].
    left. split; [exact E150|]. split; reflexivity.
  - assert (Hr : Observer.pollLoop srv taskId onProgress 2000 150 start
                 = Observer.pollLoop srv taskId onProgress 2000
                     (S (150 - S k)) {| requests := k; log := pre |}).
    { rewrite <- Hrun. f_equal. lia. }
    rewrite Hr. clear Hr Hrun.
    cbn [Observer.pollLoop getTaskStatus requests log].
    assert (Hdone : forall (o : outcome R) (tail : list event),
              (forall ms, ~ In (Sleep ms) tail) ->
              polls tail = 1%nat ->
              let r := (o, {| requests := S k; log := pre ++ tail |}) in
              exists tail',
                (k <= 150)%nat /\ Observer.waiting srv onProgress 0 k
                /\ log (snd r) = pre ++ tail'
                /\ (forall ms, ~ In (Sleep ms) tail')
                /\ slept (log (snd r)) = (2000 * Z.of_nat k)%Z
                /\ (slept (log (snd r)) <= 300000)%Z
                /\ ((k = 150%nat /\ tail' = []
                     /\ fst r = Thrown TimeoutError)
                    \/ ((k < 150)%nat /\ polls tail' = 1%nat
                        /\ requests (snd r) = S k
                        /\ ~ exists st,
                               statusReply srv k = inr st
                               /\ Observer.goesOn onProgress k st))).
    { intros o tail Hno Hp. cbv zeta. cbn [fst snd requests log].
      exists tail. destruct (Hfinish tail Hno) as (H1 & H2 & H3).
      split; [lia|]. split; [exact Hq|]. split; [reflexivity|].
      split; [exact H1|]. split; [exact H2|]. split; [exact H3|].
      right. auto. }
    assert (Hno : forall l : list event,
              Forall (fun e => match e with Sleep _ => False | _ => True end)
                     l ->
              forall ms, ~ In (Sleep ms) l).
    { intros l Hall ms Hin. rewrite Forall_forall in Hall.
      exact (Hall _ Hin). }
    destruct (statusReply srv k) as [e|st] eqn:E; cbn [liftReply].
    + apply (Hdone (Thrown e) [GetStatus taskId]); [|reflexivity].
      apply Hno. repeat constructor.
    + destruct onProgress as [f|].
      * destruct (f k st) as [st'|e] eqn:Ef.
        -- destruct (terminal (status st')) eqn:Et.
           2:{ exfalso. apply Hend. exists st. split; [reflexivity|].
               exists st'. auto. }
           destruct (status st') eqn:Es; try discriminate;
             unfold getProcessingResults, emit; cbn [requests log];
             rewrite <- !app_assoc; cbn [app];
             apply Hdone; try reflexivity; apply Hno; repeat constructor.
        -- unfold emit; cbn [requests log].
           rewrite <- !app_assoc; cbn [app].
           apply Hdone; try reflexivity; apply Hno; repeat constructor.
      * destruct (terminal (status st)) eqn:Et.
        2:{ exfalso. apply Hend. exists st. split; [reflexivity|exact Et]. }
        destruct (status st) eqn:Es; try discriminate;
          unfold getProcessingResults, emit; cbn [requests log];
          rewrite <- ?app_assoc; cbn [app];
          apply Hdone; try reflexivity; apply Hno; repeat constructor.
Qed.

(** X9: A status request that fails is not retried, in either copy of the
    loop: when the k-th request is the first not to return a snapshot of
    a job under way, and it fails with [e], the run ends with [e] after
    k+1 requests; the observer has seen the k earlier snapshots and no
    results request is made. *)
Theorem failed_request_is_not_retried {R : Type} (srv : server R)
  (taskId : str) (onProgress : bool) (pollInterval : Z) (n k : nat)
  (e : exn) :
  (k < n)%nat -> failsAt srv k e ->
  let a := pollTaskUntilComplete srv taskId onProgress (Some pollInterval)
             (Some n) start in
  fst a = Thrown e
  /\ requests (snd a) = S k /\ polls (log (snd a)) = S k
  /\ (forall t, ~ In (GetResults t) (log (snd a)))
  /\ (onProgress = true ->
      observed (log (snd a)) = successes (answers srv k))
  /\ exists w,
       ChatAssistant.pollTaskUntilComplete srv taskId n start
       = ChatAssistant.Done (Thrown e) w
       /\ requests w = S k /\ observed (log w) = successes (answers srv k).
Proof.
  intros Hk Hf. cbv zeta. unfold pollTaskUntilComplete.
  rewrite (pollLoop_failure srv taskId pollInterval onProgress n k e Hk Hf).
  cbn [fst snd requests log].
  assert (Hobs : forall ms,
            observed (quietLog srv taskId true ms 0 k ++ [GetStatus taskId])
            = successes (answers srv k)).
  { intro ms. rewrite observed_app. cbn [observed]. rewrite app_nil_r.
    apply quietLog_observed. exact (proj1 Hf). }
  repeat split.
  - rewrite polls_app, quietLog_polls. cbn [polls]. lia.
  - intros t Hin. apply in_app_or in Hin. destruct Hin as [Hin|Hin].
    + exact (quietLog_no_results _ _ _ _ _ _ _ Hin).
    + cbn in Hin. destruct Hin as [Hin|[]]. discriminate.
  - intros ->. apply Hobs.
  - eexists. split; [apply (chat_failure srv taskId n k e Hk Hf)|].
    cbn [requests log]. split; [reflexivity|apply Hobs].
Qed.

Lemma viaChat_status {R : Type} (h : Http.site R) (k : nat) :
  statusReply (Http.viaChat h) k
  = Http.checked (fun _ statusText => lit "获取状态失败: " ++ statusText)
                 (Http.statusHttp h k).
Proof. reflexivity. Qed.

Lemma viaAdvancedApi_status {R : Type} (h : Http.site R) (k : nat) :
  statusReply (Http.viaAdvancedApi h) k
  = Http.checked (fun status _ => lit "状态查询失败: "
                                  ++ Download.decimal status)
                 (Http.statusHttp h k).
Proof. reflexivity. Qed.

(** Run over the same site, the chat assistant's loop and the loop of
    advanced_api.ts take the same turns. *)
Lemma chat_agrees_over {R : Type} (h : Http.site R) (taskId : str)
  (n : nat) : forall w o w',
  ChatAssistant.pollTaskUntilComplete (Http.viaChat h) taskId n w
  = ChatAssistant.Done o w' ->
  match o with
  | Returned st =>
    status st = completed
    /\ pollLoop (Http.viaAdvancedApi h) taskId true 2000 n w
       = (liftReply (resultsReply (Http.viaAdvancedApi h)),
          emit (GetResults taskId) w')
  | Thrown e =>
    exists e',
      pollLoop (Http.viaAdvancedApi h) taskId true 2000 n w = (Thrown e', w')
      /\ (e' = e
          \/ exists code text json,
               Http.statusHttp h (pred (requests w'))
               = Http.Answer false code text json
               /\ e = Error (lit "获取状态失败: " ++ text)
               /\ e' = Error (lit "状态查询失败: " ++ Download.decimal code))
  end.
Proof.
  induction n as [|n IH]; intros w o w';
    cbn [ChatAssistant.pollTaskUntilComplete pollLoop]; [discriminate|].
  unfold ChatAssistant.turn. cbn [getTaskStatus].
  rewrite viaChat_status, viaAdvancedApi_status.
  destruct (Http.statusHttp h (requests w)) as [e|[|] code text [e|st]]
    eqn:E; cbn [Http.checked liftReply].
  - intro H. injection H as <- <-. eexists. split; [reflexivity|].
    left. reflexivity.
  - intro H. injection H as <- <-. eexists. split; [reflexivity|].
    left. reflexivity.
  - destruct (status st) eqn:Est;
      try (intro H; apply IH in H; exact H);
      intro H; injection H as <- <-.
    + split; [exact Est|]. reflexivity.
    + eexists. split; [reflexivity|]. left. reflexivity.
  - intro H. injection H as <- <-. eexists. split; [reflexivity|].
    right. cbn [requests pred]. eexists _, _, _.
    split; [exact E|split; reflexivity].
  - intro H. injection H as <- <-. eexists. split; [reflexivity|].
    right. cbn [requests pred]. eexists _, _, _.
    split; [exact E|split; reflexivity].
Qed.

(** X10: Over the same endpoints, when the chat assistant's loop comes to
    an end within [n] turns, the loop of advanced_api.ts with a budget
    of [n] and the same interval makes the same requests, calls the
    observer with the same snapshots and waits as often.  Where the
    chat assistant's loop returns the [completed] snapshot the other
    one goes on to fetch the results; where it throws, the other one
    throws too, and the same error unless the last response was not
    ok, which the two word differently (one names the status text, the
    other the status code). *)
Theorem both_loops_agree {R : Type} (h : Http.site R) (taskId : str)
  (n : nat) (o : outcome TaskStatus) (w : world) :
  ChatAssistant.pollTaskUntilComplete (Http.viaChat h) taskId n start
  = ChatAssistant.Done o w ->
  match o with
  | Returned st =>
    status st = completed
    /\ pollTaskUntilComplete (Http.viaAdvancedApi h) taskId true
         (Some 2000%Z) (Some n) start
       = (liftReply (resultsReply (Http.viaAdvancedApi h)),
          emit (GetResults taskId) w)
  | Thrown e =>
    exists e',
      pollTaskUntilComplete (Http.viaAdvancedApi h) taskId true
        (Some 2000%Z) (Some n) start
      = (Thrown e', w)
      /\ (e' = e
          \/ exists code text json,
               Http.statusHttp h (pred (requests w))
               = Http.Answer false code text json
               /\ e = Error (lit "获取状态失败: " ++ text)
               /\ e' = Error (lit "状态查询失败: " ++ Download.decimal code))
  end.
Proof. intro H. exact (chat_agrees_over h taskId n start o w H). Qed.

Lemma observer_does_not_change_the_run_witness :
  fst (Observer.pollTaskUntilComplete Samples.stale tid
         (Some MoreSamples.relabel) None None start)
  = fst (Observer.pollTaskUntilComplete Samples.stale tid None None None
           start)
  /\ unobserved
       (log (snd (Observer.pollTaskUntilComplete Samples.stale tid
                    (Some MoreSamples.relabel) None None start)))
     = log (snd (Observer.pollTaskUntilComplete Samples.stale tid None None
                   None start)).
Proof.
  apply (proj1 (observer_does_not_change_the_run Samples.stale tid
                  MoreSamples.relabel None None)).
  intros k st. eexists. split; [reflexivity|]. split; reflexivity.
Defined.

(** A callback that throws at the second snapshot: the run ends with its
    error after two requests, though the third answer would have been
    [completed]. *)
Example impatient_observer :
  Observer.pollTaskUntilComplete Samples.stale tid
    (Some MoreSamples.impatient) None None start
  = (Thrown (Error (lit "render failed")),
     {| requests := 2;
        log := [GetStatus tid;
                OnProgress (Samples.snapshot pending 0 "queued");
                Sleep 2000;
                GetStatus tid;
                OnProgress (Samples.snapshot ocr_processing 20 "ocr")] |}).
Proof. vm_compute. reflexivity. Qed.

Lemma both_loops_agree_witness :
  exists e',
    pollTaskUntilComplete (Http.viaAdvancedApi MoreSamples.outage) tid true
      (Some 2000%Z) (Some 150%nat) start
    = (Thrown e', MoreSamples.outageEnd)
    /\ (e' = Error (lit "获取状态失败: Service Unavailable")
        \/ exists code text json,
             Http.statusHttp MoreSamples.outage
               (pred (requests MoreSamples.outageEnd))
             = Http.Answer false code text json
             /\ Error (lit "获取状态失败: Service Unavailable")
                = Error (lit "获取状态失败: " ++ text)
             /\ e' = Error (lit "状态查询失败: " ++ Download.decimal code)).
Proof.
  apply (both_loops_agree MoreSamples.outage tid 150
           (Thrown (Error (lit "获取状态失败: Service Unavailable")))
           MoreSamples.outageEnd).
  vm_compute. reflexivity.
Defined.

(** The two wordings of the same failure. *)
Example outage_in_two_wordings :
  ChatAssistant.pollTaskUntilComplete (Http.viaChat MoreSamples.outage) tid
    150 start
  = ChatAssistant.Done
      (Thrown (Error (lit "获取状态失败: Service Unavailable")))
      MoreSamples.outageEnd
  /\ pollTaskUntilComplete (Http.viaAdvancedApi MoreSamples.outage) tid true
       None None start
     = (Thrown (Error (lit "状态查询失败: 503")), MoreSamples.outageEnd).
Proof. split; vm_compute; reflexivity. Qed.

Lemma failed_request_is_not_retried_witness :
  fst (pollTaskUntilComplete MoreSamples.flaky tid true (Some 2000%Z)
         (Some 150%nat) start)
  = Thrown (Error (lit "状态查询失败: 503")).
Proof.
  apply (failed_request_is_not_retried MoreSamples.flaky tid true 2000 150 1
           (Error (lit "状态查询失败: 503"))).
  - lia.
  - split; [|reflexivity]. intros i Hi.
    exists (Samples.snapshot pending 0 "queued").
    assert (i = 0)%nat as -> by lia. split; reflexivity.
Defined.

Section Returned.
Context {R : Type} (srv : server R).
Variables (taskId : str) (onProgress : bool) (pollInterval : Z).

(** A run returns results only after a [completed] snapshot. *)
Lemma pollLoop_returned (n : nat) : forall w r w',
  pollLoop srv taskId onProgress pollInterval n w = (Returned r, w') ->
  exists k st,
    (k < n)%nat /\ quiet srv (requests w) k
    /\ statusReply srv (requests w + k) = inr st
    /\ status st = completed /\ resultsReply srv = inr r
    /\ exists l, log w' = l ++ [GetResults taskId].
Proof.
  induction n as [|n IH]; intros w r w'; cbn [pollLoop getTaskStatus];
    [discriminate|].
  destruct (statusReply srv (requests w)) as [e|st] eqn:E; cbn [liftReply];
    [discriminate|].
  assert (Hgo : forall w2, requests w2 = S (requests w) ->
            terminal (status st) = false ->
            pollLoop srv taskId onProgress pollInterval n
              (emit (Sleep pollInterval) w2) = (Returned r, w') ->
            exists k st0,
              (k < S n)%nat /\ quiet srv (requests w) k
              /\ statusReply srv (requests w + k) = inr st0
              /\ status st0 = completed /\ resultsReply srv = inr r
              /\ exists l, log w' = l ++ [GetResults taskId]).
  { intros w2 Hr Ht H. apply IH in H.
    destruct H as (k & st0 & Hk & Hq & Hst & Hc & Hres & Hl).
    cbn [emit requests] in Hq, Hst. rewrite Hr in Hq, Hst.
    exists (S k), st0. repeat split; auto; try lia.
    - intros i Hi. destruct i as [|i].
      + exists st. rewrite Nat.add_0_r. split; [exact E|exact Ht].
      + destruct (Hq i) as (st1 & H1 & H2); [lia|].
        exists st1. rewrite <- Nat.add_succ_comm. split; assumption.
    - rewrite <- Nat.add_succ_comm. exact Hst. }
  assert (Hreq : requests (if onProgress
                           then emit (OnProgress st)
                                  {| requests := S (requests w);
                                     log := log w ++ [GetStatus taskId] |}
                           else {| requests := S (requests w);
                                   log := log w ++ [GetStatus taskId] |})
                 = S (requests w)) by (destruct onProgress; reflexivity).
  destruct (status st) eqn:Est; try (apply Hgo; [exact Hreq|reflexivity]).
  - unfold getProcessingResults. intro H.
    destruct (resultsReply srv) as [e|r0] eqn:Er; cbn [liftReply] in H;
      [discriminate|].
    injection H as <- <-. exists 0%nat, st. rewrite Nat.add_0_r.
    repeat split; auto; try lia.
    + intros i Hi. lia.
    + cbn [emit log]. eexists. reflexivity.
  - discriminate.
Qed.

End Returned.

End PollMore.

(* ===================================================================== *)
(** ** A whole document run *)
(* ===================================================================== *)

Module PipelineFacts.
Import JS Task AdvancedApi Trace TraceMore PollFacts PollMore Pipeline.


Lemma pollLoop_about {R : Type} (srv : server R) (taskId : str)
  (onProgress : bool) (pollInterval : Z) (n : nat) : forall w,
  Forall (about taskId) (log w) ->
  Forall (about taskId)
         (log (snd (pollLoop srv taskId onProgress pollInterval n w))).
Proof.
  induction n as [|n IH]; intros w Hw; cbn [pollLoop getTaskStatus];
    [exact Hw|].
  assert (H1 : Forall (about taskId) (log w ++ [GetStatus taskId])).
  { apply Forall_app. split; [exact Hw|]. repeat constructor. }
  destruct (statusReply srv (requests w)) as [e|st]; cbn [liftReply];
    [exact H1|].
  assert (H2 : Forall (about taskId)
                 (log (if onProgress
                       then emit (OnProgress st)
                              {| requests := S (requests w);
                                 log := log w ++ [GetStatus taskId] |}
                       else {| requests := S (requests w);
                               log := log w ++ [GetStatus taskId] |}))).
  { destruct onProgress; cbn [emit log]; [|exact H1].
    apply Forall_app. split; [exact H1|]. repeat constructor. }
  destruct (status st);
    try (apply IH; cbn [emit log]; apply Forall_app; split;
         [exact H2|repeat constructor]);
    unfold getProcessingResults; cbn [snd emit log]; [|exact H2].
  apply Forall_app. split; [exact H2|]. repeat constructor.
Qed.

Lemma snoc_unique {A : Type} (x : A) (l1 pre post : list A) :
  ~ In x l1 -> l1 ++ [x] = pre ++ x :: post -> pre = l1 /\ post = [].
Proof.
  revert pre. induction l1 as [|a l1 IH]; intros pre Hn H.
  - destruct pre as [|b pre]; cbn in H.
    + injection H as <-. split; reflexivity.
    + injection H as _ H. destruct pre; discriminate.
  - destruct pre as [|b pre]; cbn in H.
    + injection H as -> _. exfalso. apply Hn. left. reflexivity.
    + injection H as <- H. destruct (IH pre) as [-> ->]; auto.
      intro Hin. apply Hn. right. exact Hin.
Qed.

Section Run.
Context {R : Type} (b : backend R).
Variables (file : File) (o : options).


(** X12: The report is the last thing a document run asks for, it is asked
    for at most once, right after the results were fetched, and for the
    task the upload returned. *)
Theorem report_is_requested_last (pre post : list step) (t : str) :
  snd (processDocument b file o) = pre ++ GetReport t :: post ->
  post = []
  /\ (exists up, uploadReply b = inr up /\ t = Upload.task_id up)
  /\ exists pre', pre = pre' ++ [Poll (GetResults t)].
Proof.
  unfold processDocument, uploadDocument, getHtmlReport,
    pollTaskUntilComplete.
  assert (Hno : forall (l : list event) x u1 u2 u3,
            ~ In (GetReport x) (PostUpload u1 u2 u3 :: map Poll l)).
  { intros l x u1 u2 u3 [H|H]; [discriminate|].
    apply in_map_iff in H. destruct H as (e & He & _). discriminate. }
  destruct (uploadReply b) as [e|up]; cbn [liftReply snd].
  - intro H. exfalso.
    assert (Hin : In (GetReport t)
                     [PostUpload (name file) (enable_description o)
                        (user_query o)]).
    { rewrite H. apply in_or_app. right. left. reflexivity. }
    destruct Hin as [Hin|[]]. discriminate.
  - destruct (pollLoop (tasks b) (Upload.task_id up) (onProgress o) 2000 150
                start) as [[res|e] w] eqn:Ep.
    + apply pollLoop_returned in Ep.
      destruct Ep as (_ & _ & _ & _ & _ & _ & _ & l & Hl).
      assert (Hshape : forall x : outcome (processed R),
                snd (x, [PostUpload (name file) (enable_description o)
                           (user_query o)]
                        ++ map Poll (log w)
                        ++ [GetReport (Upload.task_id up)])
                = pre ++ GetReport t :: post ->
                post = []
                /\ (exists up0, @inr exn Upload.response up = inr up0
                                /\ t = Upload.task_id up0)
                /\ exists pre', pre = pre' ++ [Poll (GetResults t)]).
      { intros x H. cbn [snd app] in H.
        assert (Ht : t = Upload.task_id up).
        { assert (Hin : In (GetReport t)
                           (PostUpload (name file) (enable_description o)
                              (user_query o)
                            :: map Poll (log w)
                               ++ [GetReport (Upload.task_id up)])).
          { rewrite H. apply in_or_app. right. left. reflexivity. }
          rewrite app_comm_cons in Hin. apply in_app_or in Hin.
          destruct Hin as [Hin|[Hin|[]]]; [exfalso; exact (Hno _ _ _ _ _ Hin)|].
          injection Hin as ->. reflexivity. }
        subst t. rewrite app_comm_cons in H. apply snoc_unique in H;
          [|apply Hno].
        destruct H as [-> ->]. split; [reflexivity|].
        split; [eexists; split; reflexivity|].
        rewrite Hl, map_app. cbn [map]. rewrite app_comm_cons.
        eexists. reflexivity. }
      destruct (reportReply b); cbn [liftReply]; apply Hshape.
    + cbn [snd]. intro H. exfalso. apply (Hno (log w) t
        (name file) (enable_description o) (user_query o)).
      cbn [app] in H. rewrite H. apply in_or_app. right. left. reflexivity.
Qed.

(** X13: A document run begins with the upload and uploads once.  The form
    always carries [enable_description], "true" when the option is set
    to true and "false" otherwise, and a non-empty [user_query], the
    caller's or the default text.  Every status and results request, and
    the report request, names the task the upload returned; a refused
    upload ends the run with its error and nothing else is requested. *)
Theorem upload_comes_first :
  exists rest,
    snd (processDocument b file o)
    = PostUpload (name file) (enable_description o) (user_query o) :: rest
    /\ (enable_description o
        = (if match enableDescription o with Some true => true | _ => false end
           then lit "true" else lit "false"))
    /\ user_query o <> []
    /\ match uploadReply b with
       | inl e => rest = [] /\ fst (processDocument b file o) = Thrown e
       | inr up => Forall (follows (Upload.task_id up)) rest
       end.
Proof.
  unfold processDocument, uploadDocument, getHtmlReport,
    pollTaskUntilComplete.
  assert (Hq : user_query o <> []).
  { unfold user_query. destruct (userQuery o) as [[|c q]|]; discriminate. }
  assert (He : enable_description o
               = (if match enableDescription o with
                     | Some true => true | _ => false end
                  then lit "true" else lit "false")).
  { unfold enable_description. destruct (enableDescription o) as [[|]|];
      reflexivity. }
  destruct (uploadReply b) as [e|up]; cbn [liftReply].
  - eexists. repeat split; auto.
  - pose proof (pollLoop_about (tasks b) (Upload.task_id up) (onProgress o)
                  2000 150 start (Forall_nil _)) as Hab.
    destruct (pollLoop (tasks b) (Upload.task_id up) (onProgress o) 2000 150
                start) as [[res|e] w]; cbn [snd] in Hab.
    + assert (Hrest : Forall (follows (Upload.task_id up))
                        (map Poll (log w)
                         ++ [GetReport (Upload.task_id up)])).
      { apply Forall_app. split; [|repeat constructor].
        apply Forall_forall. intros s Hs. apply in_map_iff in Hs.
        destruct Hs as (ev & <- & Hev). rewrite Forall_forall in Hab.
        exact (Hab ev Hev). }
      destruct (reportReply b); cbn [liftReply snd app];
        eexists; repeat split; eauto.
    + cbn [snd app]. eexists. repeat split; eauto.
      apply Forall_forall. intros s Hs. apply in_map_iff in Hs.
      destruct Hs as (ev & <- & Hev). rewrite Forall_forall in Hab.
      exact (Hab ev Hev).
Qed.

End Run.

End PipelineFacts.

(* ===================================================================== *)
(** ** File checks *)
(* ===================================================================== *)

Module ValidateFacts.
Import JS Regex Pipeline Validate.

Lemma sameString_eq (a b : str) : sameString a b = true <-> a = b.
Proof.
  revert b. induction a as [|x a IH]; intros [|y b]; cbn [sameString];
    try (split; [discriminate|discriminate]); [tauto|].
  rewrite andb_true_iff, N.eqb_eq, IH. split.
  - intros [-> ->]. reflexivity.
  - intro H. injection H as -> ->. auto.
Qed.

Lemma matcher_Letters (l : str) : forall k s c,
  matcher (Letters l) k s c
  = if anyCasePrefix l s then k (skipn (length l) s) c else None.
Proof.
  induction l as [|a l IH]; intros k s c;
    cbn [Letters matcher anyCasePrefix length skipn]; [reflexivity|].
  destruct s as [|x s]; [reflexivity|].
  destruct (letter a x); cbn [andb]; [apply IH|reflexivity].
Qed.

Lemma anyCase_prefix (e ext : str) :
  anyCase e ext
  = anyCasePrefix e ext
    && match skipn (length e) ext with [] => true | _ => false end.
Proof.
  revert ext. induction e as [|a e IH]; intros [|x ext];
    cbn [anyCase anyCasePrefix length skipn andb]; try reflexivity.
  rewrite IH, andb_assoc. reflexivity.
Qed.

Lemma isSome_orElse (a b : option caps) :
  isSome (orElse a b) = isSome a || isSome b.
Proof. destruct a; reflexivity. Qed.

(** One attempt: the rest has to be a point and one of the extensions in
    any case, and nothing more. *)
Lemma matchHereAtEnd_extension (s : str) :
  isSome (matchHereAtEnd extensionPattern s)
  = match s with
    | d :: ext => (d =? 46) && existsb (fun e => anyCase e ext) extensions
    | [] => false
    end.
Proof.
  unfold matchHereAtEnd, extensionPattern.
  cbn [matcher]. destruct s as [|d ext]; [reflexivity|].
  unfold isChar. destruct (d =? 46); [|reflexivity].
  cbn [andb matcher]. rewrite !matcher_Letters.
  rewrite !isSome_orElse.
  cbn [extensions map existsb]. rewrite !anyCase_prefix, orb_false_r.
  rewrite <- ?orb_assoc.
  repeat match goal with
         | |- context [anyCasePrefix ?e ext] =>
           destruct (anyCasePrefix e ext) eqn:?; cbn [andb orb isSome]
         end;
    repeat match goal with
           | |- context [skipn ?n ext] =>
             destruct (skipn n ext) eqn:?; cbn [atEnd andb orb isSome]
           end;
    reflexivity.
Qed.

Lemma execAtEnd_suffix (r : re) (s : str) :
  isSome (execAtEnd r s) = true
  <-> exists pre suf, s = pre ++ suf /\ isSome (matchHereAtEnd r suf) = true.
Proof.
  induction s as [|x s IH]; cbn [execAtEnd].
  - destruct (matchHereAtEnd r []) eqn:E; cbn [isSome].
    + split; [|reflexivity]. intros _. exists [], []. rewrite E. auto.
    + split; [discriminate|]. intros (pre & suf & H & Hm).
      symmetry in H. apply app_eq_nil in H. destruct H as [-> ->].
      rewrite E in Hm. discriminate.
  - destruct (matchHereAtEnd r (x :: s)) eqn:E; cbn [isSome].
    + split; [|reflexivity]. intros _. exists [], (x :: s). rewrite E. auto.
    + rewrite IH. split.
      * intros (pre & suf & -> & Hm). exists (x :: pre), suf. auto.
      * intros (pre & suf & H & Hm). destruct pre as [|y pre].
        -- cbn in H. subst suf. rewrite E in Hm. discriminate.
        -- injection H as -> ->. exists pre, suf. auto.
Qed.

(** X14: A file is accepted exactly when its MIME type is one of the six
    listed, or its name ends in a point followed by one of jpg, jpeg, png,
    pdf, txt, md, written in any mix of upper and lower case.  The two
    tests are alternatives: a listed type is enough whatever the name,
    and a listed extension whatever the type. *)
Theorem accepted_by_type_or_extension (file : File) :
  validateFileType file = true
  <-> In (type file) allowedTypes
      \/ exists stem ext e,
           name file = stem ++ 46 :: ext
           /\ In e extensions /\ anyCase e ext = true.
Proof.
  assert (H1 : existsb (sameString (type file)) allowedTypes = true
               <-> In (type file) allowedTypes).
  { rewrite existsb_exists. split.
    - intros (t & Hin & Heq). apply sameString_eq in Heq. subst t. exact Hin.
    - intro Hin. exists (type file). split; [exact Hin|].
      apply sameString_eq. reflexivity. }
  assert (H2 : isSome (execAtEnd extensionPattern (name file)) = true
               <-> exists stem ext e,
                     name file = stem ++ 46 :: ext
                     /\ In e extensions /\ anyCase e ext = true).
  { rewrite execAtEnd_suffix. split.
    - intros (pre & suf & Hn & Hm).
      rewrite matchHereAtEnd_extension in Hm.
      destruct suf as [|d ext]; [discriminate|].
      apply andb_true_iff in Hm. destruct Hm as [Hd He].
      apply N.eqb_eq in Hd. subst d.
      apply existsb_exists in He. destruct He as (e & Hin & Hany).
      exists pre, ext, e. auto.
    - intros (stem & ext & e & Hn & Hin & Hany).
      exists stem, (46 :: ext). split; [exact Hn|].
      rewrite matchHereAtEnd_extension, N.eqb_refl. cbn [andb].
      apply existsb_exists. exists e. auto. }
  unfold validateFileType.
  change (match execAtEnd extensionPattern (name file) with
          | Some _ => true | None => false end)
    with (isSome (execAtEnd extensionPattern (name file))).
  rewrite orb_true_iff, H1, H2. reflexivity.
Qed.

End ValidateFacts.

(* ===================================================================== *)
(** ** The upload panel and its downloads *)
(* ===================================================================== *)

Module PanelFacts.
Import JS Task Pipeline Validate Panel.

Section Handlers.
Context {R : Type} (b : backend R).

(** The options the panel passes to [processDocument]. *)
Local Abbreviation panelOptions s :=
  {| enableDescription := Some true;
     Pipeline.userQuery := Some (userQuery s);
     onProgress := true |}.

(** X15: A file of a type that is not accepted, or of more than 104857600
    bytes, is never sent: the handler shows one alert, makes no request
    and leaves the panel as it was. *)
Theorem rejected_file_is_never_sent (f : File) (onOCRResult : bool)
  (s : state R) :
  validateFileType f = false \/ (104857600 < size f)%N ->
  fst (handleFileUpload b (Some f) onOCRResult s) = s
  /\ exists text, snd (handleFileUpload b (Some f) onOCRResult s)
                  = [Alert text].
Proof.
  intro H. unfold handleFileUpload.
  destruct (validateFileType f) eqn:Et; cbn [negb].
  - destruct H as [H|H]; [discriminate|].
    unfold validateFileSize. change (100 * 1024 * 1024) with 104857600.
    apply N.leb_gt in H. rewrite H. cbn [negb].
    split; [reflexivity|eexists; reflexivity].
  - split; [reflexivity|eexists; reflexivity].
Qed.

(** X16: A file that passes both checks is sent: the handler makes the
    requests of one document run with the panel's query, and nothing it
    does afterwards is a request.  When it has settled the panel is no
    longer processing.  After a run that succeeded the panel holds the
    task id, the results and the report of that run; after a run that
    failed the task id is cleared, the results and the report from
    before stay, and an alert with the error's message was shown. *)
Theorem panel_after_upload (f : File) (onOCRResult : bool) (s : state R) :
  validateFileType f = true ->
  (size f <= 104857600)%N ->
  let run := processDocument b f (panelOptions s) in
  let s' := fst (handleFileUpload b (Some f) onOCRResult s) in
  let effects := snd (handleFileUpload b (Some f) onOCRResult s) in
  isProcessing s' = false
  /\ (exists rest,
        effects = map Net (snd run) ++ rest /\ existsb isNet rest = false)
  /\ match fst run with
     | Returned p =>
       currentTaskId s' = Some (taskId p)
       /\ processingResults s' = Some (results p)
       /\ htmlReport s' = Pipeline.htmlReport p
     | Thrown (Error message) =>
       currentTaskId s' = None
       /\ processingResults s' = processingResults s
       /\ htmlReport s' = htmlReport s
       /\ In (Alert (lit "文档处理失败: " ++ message)) effects
     end.
Proof.
  intros Et Es. cbv zeta. unfold handleFileUpload. rewrite Et.
  unfold validateFileSize.
  replace (100 * 1024 * 1024) with 104857600 by (vm_compute; reflexivity).
  apply N.leb_le in Es. rewrite Es. cbn [negb].
  destruct (processDocument b f (panelOptions s)) as [[p|[m]] steps];
    unfold settle;
    cbn [fst snd isProcessing currentTaskId processingResults htmlReport].
  - split; [reflexivity|]. split.
    + eexists. split; [reflexivity|].
      destruct onOCRResult, (fileInputRef s); reflexivity.
    + split; [reflexivity|]. split; reflexivity.
  - generalize (lit "文档处理失败: " ++ m) as text. intro text.
    split; [reflexivity|]. split.
    + eexists. split; [reflexivity|].
      destruct (fileInputRef s); reflexivity.
    + split; [reflexivity|]. split; [reflexivity|]. split; [reflexivity|].
      apply in_or_app. right. left. reflexivity.
Qed.

(** X17: [handleDownload] never lets an error out.  Without a task id it does
    nothing.  With one it makes exactly one request, to
    /download/<id>/<type>; when the response is ok and its body can be
    read the file <type>_<id>.<type> is saved once and no alert is shown,
    and in every other case (the request fails, the response is not ok,
    or reading the body fails) nothing is saved and one alert is
    shown. *)
Theorem download_saves_once_or_alerts (reply : Download.fetched)
  (t : Download.fileType) (s : state R) :
  let effects := handleDownload reply t s in
  let pages := flat_map (fun e : effect R =>
                           match e with Page a => [a] | _ => [] end)
                        effects in
  match currentTaskId s with
  | None => effects = []
  | Some [] => effects = []
  | Some id =>
    (exists rest,
       pages = Download.Fetch (Download.API_BASE_URL ++ lit "/download/"
                               ++ id ++ lit "/" ++ Download.text t) :: rest
       /\ existsb (@isNet R) (map Page rest) = false)
    /\ match reply with
       | Download.Response true _ (inr _) =>
         Download.saved None pages
         = [Download.text t ++ lit "_" ++ id ++ lit "." ++ Download.text t]
         /\ forall text, ~ In (Alert text) effects
       | _ =>
         Download.saved None pages = []
         /\ exists pre, effects = pre ++ [Alert (lit "下载失败，请稍后重试")]
                        /\ forall text, ~ In (Alert text) pre
       end
  end.
Proof.
  cbv zeta. unfold handleDownload.
  destruct (currentTaskId s) as [[|c id]|]; try reflexivity.
  cbn [truthy]. unfold Download.downloadFile.
  generalize (Download.API_BASE_URL ++ lit "/download/" ++ (c :: id)
              ++ lit "/" ++ Download.text t) as url.
  generalize (Download.text t ++ lit "_" ++ (c :: id) ++ lit "."
              ++ Download.text t) as fname.
  generalize (lit "下载失败，请稍后重试") as sorry.
  intros sorry fname url.
  destruct reply as [e|[|] st [e|u]]; cbn [map app flat_map Download.saved].
  - split; [exists []; split; reflexivity|].
    split; [reflexivity|].
    exists [Page (Download.Fetch url)]. split; [reflexivity|].
    intros text [H|[]]. discriminate.
  - split; [exists []; split; reflexivity|].
    split; [reflexivity|].
    exists [Page (Download.Fetch url)]. split; [reflexivity|].
    intros text [H|[]]. discriminate.
  - split; [eexists; split; reflexivity|].
    split; [reflexivity|].
    intros text H. cbn [In] in H.
    repeat (destruct H as [H|H]; [discriminate|]). exact H.
  - split; [exists []; split; reflexivity|].
    split; [reflexivity|].
    exists [Page (Download.Fetch url)]. split; [reflexivity|].
    intros text [H|[]]. discriminate.
  - split; [exists []; split; reflexivity|].
    split; [reflexivity|].
    exists [Page (Download.Fetch url)]. split; [reflexivity|].
    intros text [H|[]]. discriminate.
Qed.

End Handlers.

End PanelFacts.

(* ===================================================================== *)
(** ** The transcript *)
(* ===================================================================== *)

Module TranscriptFacts.
Import JS Task Pipeline Transcript.

Lemma lastMessage_snoc (l : list ChatMessage) (m : ChatMessage) :
  lastMessage (l ++ [m]) = Some m.
Proof.
  unfold lastMessage. rewrite length_app. cbn [length].
  rewrite Nat.add_sub, nth_error_app2, Nat.sub_diag by lia. reflexivity.
Qed.

Lemma endsWithStatus_snoc (l : list ChatMessage) (m : ChatMessage) :
  endsWithStatus (l ++ [m]) = isStatus m.
Proof.
  unfold endsWithStatus. rewrite lastMessage_snoc, length_app.
  cbn [length]. rewrite Nat.add_1_r. reflexivity.
Qed.

Lemma setLast_snoc (m x : ChatMessage) (l : list ChatMessage) :
  setLast m (l ++ [x]) = l ++ [m].
Proof.
  induction l as [|a l IH]; [reflexivity|].
  cbn [app setLast]. rewrite IH.
  destruct (l ++ [x]) eqn:E; [destruct l; discriminate|reflexivity].
Qed.

Lemma filterFrom_snoc (keep : ChatMessage -> nat -> bool) (m : ChatMessage)
  (l : list ChatMessage) : forall idx,
  (forall x i, (i < idx + length l)%nat -> keep x i = true) ->
  filterFrom keep idx (l ++ [m])
  = l ++ (if keep m (idx + length l)%nat then [m] else []).
Proof.
  induction l as [|a l IH]; intros idx Hk; cbn [app filterFrom length].
  - rewrite Nat.add_0_r. destruct (keep m idx); reflexivity.
  - rewrite Hk by (cbn [length]; lia). rewrite IH.
    + rewrite Nat.add_succ_comm. reflexivity.
    + intros x i Hi. apply Hk. cbn [length]. lia.
Qed.

Lemma fail_snoc (t : thrown) (l : list ChatMessage) (m : ChatMessage) :
  isStatus m = true -> fail t (l ++ [m]) = l ++ [errorMessage t].
Proof.
  intro Hm. unfold fail. rewrite filterFrom_snoc.
  - rewrite length_app. cbn [length Nat.add].
    rewrite Nat.add_sub, Nat.eqb_refl, Hm. cbn [andb negb].
    rewrite app_nil_r. reflexivity.
  - intros x i Hi. rewrite length_app. cbn [length].
    rewrite Nat.add_sub. cbn [Nat.add] in Hi.
    replace (Nat.eqb i (length l)) with false; [reflexivity|].
    symmetry. apply Nat.eqb_neq. lia.
Qed.

Lemma fail_keeps (t : thrown) (l : list ChatMessage) (m : ChatMessage) :
  isStatus m = false -> fail t (l ++ [m]) = l ++ [m; errorMessage t].
Proof.
  intro Hm. unfold fail. rewrite filterFrom_snoc.
  - rewrite Hm, andb_false_r. cbn [negb].
    rewrite <- app_assoc. reflexivity.
  - intros x i Hi. rewrite length_app. cbn [length].
    rewrite Nat.add_sub. cbn [Nat.add] in Hi.
    replace (Nat.eqb i (length l)) with false; [reflexivity|].
    symmetry. apply Nat.eqb_neq. lia.
Qed.

Lemma finish_snoc (l : list ChatMessage) (m : ChatMessage) :
  isStatus m = true -> finish (l ++ [m]) = l ++ [doneStatus; doneMessage].
Proof.
  intro Hm. unfold finish. rewrite endsWithStatus_snoc, Hm, setLast_snoc.
  rewrite <- app_assoc. reflexivity.
Qed.

Lemma withoutStatus_snoc (l : list ChatMessage) (m : ChatMessage) :
  withoutStatus (l ++ [m]) = if isStatus m then l else l ++ [m].
Proof.
  unfold withoutStatus. rewrite endsWithStatus_snoc.
  destruct (isStatus m); [apply removelast_last|reflexivity].
Qed.

(** A list is empty or has a last element. *)
Lemma last_cases {A : Type} (l : list A) :
  l = [] \/ exists l' m, l = l' ++ [m].
Proof.
  destruct l as [|x l]; [left; reflexivity|]. right.
  destruct (exists_last (l := x :: l)) as (l' & m & H); [discriminate|].
  exists l', m. exact H.
Qed.

(** One progress update: a status line at the end is replaced, and after
    anything else the line is added. *)
Lemma onUpdate_spec (st : TaskStatus) (prev : list ChatMessage) :
  onUpdate st prev = withoutStatus prev ++ [progressMessage st].
Proof.
  destruct (last_cases prev) as [->|(l & m & ->)]; [reflexivity|].
  unfold onUpdate. rewrite withoutStatus_snoc, endsWithStatus_snoc.
  destruct (isStatus m); [apply setLast_snoc|reflexivity].
Qed.

Lemma fail_spec (t : thrown) (prev : list ChatMessage) :
  fail t prev = withoutStatus prev ++ [errorMessage t].
Proof.
  destruct (last_cases prev) as [->|(l & m & ->)]; [reflexivity|].
  rewrite withoutStatus_snoc. destruct (isStatus m) eqn:Hm.
  - apply fail_snoc. exact Hm.
  - rewrite (fail_keeps t l m Hm), <- app_assoc. reflexivity.
Qed.

Lemma updates_snoc (sts : list TaskStatus) (st : TaskStatus)
  (prev : list ChatMessage) :
  updates (sts ++ [st]) prev = onUpdate st (updates sts prev).
Proof. unfold updates. rewrite fold_left_app. reflexivity. Qed.

Lemma updates_withoutStatus (sts : list TaskStatus) : forall prev,
  withoutStatus (updates sts prev) = withoutStatus prev.
Proof.
  induction sts as [|st sts IH]; intro prev; [reflexivity|].
  unfold updates. cbn [fold_left]. fold (updates sts (onUpdate st prev)).
  rewrite IH, onUpdate_spec, withoutStatus_snoc. reflexivity.
Qed.

Lemma updates_after_start (sts : list TaskStatus) (prev : list ChatMessage)
  (fileName : str) :
  updates sts (prev ++ [startMessage fileName])
  = prev ++ [statusLine fileName sts].
Proof.
  destruct (last_cases sts) as [->|(l & st & ->)]; [reflexivity|].
  rewrite updates_snoc, onUpdate_spec, updates_withoutStatus,
    withoutStatus_snoc.
  cbn [isStatus startMessage type]. unfold statusLine.
  rewrite rev_app_distr. reflexivity.
Qed.

Lemma notStatus_app (l1 l2 : list ChatMessage) :
  filter (fun m => negb (isStatus m)) (l1 ++ l2)
  = filter (fun m => negb (isStatus m)) l1
    ++ filter (fun m => negb (isStatus m)) l2.
Proof. apply filter_app. Qed.

Lemma notStatus_withoutStatus (l : list ChatMessage) :
  filter (fun m => negb (isStatus m)) (withoutStatus l)
  = filter (fun m => negb (isStatus m)) l.
Proof.
  destruct (last_cases l) as [->|(l' & m & ->)]; [reflexivity|].
  rewrite withoutStatus_snoc. destruct (isStatus m) eqn:Hm; [|reflexivity].
  rewrite notStatus_app. cbn [filter]. rewrite Hm. cbn [negb].
  rewrite app_nil_r. reflexivity.
Qed.

(** X18: Progress updates never pile up and never touch a user or assistant
    message.  Any number of them in a row, applied to any transcript
    (the send box stays enabled during a run, so the transcript may hold
    anything by then), leave it as it was up to a status line at its
    end, followed by one status line with the latest snapshot's message,
    progress and step.  Applied right after the start message of a run,
    they leave the earlier messages followed by exactly one status line:
    the start message until the first snapshot arrives, then the latest
    snapshot's. *)
Theorem one_status_line_during_a_run (prev : list ChatMessage)
  (fileName : str) (sts : list TaskStatus) (st : TaskStatus) :
  updates (sts ++ [st]) prev = withoutStatus prev ++ [progressMessage st]
  /\ filter (fun m => negb (isStatus m)) (updates sts prev)
     = filter (fun m => negb (isStatus m)) prev
  /\ updates sts (prev ++ [startMessage fileName])
     = prev ++ [statusLine fileName sts].
Proof.
  split; [|split].
  - rewrite updates_snoc, onUpdate_spec, updates_withoutStatus.
    reflexivity.
  - rewrite <- (notStatus_withoutStatus (updates sts prev)),
      updates_withoutStatus.
    apply notStatus_withoutStatus.
  - apply updates_after_start.
Qed.

(** How the chat assistant's loop can have ended. *)
Lemma chat_done {R : Type} (srv : server R) (taskId : str) (n : nat)
  (o : outcome TaskStatus) (w : world) :
  ChatAssistant.pollTaskUntilComplete srv taskId n start
  = ChatAssistant.Done o w ->
  exists k,
    (k < n)%nat /\ Trace.quiet srv 0 k
    /\ observed (log w) = Trace.successes (Trace.answers srv (S k))
    /\ ((exists e, statusReply srv k = inl e /\ o = Thrown e)
        \/ exists st,
             statusReply srv k = inr st
             /\ ((Task.status st = Task.completed /\ o = Returned st)
                 \/ (Task.status st = error
                     /\ o = Thrown (Error (message st))))).
Proof.
  intro H. destruct (PollMore.quiet_until srv n) as (k & Hk & Hq & Hend).
  assert (Hlt : (k < n)%nat).
  { destruct (Nat.eq_dec k n) as [->|Hne]; [|lia]. exfalso.
    pose proof (PollFacts.chat_quiet srv taskId n 0 start Hq) as Hc.
    rewrite Nat.add_0_r in Hc. rewrite Hc in H. discriminate. }
  exists k. split; [exact Hlt|]. split; [exact Hq|].
  assert (Hend' : ~ exists st, statusReply srv k = inr st
                               /\ Trace.nonterminal st).
  { destruct Hend as [->|Hend]; [lia|exact Hend]. }
  pose proof (PollMore.quietLog_observed srv taskId 2000 k 0 Hq) as Hobs.
  fold (Trace.answers srv k) in Hobs.
  destruct (statusReply srv k) as [e|st] eqn:E.
  - rewrite (PollMore.chat_failure srv taskId n k e Hlt (conj Hq E)) in H.
    injection H as <- <-. cbn [log]. split.
    + rewrite PollFacts.observed_app, Hobs, PollFacts.answers_S,
        PollFacts.successes_app, E.
      reflexivity.
    + left. exists e. split; reflexivity.
  - destruct (PollFacts.chat_first_terminal srv taskId n k st Hlt Hq E)
      as [Hc He].
    assert (Hlog : observed (quietLog srv taskId true 2000 0 k
                             ++ Trace.lastTurn taskId st)
                   = Trace.successes (Trace.answers srv (S k))).
    { rewrite PollFacts.observed_app, Hobs, PollFacts.answers_S,
        PollFacts.successes_app, E.
      reflexivity. }
    destruct (Task.status st) eqn:Es;
      try (exfalso; apply Hend'; exists st; split; [reflexivity|];
           unfold Trace.nonterminal; rewrite Es; reflexivity).
    + rewrite (Hc eq_refl) in H. injection H as <- <-. cbn [log].
      split; [exact Hlog|]. right. exists st. split; [reflexivity|].
      left. split; [exact Es|reflexivity].
    + rewrite (He eq_refl) in H. injection H as <- <-. cbn [log].
      split; [exact Hlog|]. right. exists st. split; [reflexivity|].
      right. split; [exact Es|reflexivity].
Qed.

(** X19: When a document run of the chat assistant is over, it has written to
    the transcript the start message, one progress update for each
    snapshot polled, in order, and one last write.  That last write is
    the completion exactly when every step went well: the upload, the
    polling up to a [completed] snapshot, the request for the results
    (whose [ok] is not read) and the parent's callback; otherwise it is
    the failure write with what the first failing step threw.  Whatever
    the transcript holds by then, the last write removes or alters no
    user or assistant message and adds one assistant message at the
    end.  With no other write in between, the transcript after the run
    is the one from before it followed by the completed status line and
    the completion message, or by the failure message alone. *)
Theorem transcript_after_run {R : Type} (s : site R) (file : File)
  (n : nat) (ws : list write) :
  processDocument s file n = Some ws ->
  exists sts last,
    ws = Start (name file) :: map Progress sts ++ [last]
    /\ ((last = Finished /\ succeeds s n sts)
        \/ exists t, last = Failed t /\ failsWith s n t sts)
    /\ (forall prev,
          exists m,
            type m = assistant
            /\ filter (fun m => negb (isStatus m)) (apply last prev)
               = filter (fun m => negb (isStatus m)) prev ++ [m])
    /\ forall prev, replay ws prev = prev ++ closing last.
Proof.
  unfold processDocument.
  destruct (attempt s n) as [[caught sts]|] eqn:Ea; [|discriminate].
  intro H. injection H as <-.
  exists sts, (match caught with None => Finished | Some t => Failed t end).
  split; [reflexivity|].
  assert (Hfin : forall prev,
            replay (Start (name file) :: map Progress sts) prev
            = prev ++ [statusLine (name file) sts]).
  { intro prev. unfold replay. cbn [fold_left apply].
    rewrite <- (updates_after_start sts prev (name file)).
    unfold updates. generalize (prev ++ [startMessage (name file)]).
    clear. induction sts as [|st sts IH]; intro l; [reflexivity|].
    cbn [map fold_left apply]. apply IH. }
  assert (Hline : isStatus (statusLine (name file) sts) = true).
  { unfold statusLine. destruct (rev sts); reflexivity. }
  split; [|split].
  - clear Hfin Hline. unfold attempt in Ea.
    destruct (uploadDocument s) as [e|up] eqn:Eu.
    { injection Ea as <- <-. right. exists (OfError e).
      split; [reflexivity|]. left. exists e. auto. }
    destruct (ChatAssistant.pollTaskUntilComplete (Http.viaChat (jobs s))
                (Upload.task_id up) n start) as [w|o w] eqn:Ec;
      [discriminate|].
    destruct (chat_done _ _ _ _ _ Ec) as (k & Hk & Hq & Hobs & Hcase).
    fold (polled s k) in Hobs.
    destruct Hcase as [(e & E & ->)|(st & E & [[Es ->]|[Es ->]])].
    + injection Ea as <- <-. right. exists (OfError e).
      split; [reflexivity|]. right. exists up, k.
      split; [exact Eu|]. split; [exact Hk|]. split; [exact Hobs|]. left.
      exists e. split; [split; assumption|reflexivity].
    + assert (Hc : TraceMore.completesAt (Http.viaChat (jobs s)) k st)
        by (split; [exact Hq|split; assumption]).
      destruct (resultsReply (Http.viaChat (jobs s))) as [e|r] eqn:Er.
      * injection Ea as <- <-. right. exists (OfError e).
        split; [reflexivity|]. right. exists up, k.
        split; [exact Eu|]. split; [exact Hk|]. split; [exact Hobs|].
        right. right.
        exists st. split; [exact Hc|]. left. exists e. auto.
      * injection Ea as <- <-. destruct (parentThrows s) as [t|] eqn:Ep.
        -- right. exists t. split; [reflexivity|]. right. exists up, k.
           split; [exact Eu|]. split; [exact Hk|]. split; [exact Hobs|].
           right. right.
           exists st. split; [exact Hc|]. right. exists r. auto.
        -- left. split; [reflexivity|]. exists up, k, st, r.
           repeat (split; [assumption|]). exact Hobs.
    + injection Ea as <- <-. right.
      exists (OfError (Error (message st))).
      split; [reflexivity|]. right. exists up, k.
      split; [exact Eu|]. split; [exact Hk|]. split; [exact Hobs|].
      right. left.
      exists st. auto.
  - intro prev. destruct caught as [t|]; cbn [apply].
    + exists (errorMessage t). split; [reflexivity|].
      rewrite fail_spec, notStatus_app, notStatus_withoutStatus.
      reflexivity.
    + exists doneMessage. split; [reflexivity|].
      unfold finish. rewrite notStatus_app.
      destruct (last_cases prev) as [->|(l & m & ->)]; [reflexivity|].
      rewrite endsWithStatus_snoc. destruct (isStatus m) eqn:Hm;
        [|reflexivity].
      rewrite setLast_snoc, !notStatus_app. cbn [filter].
      rewrite Hm. reflexivity.
  - intro prev. unfold replay. rewrite app_comm_cons, fold_left_app.
    fold (replay (Start (name file) :: map Progress sts) prev).
    rewrite Hfin. cbn [fold_left].
    destruct caught as [t|]; cbn [apply closing].
    + apply fail_snoc. exact Hline.
    + apply finish_snoc. exact Hline.
Qed.

End TranscriptFacts.

(* ===================================================================== *)
(** ** Emoji removal *)
(* ===================================================================== *)

Module EmojiFacts.
Import JS Emoji.

Lemma isSpace_small (c : char) :
  isSpace c = true -> c < 55296 \/ c = 65279.
Proof.
  unfold isSpace. intro H.
  repeat (apply orb_true_iff in H; destruct H as [H|H]);
    repeat match goal with
           | H : _ && _ = true |- _ =>
             apply andb_true_iff in H; destruct H
           | H : (_ <=? _) = true |- _ => apply N.leb_le in H
           | H : (_ =? _) = true |- _ => apply N.eqb_eq in H
           end; lia.
Qed.

Lemma isSpace_not_surrogate (c : char) :
  isSpace c = true -> isHigh c = false /\ isLow c = false.
Proof.
  intro H. apply isSpace_small in H. unfold isHigh, isLow.
  split; apply andb_false_iff;
    destruct H as [H| ->];
    try (left; apply N.leb_gt; lia);
    try (right; apply N.leb_gt; lia).
Qed.

Lemma surrogate_high (c : N) : isHigh c = true -> isSurrogate c = true.
Proof.
  unfold isHigh, isSurrogate. intro H. apply andb_true_iff in H.
  destruct H as [H1 H2]. apply N.leb_le in H1. apply N.leb_le in H2.
  apply andb_true_iff. split; apply N.leb_le; lia.
Qed.

(** Both conditions on a text can be checked by running through it. *)
Lemma plainText_check (s : str) :
  forallb (fun c => (c <? 65536) && negb (isSurrogate c)
                    && negb (isEmoji c)) s = true ->
  plainText s.
Proof.
  intro H. apply Forall_forall. intros c Hin.
  rewrite forallb_forall in H. specialize (H c Hin).
  apply andb_true_iff in H. destruct H as [H He].
  apply andb_true_iff in H. destruct H as [Hlt Hs].
  apply N.ltb_lt in Hlt. apply negb_true_iff in Hs, He. auto.
Qed.

Lemma wellFormed_check (s : str) :
  forallb (fun c => c <? 65536) s
  && forallb (fun c => negb (isSurrogate c)) (codePoints s) = true ->
  wellFormed s.
Proof.
  intro H. apply andb_true_iff in H. destruct H as [H1 H2].
  rewrite forallb_forall in H1, H2.
  split; apply Forall_forall; intros c Hin.
  - apply N.ltb_lt. auto.
  - apply negb_true_iff. auto.
Qed.

Lemma codePoints_pair (h l : char) (r : str) :
  codePoints (h :: l :: r)
  = if isHigh h && isLow l
    then (65536 + (h - 55296) * 1024 + (l - 56320)) :: codePoints r
    else h :: codePoints (l :: r).
Proof. reflexivity. Qed.

Lemma codePoints_cons (c : char) (r : str) :
  isHigh c = false -> codePoints (c :: r) = c :: codePoints r.
Proof.
  intro H. cbn [codePoints]. destruct r as [|l r']; [reflexivity|].
  rewrite H. reflexivity.
Qed.

Lemma codePoints_plain (s : str) :
  Forall (fun c => isSurrogate c = false) s -> codePoints s = s.
Proof.
  induction 1 as [|c r Hc Hr IH]; [reflexivity|].
  rewrite codePoints_cons, IH; [reflexivity|].
  destruct (isHigh c) eqn:E; [|reflexivity].
  apply surrogate_high in E. congruence.
Qed.

Lemma encode_plain (s : str) :
  Forall (fun c => c < 65536) s -> flat_map utf16_encode s = s.
Proof.
  induction 1 as [|c r Hc Hr IH]; [reflexivity|].
  cbn [flat_map]. rewrite IH. unfold utf16_encode.
  apply N.ltb_lt in Hc. rewrite Hc. reflexivity.
Qed.

(** X20: Text without emoji and without surrogates is only trimmed. *)
Theorem plain_text_is_only_trimmed (text : str) :
  plainText text -> removeEmojis text = trim text.
Proof.
  intro H. unfold removeEmojis.
  assert (H1 : Forall (fun c => isSurrogate c = false) text).
  { eapply Forall_impl; [|exact H]. cbv beta. tauto. }
  assert (H2 : Forall (fun c => c < 65536) text).
  { eapply Forall_impl; [|exact H]. cbv beta. tauto. }
  rewrite (codePoints_plain text H1).
  assert (H3 : filter (fun c => negb (isEmoji c)) text = text).
  { clear H1 H2. induction H as [|c r (_ & _ & Hc) Hr IH]; [reflexivity|].
    cbn [filter]. rewrite Hc, IH. reflexivity. }
  rewrite H3, (encode_plain text H2). reflexivity.
Qed.

(** Code points of a string of 16-bit units are below 110000 hex. *)
Lemma codePoints_bound (n : nat) : forall s,
  (length s <= n)%nat -> Forall (fun c => c < 65536) s ->
  Forall (fun c => c < 1114112) (codePoints s).
Proof.
  induction n as [|n IH]; intros s Hn Hs.
  - destruct s; [constructor|cbn in Hn; lia].
  - destruct s as [|h [|l r']]; [constructor| |].
    + inversion Hs; subst. constructor; [lia|constructor].
    + inversion Hs as [|? ? Hh Hr]; subst.
      inversion Hr as [|? ? Hl Hr']; subst.
      rewrite codePoints_pair. destruct (isHigh h && isLow l) eqn:E.
      * apply andb_true_iff in E. destruct E as [E1 E2].
        unfold isHigh in E1. unfold isLow in E2.
        apply andb_true_iff in E1. apply andb_true_iff in E2.
        destruct E1 as [A1 A2], E2 as [B1 B2].
        apply N.leb_le in A1, A2, B1, B2.
        constructor; [lia|]. apply IH; [cbn in Hn |- *; lia|exact Hr'].
      * constructor; [lia|]. apply IH; [cbn in Hn |- *; lia|exact Hr].
Qed.

(** Encoding code points that are no surrogates and decoding again gives
    them back. *)
Lemma codePoints_encode (cps : list N) :
  Forall (fun c => isSurrogate c = false /\ c < 1114112) cps ->
  codePoints (flat_map utf16_encode cps) = cps.
Proof.
  induction 1 as [|c r [Hs Hc] Hr IH]; [reflexivity|].
  cbn [flat_map]. unfold utf16_encode at 1.
  destruct (c <? 65536) eqn:E.
  - cbn [app]. rewrite codePoints_cons, IH; [reflexivity|].
    destruct (isHigh c) eqn:Eh; [|reflexivity].
    apply surrogate_high in Eh. congruence.
  - apply N.ltb_ge in E. cbv zeta. cbn [app]. rewrite codePoints_pair.
    assert (Hv : c - 65536 < 1048576) by lia.
    pose proof (N.div_mod (c - 65536) 1024 ltac:(lia)) as Hdm.
    assert (Hq : (c - 65536) / 1024 < 1024)
      by (apply N.Div0.div_lt_upper_bound; lia).
    assert (Hm : (c - 65536) mod 1024 < 1024) by (apply N.mod_lt; lia).
    revert Hdm Hq Hm.
    generalize ((c - 65536) / 1024) as q.
    generalize ((c - 65536) mod 1024) as m. intros m q Hdm Hq Hm.
    assert (Hh : isHigh (55296 + q) = true).
    { unfold isHigh. apply andb_true_iff. split; apply N.leb_le; lia. }
    assert (Hl : isLow (56320 + m) = true).
    { unfold isLow. apply andb_true_iff. split; apply N.leb_le; lia. }
    rewrite Hh, Hl. cbn [andb]. rewrite IH. f_equal. lia.
Qed.

Section Kept.
Variable P : N -> Prop.

Lemma codePoints_trimStart (u : str) :
  Forall P (codePoints u) -> Forall P (codePoints (trimStart u)).
Proof.
  unfold trimStart. induction u as [|c r IH]; intro H; [exact H|].
  cbn [dropWhile]. destruct (isSpace c) eqn:E; [|exact H].
  apply IH. destruct (isSpace_not_surrogate c E) as [Hh _].
  rewrite (codePoints_cons c r Hh) in H. inversion H; assumption.
Qed.

Lemma codePoints_before_spaces (ws : str) (n : nat) : forall core,
  (length core <= n)%nat ->
  Forall (fun c => isSpace c = true) ws ->
  Forall P (codePoints (core ++ ws)) -> Forall P (codePoints core).
Proof.
  intros core Hn Hws. revert core Hn.
  induction n as [|n IH]; intros core Hn H.
  - destruct core; [constructor|cbn in Hn; lia].
  - destruct core as [|h [|l r']]; [constructor| |].
    + cbn [app] in H. destruct ws as [|w ws'].
      * exact H.
      * rewrite codePoints_pair in H. inversion Hws; subst.
        destruct (isSpace_not_surrogate w ltac:(assumption)) as [_ Hl].
        rewrite Hl, andb_false_r in H.
        constructor; [exact (Forall_inv H)|constructor].
    + cbn [app] in H. rewrite codePoints_pair in H |- *.
      destruct (isHigh h && isLow l).
      * constructor; [exact (Forall_inv H)|].
        apply IH; [cbn in Hn; lia|exact (Forall_inv_tail H)].
      * constructor; [exact (Forall_inv H)|].
        apply (IH (l :: r')); [cbn in Hn |- *; lia|].
        exact (Forall_inv_tail H).
Qed.

Lemma dropWhile_split (p : char -> bool) (s : str) :
  exists ws, s = ws ++ dropWhile p s /\ Forall (fun c => p c = true) ws.
Proof.
  induction s as [|c r (ws & E & Hws)]; [exists []; split; [reflexivity|constructor]|].
  cbn [dropWhile]. destruct (p c) eqn:Ec.
  - exists (c :: ws). split; [cbn; rewrite <- E; reflexivity|].
    constructor; assumption.
  - exists []. split; [reflexivity|constructor].
Qed.

Lemma codePoints_trimEnd (u : str) :
  Forall P (codePoints u) -> Forall P (codePoints (trimEnd u)).
Proof.
  unfold trimEnd. intro H.
  destruct (dropWhile_split isSpace (rev u)) as (ws & E & Hws).
  assert (Eu : u = rev (dropWhile isSpace (rev u)) ++ rev ws).
  { rewrite <- rev_app_distr, <- E, rev_involutive. reflexivity. }
  rewrite Eu in H.
  apply (codePoints_before_spaces (rev ws) _ _ (le_n _)); [|exact H].
  apply Forall_rev. exact Hws.
Qed.

Lemma codePoints_trim (u : str) :
  Forall P (codePoints u) -> Forall P (codePoints (trim u)).
Proof.
  intro H. unfold trim. apply codePoints_trimEnd, codePoints_trimStart.
  exact H.
Qed.

End Kept.

(** X21: In a string in which every surrogate has its partner, no emoji of
    the listed ranges is left after [removeEmojis], and the result is
    again such a string. *)
Theorem no_emoji_is_left (text : str) :
  wellFormed text ->
  Forall (fun c => isEmoji c = false /\ isSurrogate c = false)
         (codePoints (removeEmojis text)).
Proof.
  intros [Hu Hs]. unfold removeEmojis. apply codePoints_trim.
  pose proof (codePoints_bound _ text (le_n _) Hu) as Hb.
  set (cps := filter (fun c => negb (isEmoji c)) (codePoints text)).
  assert (Hall : Forall (fun c => (isEmoji c = false
                                   /\ isSurrogate c = false)
                                  /\ isSurrogate c = false /\ c < 1114112)
                        cps).
  { subst cps. apply Forall_forall. intros c Hin.
    apply filter_In in Hin. destruct Hin as [Hin He].
    apply negb_true_iff in He.
    rewrite Forall_forall in Hs, Hb. specialize (Hs c Hin).
    specialize (Hb c Hin). cbv beta in Hs, Hb. auto. }
  rewrite codePoints_encode.
  - eapply Forall_impl; [|exact Hall]. cbv beta. tauto.
  - eapply Forall_impl; [|exact Hall]. cbv beta. tauto.
Qed.

End EmojiFacts.

(* ===================================================================== *)
(** ** The further properties at work *)
(* ===================================================================== *)

Module Uses.
Import JS Num Regex Extract Row Lang Transcript Charts Trace TraceMore
       Panel Pipeline Validate Emoji Texts MoreTexts MoreSamples Task.

Lemma tables_need_a_keyword_witness :
  Parsed.growth (parseOCRData orphanTable) = []
  /\ Parsed.categories (parseOCRData orphanTable) = []
  /\ (length (Parsed.sales (parseOCRData orphanTable))
      <= length (filter (fun line => isLabelled (trim line))
                        (split newline orphanTable)))%nat.
Proof.
  apply (ExtractMore.tables_need_a_keyword orphanTable).
  vm_compute. reflexivity.
Defined.

Lemma labelled_line_reads_whole_number_witness :
  exists v',
    salesLine fractionLine Extract.initial = Ok v'
    /\ ((exists f,
           shaped f /\ lineOf f = fractionLine
           /\ (forall g, shaped g -> lineOf g = fractionLine ->
                         (length (before f) <= length (before g))%nat)
           /\ hasDigit (amount f) = true
           /\ (reading f < 2 ^ 53)%N
           /\ v' = withSales Extract.initial
                     (sales Extract.initial ++ [point f]))
        \/ (v' = Extract.initial
            /\ ((exists f,
                   shaped f /\ lineOf f = fractionLine
                   /\ (forall g, shaped g -> lineOf g = fractionLine ->
                                 (length (before f) <= length (before g))%nat)
                   /\ hasDigit (amount f) = false)
                \/ forall f, shaped f -> lineOf f <> fractionLine))).
Proof.
  apply (NumFacts.labelled_line_reads_whole_number fractionLine
           Extract.initial).
  vm_compute. lia.
Defined.

(** The figure of "1月: 4,200万元" and the point read from it. *)
Example thousands_figure :
  let f := {| before := []; label := lit "1"; suffix := yue;
              separator := colon; gap := lit " "; amount := lit "4,200";
              gap' := []; unitText := lit "万元"; after := [] |} in
  lineOf f = thousandsLine /\ hasDigit (amount f) = true
  /\ reading f = 4200 /\ point f = sale "1月" 4200
  /\ salesLine thousandsLine Extract.initial
     = Ok (withSales Extract.initial [point f]).
Proof. repeat split; vm_compute; reflexivity. Qed.

Lemma unrecognised_text_shows_placeholders_witness :
  salesData (onOCRChange (Some letter) true initialView) = mockSalesData
  /\ growthData (onOCRChange (Some letter) true initialView)
     = mockGrowthData
  /\ categoryData (onOCRChange (Some letter) true initialView)
     = mockCategoryData.
Proof.
  apply (ChartFacts.unrecognised_text_shows_placeholders letter initialView).
  - vm_compute. discriminate.
  - vm_compute. reflexivity.
Defined.


Lemma report_is_requested_last_witness :
  @nil step = []
  /\ (exists up, uploadReply smooth = inr up
                 /\ lit "t-1" = Upload.task_id up)
  /\ exists pre',
       removelast (snd (Pipeline.processDocument smooth q3 bare))
       = pre' ++ [Poll (GetResults (lit "t-1"))].
Proof.
  apply (PipelineFacts.report_is_requested_last smooth q3 bare
           (removelast (snd (Pipeline.processDocument smooth q3 bare))) []
           (lit "t-1")).
  vm_compute. reflexivity.
Defined.

Lemma accepted_by_type_or_extension_witness :
  validateFileType scan = true.
Proof.
  apply (proj2 (ValidateFacts.accepted_by_type_or_extension scan)).
  right. exists (lit "SCAN"), (lit "JPEG"), (lit "jpeg").
  split; [vm_compute; reflexivity|].
  split; [vm_compute; tauto|vm_compute; reflexivity].
Defined.

Lemma rejected_file_is_never_sent_witness :
  fst (handleFileUpload smooth (Some setup) true Panel.initial) = Panel.initial
  /\ exists text, snd (handleFileUpload smooth (Some setup) true Panel.initial)
                  = [Alert text].
Proof.
  apply (PanelFacts.rejected_file_is_never_sent smooth setup true Panel.initial).
  left. vm_compute. reflexivity.
Defined.

Lemma panel_after_upload_witness :
  isProcessing (fst (handleFileUpload smooth (Some q3) true Panel.initial))
  = false
  /\ (exists rest,
        snd (handleFileUpload smooth (Some q3) true Panel.initial)
        = map Net (snd (Pipeline.processDocument smooth q3
                          {| enableDescription := Some true;
                             Pipeline.userQuery :=
                               Some (Panel.userQuery (@Panel.initial nat));
                             onProgress := true |}))
          ++ rest
        /\ existsb isNet rest = false)
  /\ currentTaskId (fst (handleFileUpload smooth (Some q3) true
                           Panel.initial)) = Some (lit "t-1")
  /\ processingResults (fst (handleFileUpload smooth (Some q3) true
                               Panel.initial)) = Some 7%nat
  /\ Panel.htmlReport (fst (handleFileUpload smooth (Some q3) true
                              Panel.initial)) = lit "<html></html>".
Proof.
  apply (PanelFacts.panel_after_upload smooth q3 true Panel.initial).
  - vm_compute. reflexivity.
  - vm_compute. discriminate.
Defined.

Lemma transcript_after_run_witness :
  exists sts last,
    [Start (lit "q3.pdf");
     Progress (Samples.snapshot pending 0 "queued");
     Progress (Samples.snapshot ocr_processing 20 "ocr");
     Progress (Samples.snapshot completed 100 "done");
     Finished]
    = Start (name q3) :: map Progress sts ++ [last]
    /\ ((last = Finished /\ succeeds unread 150 sts)
        \/ exists t, last = Failed t /\ failsWith unread 150 t sts)
    /\ (forall prev,
          exists m,
            Transcript.type m = assistant
            /\ filter (fun m => negb (isStatus m)) (apply last prev)
               = filter (fun m => negb (isStatus m)) prev ++ [m])
    /\ forall prev,
         replay [Start (lit "q3.pdf");
                 Progress (Samples.snapshot pending 0 "queued");
                 Progress (Samples.snapshot ocr_processing 20 "ocr");
                 Progress (Samples.snapshot completed 100 "done");
                 Finished] prev
         = prev ++ closing last.
Proof.
  apply (TranscriptFacts.transcript_after_run unread q3 150).
  vm_compute. reflexivity.
Defined.

(** A results response that is not ok but parses is taken for the
    results; an upload that is turned away ends the run with the status
    text in the failure message. *)
Example run_transcripts :
  option_map (fun ws => replay ws [])
             (Transcript.processDocument unread q3 150)
  = Some [doneStatus; doneMessage]
  /\ option_map (fun ws => replay ws [])
                (Transcript.processDocument refused q3 150)
     = Some [errorMessage
               (OfError (Error (lit "上传失败: Payload Too Large")))].
Proof. split; vm_compute; reflexivity. Qed.

Lemma plain_text_is_only_trimmed_witness :
  removeEmojis undecorated = trim undecorated.
Proof.
  apply (EmojiFacts.plain_text_is_only_trimmed undecorated).
  apply EmojiFacts.plainText_check. vm_compute. reflexivity.
Defined.

Lemma no_emoji_is_left_witness :
  Forall (fun c => isEmoji c = false /\ isSurrogate c = false)
         (codePoints (removeEmojis decorated)).
Proof.
  apply (EmojiFacts.no_emoji_is_left decorated).
  apply EmojiFacts.wellFormed_check. vm_compute. reflexivity.
Defined.

(** The emoji are gone and the text is trimmed. *)
Example decorated_undecorated :
  removeEmojis decorated = lit "图表已生成".
Proof. vm_compute. reflexivity. Qed.

(** Without its partner a surrogate stays, and two that are left over can
    meet: what remains of [broken] is an emoji. *)
Example broken_leaves_emoji :
  removeEmojis broken = [55357; 56832]
  /\ codePoints (removeEmojis broken) = [128512]
  /\ isEmoji 128512 = true.
Proof. repeat split; vm_compute; reflexivity. Qed.

Example accepted_files :
  map validateFileType
      [scan; setup;
       {| name := lit "notes"; type := lit "text/plain"; size := 1 |};
       {| name := lit "report.pdf.exe"; type := []; size := 1 |}]
  = [true; false; true; false].
Proof. vm_compute. reflexivity. Qed.

End Uses.
